(** * Image cropping service: a shallow embedding of [src/app.py]

    The development follows the layout of the source file: the request
    and geometry data, [download_image], [crop_bounding_box], the two
    detectors and their orchestration in [detect_objects], the overlap
    suppressor [remove_overlapping_boxes], the per-image batch processor
    [process_single_image] and the job loop [crop_image].  The gateway
    function [handler] of [src/api/crop-image.py], which posts to the
    service, follows in the module [Gateway].

    Conventions.
    - Python [int] is [Z]; Python [float] (thresholds, ratios, the
      quotient [intersection / union]) is read over exact rationals [Q].
      The suppressor is also given with its quotient rounded to a double
      ([true_divide], [remove_overlapping_boxes_binary64]); at the
      threshold of its one call site, 0.5, both readings agree for boxes
      of area below [2^52].
    - Python [str] is [string]; character tests ([isalnum], [lower]) are
      those of the ASCII range.
    - [try/except] is an explicit result type [res]: a call either
      returns a value or raises an exception of the class hierarchy the
      source distinguishes ([HTTPException], [ImportError], [ValueError],
      any other [Exception]).
    - Everything outside the program text (the network, the decoders, the
      OpenCV and YOLO libraries, the upload services, the clock) is a
      field of the record [World]. *)

From Stdlib Require Import ZArith QArith List Bool String Ascii Lia Permutation.
From Stdlib Require Import Numbers.DecimalString.
From Stdlib Require DecimalZ.
Import ListNotations.

Local Open Scope string_scope.
Local Open Scope list_scope.
Local Open Scope Z_scope.

Set Implicit Arguments.

(* ================================================================= *)
(** ** Python strings *)

Module Str.

(** [str(n)] for an [int]. *)
Definition of_int (n : Z) : string := NilZero.string_of_int (Z.to_int n).

Fixpoint zeros (n : nat) : string :=
match n with
| O => EmptyString
| S k => String "0" (zeros k)
end.

(** [s.zfill(w)] for a string of digits. *)
Definition zfill (w : nat) (s : string) : string :=
String.append (zeros (w - String.length s)) s.

(** The format specification [{n:03d}]: the sign counts in the width. *)
Definition format_03d (n : Z) : string :=
if n <? 0 then String "-" (zfill 2 (of_int (- n))) else zfill 3 (of_int n).

Definition between (lo hi c : ascii) : bool :=
let n := nat_of_ascii c in
(Nat.leb (nat_of_ascii lo) n && Nat.leb n (nat_of_ascii hi))%bool.

(** [c.isalnum()] on the ASCII range; characters outside it, which
    Python may count as letters or digits, are not. *)
Definition isalnum (c : ascii) : bool :=
(between "0" "9" c || between "a" "z" c || between "A" "Z" c)%bool.

Definition lower_char (c : ascii) : ascii :=
if between "A" "Z" c then ascii_of_nat (nat_of_ascii c + 32) else c.

(** [s.lower()] *)
Fixpoint lower (s : string) : string :=
match s with
| EmptyString => EmptyString
| String c s' => String (lower_char c) (lower s')
end.

(** [needle in hay] *)
Fixpoint contains (needle hay : string) : bool :=
(String.prefix needle hay ||
 match hay with
 | EmptyString => false
 | String _ hay' => contains needle hay'
 end)%bool.

(** ["".join(f(c) for c in s)] for a character-to-character [f]. *)
Fixpoint map_chars (f : ascii -> ascii) (s : string) : string :=
match s with
| EmptyString => EmptyString
| String c s' => String (f c) (map_chars f s')
end.

(** Truthiness of a [str]. *)
Definition nonempty (s : string) : bool :=
match s with EmptyString => false | _ => true end.

End Str.

(* ================================================================= *)
(** ** Exceptions and results *)

(** The exception classes the handlers of [app.py] tell apart.
    [HTTPException] is a subclass of [Exception], so an
    [except Exception] clause catches every constructor below. *)
Inductive exn : Type :=
| HTTPException (status_code : Z) (detail : string)
| ImportError (msg : string)
| ValueError (msg : string)
| OtherException (msg : string).

Definition is_http (e : exn) : bool :=
  match e with HTTPException _ _ => true | _ => false end.

(** [str(e)], as interpolated by [{e}] in the f-strings.  Starlette's
    [HTTPException.__str__] gives ["<status>: <detail>"]. *)
Definition str_exn (e : exn) : string :=
  match e with
  | HTTPException s d => String.append (Str.of_int s) (String.append ": " d)
  | ImportError m | ValueError m | OtherException m => m
  end.

Inductive res (A : Type) : Type :=
| Ret (a : A)
| Raise (e : exn).

Arguments Ret {A} a.
Arguments Raise {A} e.

Definition returns {A : Type} (m : res A) : bool :=
  match m with Ret _ => true | Raise _ => false end.

(* ================================================================= *)
(** ** Data model *)

Module BoundingBox.
(** [class BoundingBox(BaseModel)] *)
Record t : Type := Build {
  x : Z;
  y : Z;
  width : Z;
  height : Z;
  label : option string
}.
End BoundingBox.

Module Image.
(** A decoded RGB [PIL.Image]: its size and its pixels, addressed by
    column and row. *)
Record t : Type := Build {
  width : Z;
  height : Z;
  pixel : Z -> Z -> Z
}.

(** [image.crop((left, upper, right, lower))] *)
Definition crop (image : t) (box : Z * Z * Z * Z) : t :=
  let '(left_, upper, right_, lower) := box in
  {| width := right_ - left_;
     height := lower - upper;
     pixel := fun i j => pixel image (left_ + i) (upper + j) |}.
End Image.

(** [class CropRequest(BaseModel)]; [clear_previous] only drives the
    best-effort cleanup of the output directory. *)
Record CropRequest : Type := {
  image_url : option string;
  image_urls : option (list string);
  bounding_boxes : option (list BoundingBox.t);
  use_detection : bool;
  detect_windows_only : bool;
  confidence_threshold : Q;
  clear_previous : bool
}.

(** One entry of [saved_files]. *)
Record SavedFile : Type := {
  sf_url : string;
  sf_path : string;
  sf_filename : string;
  sf_label : string;
  sf_source_image : string;
  sf_image_index : Z;
  sf_dimensions : Z * Z;           (* width, height of the crop *)
  sf_bbox : Z * Z * Z * Z          (* x, y, width, height *)
}.

(** The JSON body returned by [crop_image]. *)
Record JobReport : Type := {
  status : string;
  job_id : string;
  output_dir : string;
  images_processed : Z;
  saved_count : Z;
  saved_files : list SavedFile;
  errors : list string
}.

(** One detection of the YOLO model after [int(...)] conversion of its
    corner coordinates: [x], [y], [width], [height] and the class name. *)
Record Detection : Type := {
  det_x : Z;
  det_y : Z;
  det_width : Z;
  det_height : Z;
  det_label : string
}.

(** The collaborators of the program. *)
Record World : Type := {
  (** lines 92-98: [requests.get], [raise_for_status], [Image.open],
      [convert("RGB")] *)
  fetch : string -> res Image.t;
  (** lines 189-231: the OpenCV pipeline up to the list of candidate
      boxes handed to the suppressor *)
  cv2_candidates : Image.t -> res (list BoundingBox.t);
  (** lines 131-152: importing and running the YOLO model *)
  yolo : Image.t -> Q -> res (list Detection);
  (** [cropped.save(img_bytes, format="JPEG", quality=95)] *)
  jpeg : Image.t -> res string;
  (** the two remote stores of [upload_to_cloud_storage]; [None] when the
      store is not configured or the attempt did not yield a URL *)
  imgbb : string -> string -> option string;
  cloudinary : string -> string -> option string;
  b64encode : string -> string;
  (** pydantic's [BoundingBox.__str__] *)
  str_bbox : BoundingBox.t -> string;
  (** [job_dir.mkdir(parents=True, exist_ok=True)] *)
  mkdir : string -> res unit;
  (** [OUTPUT_DIR], [uuid.uuid4().hex], [datetime.utcnow().strftime(...)] *)
  OUTPUT_DIR : string;
  uuid4_hex : string;
  utcnow : string
}.

(* ================================================================= *)
(** ** Geometry: [crop_bounding_box] *)

(** Lines 106-109: the four locals [x], [y], [width], [height]. *)
Definition clamp (image : Image.t) (bbox : BoundingBox.t) : Z * Z * Z * Z :=
  let x := Z.max 0 (BoundingBox.x bbox) in
  let y := Z.max 0 (BoundingBox.y bbox) in
  let width := Z.min (BoundingBox.width bbox) (Image.width image - x) in
  let height := Z.min (BoundingBox.height bbox) (Image.height image - y) in
  (x, y, width, height).

Definition crop_bounding_box (w : World) (image : Image.t) (bbox : BoundingBox.t)
  : res Image.t :=
  let '(x, y, width, height) := clamp image bbox in
  if ((width <=? 0) || (height <=? 0))%bool then
    Raise (HTTPException 400
             (String.append "Invalid bounding box: " (str_bbox w bbox)))
  else
    Ret (Image.crop image (x, y, x + width, y + height)).

(** The locals of [clamp] read back as a box, with the label kept. *)
Definition clamped_box (image : Image.t) (bbox : BoundingBox.t) : BoundingBox.t :=
  let '(x, y, width, height) := clamp image bbox in
  BoundingBox.Build x y width height (BoundingBox.label bbox).

(** The four geometric fields of a box. *)
Definition box_fields (b : BoundingBox.t) : Z * Z * Z * Z :=
  (BoundingBox.x b, BoundingBox.y b, BoundingBox.width b, BoundingBox.height b).

(* ================================================================= *)
(** ** Overlap suppressor: [remove_overlapping_boxes] *)

Definition area (b : BoundingBox.t) : Z :=
  BoundingBox.width b * BoundingBox.height b.

Section Sort.
Variable A : Type.
Variable key : A -> Z.

(** [l.sort(key=key, reverse=True)]: descending and stable, elements
    with equal keys keep their input order. *)
Fixpoint insert_desc (a : A) (l : list A) : list A :=
  match l with
  | [] => [a]
  | c :: l' => if key a <? key c then c :: insert_desc a l' else a :: c :: l'
  end.

Definition sort_desc (l : list A) : list A :=
  fold_right insert_desc [] l.
End Sort.

(** Lines 313-323: the quotient computed inside the inner loop.  [None]
    when the guard [x2 > x1 and y2 > y1] fails and no quotient is formed. *)
Definition iou_inline (box existing_box : BoundingBox.t) : option Q :=
  let x1 := Z.max (BoundingBox.x box) (BoundingBox.x existing_box) in
  let y1 := Z.max (BoundingBox.y box) (BoundingBox.y existing_box) in
  let x2 := Z.min (BoundingBox.x box + BoundingBox.width box)
                  (BoundingBox.x existing_box + BoundingBox.width existing_box) in
  let y2 := Z.min (BoundingBox.y box + BoundingBox.height box)
                  (BoundingBox.y existing_box + BoundingBox.height existing_box) in
  if ((x2 >? x1) && (y2 >? y1))%bool then
    let intersection := (x2 - x1) * (y2 - y1) in
    let area1 := BoundingBox.width box * BoundingBox.height box in
    let area2 := BoundingBox.width existing_box * BoundingBox.height existing_box in
    let union := area1 + area2 - intersection in
    Some (if union >? 0 then (inject_Z intersection / inject_Z union)%Q else 0%Q)
  else None.

(** One pass of the inner loop body: does [existing_box] set
    [is_overlapping]?  The quotient and the threshold are compared as
    exact rationals.  Python compares the quotient rounded to a double,
    which is [exceeds_binary64] below; the two tests agree whenever
    rounding does not carry the quotient onto the threshold, as at the
    threshold 0.5 for boxes of area below [2^52]. *)
Definition exceeds (overlap_threshold : Q) (box existing_box : BoundingBox.t) : bool :=
  match iou_inline box existing_box with
  | Some iou => negb (Qle_bool iou overlap_threshold)
  | None => false
  end.

(** The body of the outer loop at lines 309-330. *)
Definition keep_step (overlap_threshold : Q)
  (filtered : list BoundingBox.t) (entry : BoundingBox.t * Z) : list BoundingBox.t :=
  let box := fst entry in
  if existsb (exceeds overlap_threshold box) filtered then filtered
  else filtered ++ [box].

Definition remove_overlapping_boxes
  (boxes : list BoundingBox.t) (overlap_threshold : Q) : list BoundingBox.t :=
  match boxes with
  | [] => boxes
  | _ =>
    let boxes_with_area := map (fun box => (box, area box)) boxes in
    let boxes_with_area := sort_desc snd boxes_with_area in
    fold_left (keep_step overlap_threshold) boxes_with_area []
  end.

(** Intersection over union of two boxes: the inline quotient, and [0]
    for rectangles that do not intersect. *)
Definition IoU (a b : BoundingBox.t) : Q :=
  match iou_inline a b with
  | Some q => q
  | None => 0%Q
  end.

(** Keys never increase from left to right. *)
Definition descending {A : Type} (key : A -> Z) (l : list A) : Prop :=
  ForallOrdPairs (fun a b => key b <= key a) l.

(** The outer loop of [remove_overlapping_boxes], read over the boxes
    alone. *)
Fixpoint greedy (t : Q) (l filtered : list BoundingBox.t) : list BoundingBox.t :=
  match l with
  | [] => filtered
  | box :: l' =>
      greedy t l' (if existsb (exceeds t box) filtered then filtered
                   else filtered ++ [box])
  end.

(** No earlier box of the list sets [is_overlapping] for a later one. *)
Definition compatible (t : Q) (l : list BoundingBox.t) : Prop :=
  ForallOrdPairs (fun a b => exceeds t b a = false) l.

(* ================================================================= *)
(** ** [remove_overlapping_boxes], the quotient as a double *)

(** [n / d] rounded to the nearest integer, a tie to the even one
    ([0 <= n], [0 < d]). *)
Definition round_half_even (n d : Z) : Z :=
  let q := n / d in
  let r := n mod d in
  if 2 * r <? d then q
  else if d <? 2 * r then q + 1
  else if Z.even q then q else q + 1.

(** The [e] with [2^e <= n / d < 2^(e+1)] ([0 < n], [0 < d]). *)
Definition binade (n d : Z) : Z :=
  let e := Z.log2 n - Z.log2 d in
  if n * 2 ^ Z.max 0 (- e) <? d * 2 ^ Z.max 0 e then e - 1 else e.

(** [n / d] on two Python integers, [0 <= n] and [0 < d]: the quotient
    rounded to the nearest double, a tie to the even one.  A double
    holds 53 significant bits, the last of them worth [2^-1074] at
    least.  (A quotient from [2^1024] on raises [OverflowError]; the
    quotients of [remove_overlapping_boxes] are at most 1.) *)
Definition true_divide (n d : Z) : Q :=
  if n =? 0 then 0%Q
  else
    let k := Z.max (binade n d - 52) (-1074) in
    let m := round_half_even (n * 2 ^ Z.max 0 (- k)) (d * 2 ^ Z.max 0 k) in
    (m * 2 ^ Z.max 0 k) # Z.to_pos (2 ^ Z.max 0 (- k)).

(** Lines 313-323 with the quotient as Python computes it. *)
Definition iou_inline_binary64 (box existing_box : BoundingBox.t) : option Q :=
  let x1 := Z.max (BoundingBox.x box) (BoundingBox.x existing_box) in
  let y1 := Z.max (BoundingBox.y box) (BoundingBox.y existing_box) in
  let x2 := Z.min (BoundingBox.x box + BoundingBox.width box)
                  (BoundingBox.x existing_box + BoundingBox.width existing_box) in
  let y2 := Z.min (BoundingBox.y box + BoundingBox.height box)
                  (BoundingBox.y existing_box + BoundingBox.height existing_box) in
  if ((x2 >? x1) && (y2 >? y1))%bool then
    let intersection := (x2 - x1) * (y2 - y1) in
    let area1 := BoundingBox.width box * BoundingBox.height box in
    let area2 := BoundingBox.width existing_box * BoundingBox.height existing_box in
    let union := area1 + area2 - intersection in
    Some (if union >? 0 then true_divide intersection union else 0%Q)
  else None.

(** Line 325, [iou > overlap_threshold], on the double. *)
Definition exceeds_binary64
  (overlap_threshold : Q) (box existing_box : BoundingBox.t) : bool :=
  match iou_inline_binary64 box existing_box with
  | Some iou => negb (Qle_bool iou overlap_threshold)
  | None => false
  end.

Definition keep_step_binary64 (overlap_threshold : Q)
  (filtered : list BoundingBox.t) (entry : BoundingBox.t * Z) : list BoundingBox.t :=
  let box := fst entry in
  if existsb (exceeds_binary64 overlap_threshold box) filtered then filtered
  else filtered ++ [box].

(** [remove_overlapping_boxes] with every quotient rounded to a double
    before it is compared with the threshold. *)
Definition remove_overlapping_boxes_binary64
  (boxes : list BoundingBox.t) (overlap_threshold : Q) : list BoundingBox.t :=
  match boxes with
  | [] => boxes
  | _ =>
    let boxes_with_area := map (fun box => (box, area box)) boxes in
    let boxes_with_area := sort_desc snd boxes_with_area in
    fold_left (keep_step_binary64 overlap_threshold) boxes_with_area []
  end.

(** The number line 325 compares with the threshold, and [0] for
    rectangles that do not intersect. *)
Definition IoU_binary64 (a b : BoundingBox.t) : Q :=
  match iou_inline_binary64 a b with
  | Some q => q
  | None => 0%Q
  end.

(** The outer loop over the boxes alone, for any test of two boxes. *)
Section Suppress.
Variable conflict : BoundingBox.t -> BoundingBox.t -> bool.

Fixpoint suppress (l filtered : list BoundingBox.t) : list BoundingBox.t :=
  match l with
  | [] => filtered
  | box :: l' =>
      suppress l' (if existsb (conflict box) filtered then filtered
                   else filtered ++ [box])
  end.

Definition conflict_free (l : list BoundingBox.t) : Prop :=
  ForallOrdPairs (fun a b => conflict b a = false) l.
End Suppress.

(** The double next to one third, [0.3333333333333333]. *)
Definition one_third_binary64 : Q := 6004799503160661 # 18014398509481984.

(* ================================================================= *)
(** ** [download_image] *)

(** The whole body sits in [try ... except Exception], so every failure
    of the collaborator leaves as an [HTTPException] with status 400. *)
Definition download_image (w : World) (url : string) : res Image.t :=
  match fetch w url with
  | Ret image => Ret image
  | Raise e =>
      Raise (HTTPException 400
               (String.append "Failed to download image: " (str_exn e)))
  end.

(* ================================================================= *)
(** ** Detectors *)

(** [detect_windows_advanced]: the candidates of the OpenCV pipeline go
    through the suppressor at threshold 0.5; a missing library or any
    other failure gives the empty list.  The confidence threshold is not
    used by the body. *)
Definition detect_windows_advanced
  (w : World) (image : Image.t) (confidence_threshold : Q) : list BoundingBox.t :=
  match cv2_candidates w image with
  | Ret bounding_boxes => remove_overlapping_boxes bounding_boxes (1 # 2)
  | Raise (ImportError _) => []
  | Raise _ => []
  end.

(** Lines 156-164: the window-shape test applied to one detection. *)
Definition window_like (image : Image.t) (d : Detection) : bool :=
  let width := det_width d in
  let height := det_height d in
  let aspect_ratio :=
    if height >? 0 then (inject_Z width / inject_Z height)%Q else 0%Q in
  let area := inject_Z (width * height) in
  let img_area := inject_Z (Image.width image * Image.height image) in
  (Qle_bool (3 # 10) aspect_ratio && Qle_bool aspect_ratio 3
   && negb (Qle_bool area (img_area * (5 # 1000)))
   && negb (Qle_bool (img_area * (9 # 10)) area))%bool.

(** Lines 139-171: the boxes built from the detections. *)
Fixpoint boxes_of_detections
  (image : Image.t) (windows_only : bool) (ds : list Detection) : list BoundingBox.t :=
  match ds with
  | [] => []
  | d :: ds' =>
      let rest := boxes_of_detections image windows_only ds' in
      if windows_only then
        if window_like image d then
          BoundingBox.Build (det_x d) (det_y d) (det_width d) (det_height d)
                            (Some "window") :: rest
        else rest
      else
        BoundingBox.Build (det_x d) (det_y d) (det_width d) (det_height d)
                          (Some (det_label d)) :: rest
  end.

(** Lines 130-180: the [try] block of [detect_objects] with its two
    handlers. *)
Definition model_detect
  (w : World) (image : Image.t) (confidence_threshold : Q) (windows_only : bool)
  : res (list BoundingBox.t) :=
  match yolo w image confidence_threshold with
  | Ret results => Ret (boxes_of_detections image windows_only results)
  | Raise (ImportError _) =>
      Raise (HTTPException 400
               "YOLO not installed. Install with: pip install ultralytics")
  | Raise e =>
      Raise (HTTPException 500
               (String.append "Object detection failed: " (str_exn e)))
  end.

(** Which detector a call of [detect_objects] runs. *)
Inductive Call : Type :=
| PrimitiveDetector
| ModelDetector (window_filter : bool).

(** [detect_objects], returning the detectors it ran, in order, next to
    its outcome. *)
Definition detect_objects
  (w : World) (image : Image.t) (confidence_threshold : Q) (windows_only : bool)
  : list Call * res (list BoundingBox.t) :=
  if windows_only then
    let bounding_boxes := detect_windows_advanced w image confidence_threshold in
    match bounding_boxes with
    | _ :: _ => ([PrimitiveDetector], Ret bounding_boxes)
    | [] =>
        ([PrimitiveDetector; ModelDetector windows_only],
         model_detect w image confidence_threshold windows_only)
    end
  else
    ([ModelDetector windows_only],
     model_detect w image confidence_threshold windows_only).

(* ================================================================= *)
(** ** [upload_to_cloud_storage] *)

Definition upload_to_cloud_storage
  (w : World) (img_bytes : string) (filename : string) : string :=
  match imgbb w img_bytes filename with
  | Some url => url
  | None =>
      match cloudinary w img_bytes filename with
      | Some url => url
      | None => String.append "data:image/jpeg;base64," (b64encode w img_bytes)
      end
  end.

(* ================================================================= *)
(** ** [process_single_image] *)

(** [enumerate(l)] *)
Fixpoint enumerate_from {A : Type} (start : Z) (l : list A) : list (Z * A) :=
  match l with
  | [] => []
  | a :: l' => (start, a) :: enumerate_from (start + 1) l'
  end.

Definition enumerate {A : Type} (l : list A) : list (Z * A) := enumerate_from 0 l.

(** Truthiness of an optional list: [None] and [[]] are false. *)
Definition truthy {A : Type} (o : option (list A)) : bool :=
  match o with
  | Some (_ :: _) => true
  | _ => false
  end.

Definition boxes_or_nil (o : option (list BoundingBox.t)) : list BoundingBox.t :=
  match o with
  | Some l => l
  | None => []
  end.

Definition sanitize_char (c : ascii) : ascii :=
  if (Str.isalnum c || Ascii.eqb c "-" || Ascii.eqb c "_")%bool then c else "_"%char.

(** Line 386: [bbox.label or f"crop_{idx+1}"] *)
Definition initial_label (bbox : BoundingBox.t) (idx : Z) : string :=
  match BoundingBox.label bbox with
  | Some s => if Str.nonempty s then s
              else String.append "crop_" (Str.of_int (idx + 1))
  | None => String.append "crop_" (Str.of_int (idx + 1))
  end.

(** Lines 394-397. *)
Definition make_filename (image_index idx : Z) (safe_label : string) : string :=
  if image_index >? 0 then
    String.append "img" (String.append (Str.of_int (image_index + 1))
      (String.append "_" (String.append (Str.format_03d (idx + 1))
        (String.append "_" (String.append safe_label ".jpg")))))
  else
    String.append (Str.format_03d (idx + 1))
      (String.append "_" (String.append safe_label ".jpg")).

Definition crop_error (idx image_index : Z) (e : exn) : string :=
  String.append "Failed to crop box " (String.append (Str.of_int (idx + 1))
    (String.append " from image " (String.append (Str.of_int (image_index + 1))
      (String.append ": " (str_exn e))))).

(** The locals the crop loop updates. *)
Record LoopState : Type := {
  window_count : Z;
  ls_saved : list SavedFile;
  ls_errors : list string
}.

Section CropLoop.
Variable w : World.
Variable request : CropRequest.
Variable image_url_ : string.
Variable job_dir : string.
Variable image_index : Z.
Variable image : Image.t.

(** Lines 382-438: one iteration of [for idx, bbox in enumerate(...)].
    The local backup copy (lines 409-417) swallows its own failures and
    leaves no trace in the result. *)
Definition crop_step (st : LoopState) (entry : Z * BoundingBox.t) : LoopState :=
  let '(idx, bbox) := entry in
  match crop_bounding_box w image bbox with
  | Raise e =>
      {| window_count := window_count st;
         ls_saved := ls_saved st;
         ls_errors := ls_errors st ++ [crop_error idx image_index e] |}
  | Ret cropped =>
      let label := initial_label bbox idx in
      let windowed :=
        (Str.contains "window" (Str.lower label) || detect_windows_only request)%bool in
      let window_count' :=
        if windowed then window_count st + 1 else window_count st in
      let label :=
        if windowed then String.append "window_" (Str.of_int window_count')
        else label in
      let safe_label := Str.map_chars sanitize_char label in
      let filename := make_filename image_index idx safe_label in
      let out_path := String.append job_dir (String.append "/" filename) in
      match jpeg w cropped with
      | Raise e =>
          {| window_count := window_count';
             ls_saved := ls_saved st;
             ls_errors := ls_errors st ++ [crop_error idx image_index e] |}
      | Ret img_bytes =>
          let image_url_result := upload_to_cloud_storage w img_bytes filename in
          {| window_count := window_count';
             ls_saved := ls_saved st ++
               [ {| sf_url := image_url_result;
                    sf_path := out_path;
                    sf_filename := filename;
                    sf_label := label;
                    sf_source_image := image_url_;
                    sf_image_index := image_index + 1;
                    sf_dimensions := (Image.width cropped, Image.height cropped);
                    sf_bbox := (BoundingBox.x bbox, BoundingBox.y bbox,
                                BoundingBox.width bbox, BoundingBox.height bbox) |} ];
             ls_errors := ls_errors st |}
      end
  end.

Definition crop_loop (errors : list string) (bounding_boxes : list BoundingBox.t)
  : LoopState :=
  fold_left crop_step (enumerate bounding_boxes)
    {| window_count := 0; ls_saved := []; ls_errors := errors |}.
End CropLoop.

(** What the detection block (lines 357-373) leaves behind when it does
    not raise: an early [return saved_files, errors], or the boxes and
    errors the rest of the body goes on with. *)
Inductive Flow : Type :=
| Return (saved : list SavedFile) (errors : list string)
| Continue (bounding_boxes : option (list BoundingBox.t)) (errors : list string).

Section ProcessSingleImage.
(** Python looks the names [download_image] and [detect_objects] up in
    the module at call time; the body below is written over whatever
    they are bound to, and [process_single_image] further down is this
    body at the module's own two functions. *)
Variable download : string -> res Image.t.
Variable detect : Image.t -> Q -> bool -> res (list BoundingBox.t).
Variable w : World.

Definition index_str (image_index : Z) : string := Str.of_int (image_index + 1).

Definition download_error (image_index : Z) (image_url : string) (e : exn) : string :=
  String.append "Failed to download image " (String.append (index_str image_index)
    (String.append " (" (String.append image_url
      (String.append "): " (str_exn e))))).

Definition no_objects_error (request : CropRequest) (image_index : Z) : string :=
  String.append "No objects detected in image " (String.append (index_str image_index)
    (if detect_windows_only request then " (no windows found)" else "")).

Definition detection_error (image_index : Z) (e : exn) : string :=
  String.append "Detection failed for image " (String.append (index_str image_index)
    (String.append ": " (str_exn e))).

Definition no_boxes_error (image_index : Z) : string :=
  String.append "No bounding boxes provided for image "
    (String.append (index_str image_index) " and detection not enabled").

(** Lines 355-373. *)
Definition resolve_boxes
  (request : CropRequest) (image_index : Z) (image : Image.t) : res Flow :=
  let supplied := bounding_boxes request in
  if use_detection request then
    match detect image (confidence_threshold request) (detect_windows_only request) with
    | Ret detected =>
        match detected with
        | [] => Ret (Return [] [no_objects_error request image_index])
        | _ :: _ => Ret (Continue (Some detected) [])
        end
    | Raise (HTTPException s d) => Raise (HTTPException s d)
    | Raise e =>
        let errors := [detection_error image_index e] in
        if negb (truthy (bounding_boxes request)) then Ret (Return [] errors)
        else Ret (Continue (bounding_boxes request) errors)
    end
  else Ret (Continue supplied []).

Definition process_single_image_body
  (image_url : string) (request : CropRequest) (job_dir : string) (image_index : Z)
  : res (list SavedFile * list string) :=
  match download image_url with
  | Raise (HTTPException s d) => Raise (HTTPException s d)
  | Raise e => Ret ([], [download_error image_index image_url e])
  | Ret image =>
      match resolve_boxes request image_index image with
      | Raise e => Raise e
      | Ret (Return saved_files errors) => Ret (saved_files, errors)
      | Ret (Continue bounding_boxes errors) =>
          if negb (truthy bounding_boxes) then
            Ret ([], errors ++ [no_boxes_error image_index])
          else
            let st := crop_loop w request image_url job_dir image_index image
                                errors (boxes_or_nil bounding_boxes) in
            Ret (ls_saved st, ls_errors st)
      end
  end.
End ProcessSingleImage.

Definition process_single_image
  (w : World) (image_url : string) (request : CropRequest)
  (job_dir : string) (image_index : Z) : res (list SavedFile * list string) :=
  process_single_image_body
    (download_image w)
    (fun image confidence_threshold windows_only =>
       snd (detect_objects w image confidence_threshold windows_only))
    w image_url request job_dir image_index.

(* ================================================================= *)
(** ** [crop_image] *)

Definition get_image_urls (request : CropRequest) : res (list string) :=
  match image_urls request with
  | Some (u :: us) => Ret (u :: us)
  | _ =>
      match image_url request with
      | Some u => Ret [u]
      | None => Raise (ValueError "Either image_url or image_urls must be provided")
      end
  end.

Definition process_error (idx : Z) (image_url : string) (e : exn) : string :=
  String.append "Failed to process image " (String.append (Str.of_int (idx + 1))
    (String.append " (" (String.append image_url
      (String.append "): " (str_exn e))))).

Section JobLoop.
Variable process : string -> CropRequest -> string -> Z -> res (list SavedFile * list string).
Variable request : CropRequest.
Variable job_dir : string.

(** Lines 475-483: the loop over [enumerate(image_urls)]; an
    [HTTPException] leaves the loop and the function, any other
    exception becomes one more error string. *)
Fixpoint job_loop (entries : list (Z * string))
  (all_saved_files : list SavedFile) (all_errors : list string)
  : res (list SavedFile * list string) :=
  match entries with
  | [] => Ret (all_saved_files, all_errors)
  | (idx, image_url) :: rest =>
      match process image_url request job_dir idx with
      | Ret (saved_files, errors) =>
          job_loop rest (all_saved_files ++ saved_files) (all_errors ++ errors)
      | Raise (HTTPException s d) => Raise (HTTPException s d)
      | Raise e =>
          job_loop rest all_saved_files (all_errors ++ [process_error idx image_url e])
      end
  end.
End JobLoop.

(** Lines 466-468: [OUTPUT_DIR / f"{ts}_{job_id}"]. *)
Definition job_dir_of (w : World) : string :=
  let job_id := uuid4_hex w in
  let ts := utcnow w in
  String.append (OUTPUT_DIR w)
    (String.append "/" (String.append ts (String.append "_" job_id))).

(** [crop_image].  The cleanup of the output directory (lines 454-464)
    swallows its own failures and leaves no trace in the response; a
    failure of [job_dir.mkdir] is not caught and leaves the function. *)
Definition crop_image (w : World) (request : CropRequest) : res JobReport :=
  match get_image_urls request with
  | Raise (ValueError m) => Raise (HTTPException 400 m)
  | Raise e => Raise e
  | Ret image_urls =>
      let job_id := uuid4_hex w in
      let job_dir := job_dir_of w in
      match mkdir w job_dir with
      | Raise e => Raise e
      | Ret _ =>
      match job_loop (process_single_image w) request job_dir (enumerate image_urls) [] [] with
      | Raise e => Raise e
      | Ret (all_saved_files, all_errors) =>
          Ret {| status := "success";
                 job_id := job_id;
                 output_dir := job_dir;
                 images_processed := Z.of_nat (List.length image_urls);
                 saved_count := Z.of_nat (List.length all_saved_files);
                 saved_files := all_saved_files;
                 errors := all_errors |}
      end
      end
  end.

(* ================================================================= *)
(** ** Vocabulary of the statements *)

(** [f] is the artifact the crop loop appends for the box [bbox] at
    position [idx] of the image [image] of the job's image
    [image_index]. *)
Definition made_from
  (w : World) (image_url : string) (image_index : Z) (image : Image.t)
  (f : SavedFile) (idx : Z) (bbox : BoundingBox.t) : Prop :=
  exists (cropped : Image.t) (safe_label : string),
    crop_bounding_box w image bbox = Ret cropped /\
    sf_bbox f = box_fields bbox /\
    sf_dimensions f = (Image.width cropped, Image.height cropped) /\
    sf_source_image f = image_url /\
    sf_image_index f = image_index + 1 /\
    sf_filename f = make_filename image_index idx safe_label.


(** An error string written by the handler at lines 369-370. *)
Definition detection_tagged (e : string) : bool :=
  String.prefix "Detection failed for image " e.

(** An error string that reports a failed download. *)
Definition download_tagged (e : string) : bool :=
  String.prefix "Failed to download image " e.

(* ================================================================= *)
(** ** Concrete worlds and requests used by the examples *)

Module Fixture.

Definition blank (width height : Z) : Image.t :=
  Image.Build width height (fun _ _ => 0).

(** A world in which every URL but ["http://h/bad.jpg"] decodes to a
    blank 100x100 image, both remote stores are unconfigured, and the
    detection libraries behave as given. *)
Definition world
  (cv2 : Image.t -> res (list BoundingBox.t))
  (model : Image.t -> Q -> res (list Detection)) : World :=
  {| fetch := fun url =>
       if String.eqb url "http://h/bad.jpg"
       then Raise (OtherException "connection refused")
       else Ret (blank 100 100);
     cv2_candidates := cv2;
     yolo := model;
     jpeg := fun _ => Ret "JFIF";
     imgbb := fun _ _ => None;
     cloudinary := fun _ _ => None;
     b64encode := fun s => s;
     str_bbox := fun _ => "x=? y=? width=? height=? label=?";
     mkdir := fun _ => Ret tt;
     OUTPUT_DIR := "/srv/cropped_images";
     uuid4_hex := "0f3c";
     utcnow := "20240101_000000" |}.

Definition no_cv2 : Image.t -> res (list BoundingBox.t) :=
  fun _ => Raise (ImportError "No module named 'cv2'").

Definition no_yolo : Image.t -> Q -> res (list Detection) :=
  fun _ _ => Raise (ImportError "No module named 'ultralytics'").

(** No detection library is installed. *)
Definition bare : World := world no_cv2 no_yolo.

Definition box (x y width height : Z) : BoundingBox.t :=
  BoundingBox.Build x y width height None.

Definition request
  (urls : list string) (boxes : option (list BoundingBox.t))
  (detect windows : bool) : CropRequest :=
  {| image_url := None;
     image_urls := Some urls;
     bounding_boxes := boxes;
     use_detection := detect;
     detect_windows_only := windows;
     confidence_threshold := 1 # 2;
     clear_previous := true |}.

Definition url_a : string := "http://h/a.jpg".
Definition url_b : string := "http://h/b.jpg".
Definition url_bad : string := "http://h/bad.jpg".

(** One image, one supplied box that sticks out of the image at the
    top-left corner. *)
Definition edge_request : CropRequest :=
  request [url_a] (Some [box (-5) (-5) 20 20]) false false.

(** The artifact [process_single_image] builds for [edge_request]. *)
Definition edge_artifact : SavedFile :=
  {| sf_url := "data:image/jpeg;base64,JFIF";
     sf_path := "/job/001_crop_1.jpg";
     sf_filename := "001_crop_1.jpg";
     sf_label := "crop_1";
     sf_source_image := url_a;
     sf_image_index := 1;
     sf_dimensions := (20, 20);
     sf_bbox := (-5, -5, 20, 20) |}.

(** Two images, the second of which cannot be downloaded, one supplied
    box. *)
Definition mixed_request : CropRequest :=
  request [url_a; url_bad] (Some [box 10 10 50 50]) false false.

(** Two images, one shared supplied box, no detection. *)
Definition shared_box_request : CropRequest :=
  request [url_a; url_b] (Some [box 10 10 50 50]) false false.

(** Two images, detection requested, no supplied boxes. *)
Definition detect_request (windows : bool) : CropRequest :=
  request [url_a; url_b] None true windows.


End Fixture.

(* ================================================================= *)
(** ** The gateway function: [src/api/crop-image.py] *)

Module Gateway.

(** A value as [json.loads] builds it. *)
#[warnings="-register-all"]
Inductive JSON : Type :=
| JNull
| JBool (b : bool)
| JInt (n : Z)
| JFloat (q : Q)
| JStr (s : string)
| JList (l : list JSON)
| JDict (d : list (string * JSON)).

(** [req.body]: a [str], a [bytes] object or nothing. *)
Inductive Body : Type :=
| BodyStr (s : string)
| BodyBytes (b : string)
| BodyNone.

Record Request : Type := {
  method : string;
  body : Body
}.

Record Response : Type := {
  statusCode : Z;
  headers : list (string * string);
  response_body : string
}.

(** The [json=] argument of [requests.post] at lines 40-46. *)
Record Payload : Type := {
  p_image_url : JSON;
  p_use_detection : JSON;
  p_detect_windows_only : JSON;
  p_confidence_threshold : JSON;
  p_clear_previous : JSON
}.

(** The collaborators of [handler]. *)
Record Env : Type := {
  json_loads : string -> res JSON;
  (** [body.decode('utf-8')] *)
  decode_utf8 : string -> res string;
  (** [json.dumps({"error": s})] *)
  dumps_error : string -> string;
  (** [requests.post(url, json=payload, timeout=60)]: the status code and
      the text of the response *)
  post : string -> Payload -> res (Z * string);
  PYTHON_API_URL : string
}.

(** [d.get(key)] on the pairs of a dictionary. *)
Fixpoint lookup (key : string) (d : list (string * JSON)) : option JSON :=
  match d with
  | [] => None
  | (k, v) :: d' => if String.eqb k key then Some v else lookup key d'
  end.

(** [type(data).__name__] *)
Definition type_name (data : JSON) : string :=
  match data with
  | JNull => "NoneType"
  | JBool _ => "bool"
  | JInt _ => "int"
  | JFloat _ => "float"
  | JStr _ => "str"
  | JList _ => "list"
  | JDict _ => "dict"
  end.

(** [key in data] *)
Definition contains_key (key : string) (data : JSON) : res bool :=
  match data with
  | JDict d => Ret (match lookup key d with Some _ => true | None => false end)
  | JList l =>
      Ret (existsb (fun j => match j with JStr s => String.eqb s key | _ => false end) l)
  | JStr s => Ret (Str.contains key s)
  | JNull | JBool _ | JInt _ | JFloat _ =>
      Raise (OtherException
               (String.append "argument of type '"
                  (String.append (type_name data) "' is not iterable")))
  end.

(** [data[key]] for a [str] key *)
Definition subscript (data : JSON) (key : string) : res JSON :=
  match data with
  | JDict d =>
      match lookup key d with
      | Some v => Ret v
      | None => Raise (OtherException (String.append "'" (String.append key "'")))
      end
  | JList _ => Raise (OtherException "list indices must be integers or slices, not str")
  | JStr _ => Raise (OtherException "string indices must be integers, not 'str'")
  | JNull | JBool _ | JInt _ | JFloat _ =>
      Raise (OtherException
               (String.append "'"
                  (String.append (type_name data) "' object is not subscriptable")))
  end.

(** [data.get(key, default)] *)
Definition get (data : JSON) (key : string) (default : JSON) : res JSON :=
  match data with
  | JDict d =>
      match lookup key d with
      | Some v => Ret v
      | None => Ret default
      end
  | _ =>
      Raise (OtherException
               (String.append "'"
                  (String.append (type_name data) "' object has no attribute 'get'")))
  end.

(** Lines 40-46: the dictionary literal, its values evaluated in order. *)
Definition build_payload (data : JSON) : res Payload :=
  match subscript data "image_url" with
  | Raise e => Raise e
  | Ret image_url =>
  match get data "use_detection" (JBool true) with
  | Raise e => Raise e
  | Ret use_detection =>
  match get data "detect_windows_only" (JBool true) with
  | Raise e => Raise e
  | Ret detect_windows_only =>
  match get data "confidence_threshold" (JFloat (3 # 10)) with
  | Raise e => Raise e
  | Ret confidence_threshold =>
  match get data "clear_previous" (JBool true) with
  | Raise e => Raise e
  | Ret clear_previous =>
      Ret {| p_image_url := image_url;
             p_use_detection := use_detection;
             p_detect_windows_only := detect_windows_only;
             p_confidence_threshold := confidence_threshold;
             p_clear_previous := clear_previous |}
  end end end end end.

Definition preflight_headers : list (string * string) :=
  [("Access-Control-Allow-Origin", "*");
   ("Access-Control-Allow-Methods", "POST, OPTIONS");
   ("Access-Control-Allow-Headers", "Content-Type")].

Definition json_headers : list (string * string) :=
  [("Content-Type", "application/json");
   ("Access-Control-Allow-Origin", "*")].

(** Lines 58-63: the handler of the outer [try]. *)
Definition server_error (env : Env) (e : exn) : Response :=
  {| statusCode := 500;
     headers := json_headers;
     response_body := dumps_error env (str_exn e) |}.

(** Lines 22-28. *)
Definition parse_body (env : Env) (body : Body) : res JSON :=
  match body with
  | BodyStr s => json_loads env s
  | BodyBytes b =>
      if Str.nonempty b then
        match decode_utf8 env b with
        | Ret s => json_loads env s
        | Raise e => Raise e
        end
      else Ret (JDict [])
  | BodyNone => Ret (JDict [])
  end.

(** [handler], returning the payloads it posted to the API next to its
    response. *)
Definition handler (env : Env) (req : Request) : list Payload * Response :=
  if String.eqb (method req) "OPTIONS" then
    ([], {| statusCode := 200; headers := preflight_headers; response_body := "" |})
  else
    match parse_body env (body req) with
    | Raise e => ([], server_error env e)
    | Ret data =>
        match contains_key "image_url" data with
        | Raise e => ([], server_error env e)
        | Ret false =>
            ([], {| statusCode := 400;
                    headers := json_headers;
                    response_body := dumps_error env "image_url is required" |})
        | Ret true =>
            match build_payload data with
            | Raise e => ([], server_error env e)
            | Ret payload =>
                match post env (String.append (PYTHON_API_URL env) "/crop-image") payload with
                | Raise e => ([payload], server_error env e)
                | Ret (status_code, text) =>
                    ([payload],
                     {| statusCode := status_code;
                        headers := json_headers;
                        response_body := text |})
                end
            end
        end
    end.

(** The keys of the body that [handler] reads. *)
Definition forwarded_keys : list string :=
  ["image_url"; "use_detection"; "detect_windows_only";
   "confidence_threshold"; "clear_previous"].

End Gateway.

(* ================================================================= *)
(** ** More vocabulary of the statements *)

(** The characters a file name is built from. *)
Definition safe_char (c : ascii) : bool :=
  (Str.isalnum c || Ascii.eqb c "-" || Ascii.eqb c "_" || Ascii.eqb c ".")%bool.

Fixpoint all_chars (p : ascii -> bool) (s : string) : bool :=
  match s with
  | EmptyString => true
  | String c s' => (p c && all_chars p s')%bool
  end.

Definition is_digit (c : ascii) : bool := Str.between "0" "9" c.

(** The number a string of decimal digits stands for, leading zeros
    allowed. *)
Definition decode_digits (s : string) : option Z :=
  option_map Z.of_uint (NilEmpty.uint_of_string s).

(** No two artifacts of the list share a file name. *)
Definition distinct_filenames (l : list SavedFile) : Prop :=
  ForallOrdPairs (fun f g => sf_filename f <> sf_filename g) l.

(** Line 392: the sanitised label. *)
Definition sanitize (label : string) : string := Str.map_chars sanitize_char label.

(** The request with another list of supplied boxes. *)
Definition with_boxes (request : CropRequest) (boxes : option (list BoundingBox.t))
  : CropRequest :=
  {| image_url := image_url request;
     image_urls := image_urls request;
     bounding_boxes := boxes;
     use_detection := use_detection request;
     detect_windows_only := detect_windows_only request;
     confidence_threshold := confidence_threshold request;
     clear_previous := clear_previous request |}.

(** ["window_1", ..., "window_n"], from ["window_<first>"] on. *)
Fixpoint window_labels (first : Z) (n : nat) : list string :=
  match n with
  | O => []
  | S k => String.append "window_" (Str.of_int first) :: window_labels (first + 1) k
  end.

(** The box a detection becomes when no filter applies. *)
Definition native_box (d : Detection) : BoundingBox.t :=
  BoundingBox.Build (det_x d) (det_y d) (det_width d) (det_height d)
                    (Some (det_label d)).

(** Lines 386-389: the label the loop gives a crop when [n] windows were
    counted so far. *)
Definition loop_label (request : CropRequest) (n : Z) (idx : Z) (bbox : BoundingBox.t)
  : string :=
  if (Str.contains "window" (Str.lower (initial_label bbox idx))
      || detect_windows_only request)%bool
  then String.append "window_" (Str.of_int (n + 1))
  else initial_label bbox idx.

(** The record the crop loop appends for a crop [cropped] of [bbox] at
    position [idx], under the label [label] and with the encoded bytes
    [img_bytes]. *)
Definition artifact
  (w : World) (image_url job_dir : string) (image_index idx : Z)
  (bbox : BoundingBox.t) (cropped : Image.t) (img_bytes label : string) : SavedFile :=
  let filename := make_filename image_index idx (sanitize label) in
  {| sf_url := upload_to_cloud_storage w img_bytes filename;
     sf_path := String.append job_dir (String.append "/" filename);
     sf_filename := filename;
     sf_label := label;
     sf_source_image := image_url;
     sf_image_index := image_index + 1;
     sf_dimensions := (Image.width cropped, Image.height cropped);
     sf_bbox := box_fields bbox |}.

(** [results] holds, entry by entry, what [process_single_image] returns
    for the images of a job. *)
Definition results_of
  (w : World) (request : CropRequest) (job_dir : string)
  (entries : list (Z * string)) (results : list (list SavedFile * list string)) : Prop :=
  Forall2 (fun entry r =>
             process_single_image w (snd entry) request job_dir (fst entry) = Ret r)
          entries results.

(** The no-boxes errors of the images [first], [first + 1], ... *)
Fixpoint no_boxes_errors (first : Z) (n : nat) : list string :=
  match n with
  | O => []
  | S k => no_boxes_error first :: no_boxes_errors (first + 1) k
  end.

Module DetectorFixture.

(** Two detections of the model on a 100x100 image: one of window shape,
    one far too flat. *)
Definition detections : list Detection :=
  [ {| det_x := 10; det_y := 10; det_width := 40; det_height := 30;
       det_label := "tv" |};
    {| det_x := 0; det_y := 0; det_width := 100; det_height := 2;
       det_label := "bench" |} ].

(** OpenCV is missing, the model is installed and returns [detections]. *)
Definition model_only : World :=
  Fixture.world Fixture.no_cv2 (fun _ _ => Ret detections).

(** OpenCV finds two overlapping candidates and one apart; the model is
    not installed. *)
Definition cv2_only : World :=
  Fixture.world
    (fun _ => Ret [BoundingBox.Build 1 1 10 10 (Some "window");
                   BoundingBox.Build 50 50 5 5 (Some "window");
                   BoundingBox.Build 0 0 10 11 (Some "window")])
    Fixture.no_yolo.


(** A world in which the JPEG encoder fails on every image. *)
Definition no_encoder : World :=
  {| fetch := fetch Fixture.bare;
     cv2_candidates := cv2_candidates Fixture.bare;
     yolo := yolo Fixture.bare;
     jpeg := fun _ => Raise (OtherException "encoder error");
     imgbb := imgbb Fixture.bare;
     cloudinary := cloudinary Fixture.bare;
     b64encode := b64encode Fixture.bare;
     str_bbox := str_bbox Fixture.bare;
     mkdir := mkdir Fixture.bare;
     OUTPUT_DIR := OUTPUT_DIR Fixture.bare;
     uuid4_hex := uuid4_hex Fixture.bare;
     utcnow := utcnow Fixture.bare |}.

(** One image, three supplied boxes of which the second lies outside the
    image. *)
Definition three_box_request : CropRequest :=
  Fixture.request [Fixture.url_a]
    (Some [Fixture.box 10 10 50 50; Fixture.box 200 200 5 5; Fixture.box 0 0 20 20])
    false false.

(** Two images, no boxes, no detection. *)
Definition empty_request : CropRequest :=
  Fixture.request [Fixture.url_a; Fixture.url_b] None false false.

(** Detection in windows-only mode over one image. *)
Definition windows_request : CropRequest :=
  Fixture.request [Fixture.url_a] (Some [Fixture.box 0 0 5 5]) true true.

(** A request with no image at all. *)
Definition no_url_request : CropRequest :=
  {| image_url := None;
     image_urls := Some [];
     bounding_boxes := None;
     use_detection := false;
     detect_windows_only := false;
     confidence_threshold := 1 # 2;
     clear_previous := true |}.

(** The artifact and the report [crop_image] builds for
    [Fixture.edge_request] in the world [Fixture.bare]. *)
Definition edge_job_artifact : SavedFile :=
  {| sf_url := "data:image/jpeg;base64,JFIF";
     sf_path := "/srv/cropped_images/20240101_000000_0f3c/001_crop_1.jpg";
     sf_filename := "001_crop_1.jpg";
     sf_label := "crop_1";
     sf_source_image := Fixture.url_a;
     sf_image_index := 1;
     sf_dimensions := (20, 20);
     sf_bbox := (-5, -5, 20, 20) |}.

Definition edge_report : JobReport :=
  {| status := "success";
     job_id := "0f3c";
     output_dir := "/srv/cropped_images/20240101_000000_0f3c";
     images_processed := 1;
     saved_count := 1;
     saved_files := [edge_job_artifact];
     errors := [] |}.

End DetectorFixture.

Module GatewayFixture.

(** Two bodies that name one image, the first with a list of boxes
    beside it, as the fixture's parser knows them. *)
Definition body_with_url : string := "{image_url: http://h/a.jpg, bounding_boxes: []}".

Definition body_url_only : string := "{image_url: http://h/a.jpg}".

(** An API that answers every post with status 200 and a fixed text, and
    a parser that knows three bodies. *)
Definition env : Gateway.Env :=
  {| Gateway.json_loads := fun s =>
       if String.eqb s body_with_url then
         Ret (Gateway.JDict [("image_url", Gateway.JStr "http://h/a.jpg");
                             ("bounding_boxes", Gateway.JList [])])
       else if String.eqb s body_url_only then
         Ret (Gateway.JDict [("image_url", Gateway.JStr "http://h/a.jpg")])
       else if String.eqb s "{}" then Ret (Gateway.JDict [])
       else Raise (OtherException "Expecting value: line 1 column 1 (char 0)");
     Gateway.decode_utf8 := fun b => Ret b;
     Gateway.dumps_error := fun s => String.append "{error: " (String.append s "}");
     Gateway.post := fun _ _ => Ret (200, "{status: success}");
     Gateway.PYTHON_API_URL := "https://api.example" |}.

(** The same environment with a parser that reads every body as the
    list [["image_url"]]. *)
Definition list_env : Gateway.Env :=
  {| Gateway.json_loads := fun _ => Ret (Gateway.JList [Gateway.JStr "image_url"]);
     Gateway.decode_utf8 := Gateway.decode_utf8 env;
     Gateway.dumps_error := Gateway.dumps_error env;
     Gateway.post := Gateway.post env;
     Gateway.PYTHON_API_URL := Gateway.PYTHON_API_URL env |}.

Definition list_request : Gateway.Request :=
  {| Gateway.method := "POST"; Gateway.body := Gateway.BodyStr "[image_url]" |}.

End GatewayFixture.

(* ================================================================= *)
(** * Properties *)

Unset Implicit Arguments.

(* ================================================================= *)
(** ** Geometry *)

Lemma clamp_fields (image : Image.t) (bbox : BoundingBox.t) :
  clamp image bbox =
  (Z.max 0 (BoundingBox.x bbox),
   Z.max 0 (BoundingBox.y bbox),
   Z.min (BoundingBox.width bbox) (Image.width image - Z.max 0 (BoundingBox.x bbox)),
   Z.min (BoundingBox.height bbox) (Image.height image - Z.max 0 (BoundingBox.y bbox))).
Proof. reflexivity. Qed.

Lemma crop_bounding_box_cases (w : World) (image : Image.t) (bbox : BoundingBox.t) :
  let '(x, y, width, height) := clamp image bbox in
  (0 < width /\ 0 < height /\
   crop_bounding_box w image bbox = Ret (Image.crop image (x, y, x + width, y + height)))
  \/
  ((width <= 0 \/ height <= 0) /\
   crop_bounding_box w image bbox =
   Raise (HTTPException 400 (String.append "Invalid bounding box: " (str_bbox w bbox)))).
Proof.
  unfold crop_bounding_box.
  destruct (clamp image bbox) as [[[x y] width] height].
  destruct (width <=? 0) eqn:Hw; [right; split; [left; lia | reflexivity] |].
  destruct (height <=? 0) eqn:Hh; [right; split; [right; lia | reflexivity] |].
  left. repeat split; lia.
Qed.

(** A crop that succeeds lies inside the image. *)
Lemma crop_inside_image (w : World) (image : Image.t) (bbox : BoundingBox.t) (cropped : Image.t) :
  crop_bounding_box w image bbox = Ret cropped ->
  let '(x, y, width, height) := clamp image bbox in
  0 <= x /\ 0 <= y /\ 0 < width /\ 0 < height /\
  x + width <= Image.width image /\ y + height <= Image.height image /\
  Image.width cropped = width /\ Image.height cropped = height.
Proof.
  intros H.
  pose proof (crop_bounding_box_cases w image bbox) as C.
  pose proof (clamp_fields image bbox) as F.
  destruct (clamp image bbox) as [[[x y] width] height].
  injection F as -> -> Hw Hh.
  destruct C as [(Pw & Ph & E) | (_ & E)]; rewrite E in H; [| discriminate].
  injection H as <-. simpl.
  repeat split; lia.
Qed.

(** C4, as the code computes it: the box [{x:-5, y:-5, width:20,
    height:20}] against a 100x100 image is clamped to [{x:0, y:0,
    width:20, height:20}]: the origin moves to 0 and the extent, which
    already fits in the image, is kept. *)
Theorem clamp_scenario_keeps_extent :
  forall (pixel : Z -> Z -> Z) (label : option string),
    clamp (Image.Build 100 100 pixel) (BoundingBox.Build (-5) (-5) 20 20 label)
    = (0, 0, 20, 20).
Proof. intros. reflexivity. Qed.

(** C4, as the spec words it, fails: the clamped box is not
    [{x:0, y:0, width:15, height:15}]. *)
Lemma clamp_scenario_is_not_15 :
  clamp (Fixture.blank 100 100) (Fixture.box (-5) (-5) 20 20) <> (0, 0, 15, 15).
Proof. vm_compute. discriminate. Qed.

(** C8: the clamp computes [x = max(0, x)], [y = max(0, y)],
    [width = min(width, image_width - x)], [height = min(height,
    image_height - y)]; [crop_bounding_box] raises exactly when the
    resulting width or height is at most 0, and otherwise returns the crop
    at the clamped rectangle [(x, y, x + width, y + height)]. *)
Theorem crop_bounding_box_clamps_then_crops :
  forall (w : World) (image : Image.t) (bbox : BoundingBox.t),
    let x := Z.max 0 (BoundingBox.x bbox) in
    let y := Z.max 0 (BoundingBox.y bbox) in
    let width := Z.min (BoundingBox.width bbox) (Image.width image - x) in
    let height := Z.min (BoundingBox.height bbox) (Image.height image - y) in
    clamp image bbox = (x, y, width, height) /\
    (returns (crop_bounding_box w image bbox) = false <-> (width <= 0 \/ height <= 0)) /\
    (returns (crop_bounding_box w image bbox) = false <->
     crop_bounding_box w image bbox =
     Raise (HTTPException 400 (String.append "Invalid bounding box: " (str_bbox w bbox)))) /\
    (returns (crop_bounding_box w image bbox) = true <->
     crop_bounding_box w image bbox =
     Ret (Image.crop image (x, y, x + width, y + height))).
Proof.
  intros w image bbox x y width height.
  pose proof (crop_bounding_box_cases w image bbox) as C.
  rewrite clamp_fields in C. fold x y width height in C.
  split; [reflexivity |].
  destruct C as [(Pw & Ph & E) | (Hbad & E)]; rewrite E; simpl.
  - repeat split; intros; try discriminate; try reflexivity; lia.
  - repeat split; intros; try discriminate; try reflexivity; try assumption.
Qed.

(** C9: clamping is idempotent.  Whenever [crop_bounding_box] accepts a
    box, clamping the clamped box again gives the identical box, and
    cropping it gives the identical crop. *)
Theorem clamp_idempotent :
  forall (w : World) (image : Image.t) (bbox : BoundingBox.t) (cropped : Image.t),
    crop_bounding_box w image bbox = Ret cropped ->
    clamped_box image (clamped_box image bbox) = clamped_box image bbox /\
    clamp image (clamped_box image bbox) = clamp image bbox /\
    crop_bounding_box w image (clamped_box image bbox) = Ret cropped.
Proof.
  intros w image bbox cropped H.
  assert (Hc : clamp image (clamped_box image bbox) = clamp image bbox).
  { unfold clamped_box. rewrite !clamp_fields. simpl.
    f_equal; [f_equal; [f_equal |] |]; lia. }
  split; [| split; [exact Hc |]].
  - unfold clamped_box at 1. rewrite Hc.
    unfold clamped_box. rewrite clamp_fields. reflexivity.
  - pose proof (crop_bounding_box_cases w image bbox) as C.
    pose proof (crop_bounding_box_cases w image (clamped_box image bbox)) as C'.
    rewrite Hc in C'.
    destruct (clamp image bbox) as [[[x y] width] height].
    destruct C as [(Pw & Ph & E) | (_ & E)]; rewrite E in H; [| discriminate].
    destruct C' as [(_ & _ & E') | (Hbad & _)]; [| lia].
    rewrite E'. exact H.
Qed.

Lemma clamp_idempotent_witness :
  clamped_box (Fixture.blank 100 100)
    (clamped_box (Fixture.blank 100 100) (Fixture.box (-5) (-5) 20 20))
  = clamped_box (Fixture.blank 100 100) (Fixture.box (-5) (-5) 20 20) /\
  clamp (Fixture.blank 100 100)
    (clamped_box (Fixture.blank 100 100) (Fixture.box (-5) (-5) 20 20))
  = clamp (Fixture.blank 100 100) (Fixture.box (-5) (-5) 20 20) /\
  crop_bounding_box Fixture.bare (Fixture.blank 100 100)
    (clamped_box (Fixture.blank 100 100) (Fixture.box (-5) (-5) 20 20))
  = Ret (Image.crop (Fixture.blank 100 100) (0, 0, 20, 20)).
Proof.
  apply (clamp_idempotent Fixture.bare (Fixture.blank 100 100)
           (Fixture.box (-5) (-5) 20 20)).
  reflexivity.
Defined.

(* ================================================================= *)
(** ** Overlap suppressor *)

Section OrderedPairs.
Variable A : Type.
Variable R : A -> A -> Prop.

Lemma FOP_app (l1 l2 : list A) :
  ForallOrdPairs R (l1 ++ l2) <->
  ForallOrdPairs R l1 /\ ForallOrdPairs R l2 /\
  (forall a b, In a l1 -> In b l2 -> R a b).
Proof.
  induction l1 as [| c l1 IH]; simpl.
  - split.
    + intros H. repeat split; [constructor | exact H | intros a b []].
    + intros (_ & H & _). exact H.
  - split.
    + intros H. inversion H as [| ? ? Hc Hrest]; subst.
      apply IH in Hrest. destruct Hrest as (H1 & H2 & H12).
      rewrite Forall_app in Hc. destruct Hc as [Hc1 Hc2].
      repeat split.
      * constructor; assumption.
      * assumption.
      * intros a b [<- | Ha] Hb.
        -- rewrite Forall_forall in Hc2. apply Hc2, Hb.
        -- apply H12; assumption.
    + intros (H1 & H2 & H12).
      inversion H1 as [| ? ? Hc Hrest]; subst.
      constructor.
      * rewrite Forall_app. split; [assumption |].
        rewrite Forall_forall. intros b Hb. apply H12; [left; reflexivity | exact Hb].
      * apply IH. repeat split; [assumption | assumption |].
        intros a b Ha Hb. apply H12; [right; exact Ha | exact Hb].
Qed.

Lemma FOP_nth (l : list A) :
  ForallOrdPairs R l ->
  forall (i j : nat) (a b : A),
    (i < j)%nat -> nth_error l i = Some a -> nth_error l j = Some b -> R a b.
Proof.
  induction 1 as [| c l Hc Hl IH]; intros i j a b Hij Ha Hb.
  - destruct i; discriminate.
  - destruct j as [| j]; [lia |].
    destruct i as [| i]; simpl in Ha, Hb.
    + injection Ha as <-. rewrite Forall_forall in Hc.
      apply Hc. eapply nth_error_In; eassumption.
    + apply (IH i j); [lia | assumption | assumption].
Qed.
End OrderedPairs.

Section SortFacts.
Variable A : Type.
Variable key : A -> Z.

Lemma insert_desc_In (a b : A) (l : list A) :
  In b (insert_desc key a l) <-> b = a \/ In b l.
Proof.
  induction l as [| c l IH]; simpl.
  - intuition.
  - destruct (key a <? key c); simpl; [rewrite IH |]; intuition.
Qed.

Lemma sort_desc_In (b : A) (l : list A) : In b (sort_desc key l) <-> In b l.
Proof.
  induction l as [| a l IH]; simpl; [tauto |].
  rewrite insert_desc_In, IH. intuition.
Qed.

Lemma insert_desc_descending (a : A) (l : list A) :
  descending key l -> descending key (insert_desc key a l).
Proof.
  unfold descending.
  induction 1 as [| c l Hc Hl IH]; simpl.
  - constructor; constructor.
  - destruct (key a <? key c) eqn:E.
    + constructor; [| exact IH].
      rewrite Forall_forall in *. intros b Hb.
      apply insert_desc_In in Hb. destruct Hb as [-> | Hb]; [lia | auto].
    + constructor; [| constructor; assumption].
      constructor; [lia |].
      rewrite Forall_forall in *. intros b Hb.
      specialize (Hc b Hb). lia.
Qed.

Lemma sort_desc_descending (l : list A) : descending key (sort_desc key l).
Proof.
  induction l as [| a l IH]; simpl.
  - constructor.
  - apply insert_desc_descending, IH.
Qed.

(** Sorting leaves a list that is already in order untouched: equal
    keys keep their positions. *)
Lemma sort_desc_fixpoint (l : list A) : descending key l -> sort_desc key l = l.
Proof.
  induction 1 as [| a l Ha Hl IH]; simpl; [reflexivity |].
  rewrite IH.
  destruct l as [| c l']; simpl; [reflexivity |].
  inversion Ha as [| ? ? Hc _]; subst.
  destruct (key a <? key c) eqn:E; [lia | reflexivity].
Qed.
End SortFacts.

(** The decorated list of [remove_overlapping_boxes] sorts like the boxes
    themselves under their area. *)
Lemma sort_decorated (boxes : list BoundingBox.t) :
  sort_desc snd (map (fun box => (box, area box)) boxes)
  = map (fun box => (box, area box)) (sort_desc area boxes).
Proof.
  induction boxes as [| b boxes IH]; simpl; [reflexivity |].
  rewrite IH. generalize (sort_desc area boxes) as l.
  induction l as [| c l IHl]; simpl; [reflexivity |].
  destruct (area b <? area c); simpl; [rewrite IHl |]; reflexivity.
Qed.

Lemma fold_keep_step (t : Q) (l acc : list BoundingBox.t) :
  fold_left (keep_step t) (map (fun box => (box, area box)) l) acc = greedy t l acc.
Proof.
  revert acc. induction l as [| b l IH]; intros acc; simpl; [reflexivity |].
  apply IH.
Qed.

Lemma remove_overlapping_boxes_greedy (boxes : list BoundingBox.t) (t : Q) :
  remove_overlapping_boxes boxes t = greedy t (sort_desc area boxes) [].
Proof.
  destruct boxes as [| b boxes]; [reflexivity |].
  unfold remove_overlapping_boxes.
  rewrite sort_decorated. apply fold_keep_step.
Qed.

Lemma existsb_false_Forall (t : Q) (b : BoundingBox.t) (acc : list BoundingBox.t) :
  existsb (exceeds t b) acc = false <->
  Forall (fun a => exceeds t b a = false) acc.
Proof.
  induction acc as [| a acc IH]; simpl.
  - split; [constructor | reflexivity].
  - rewrite orb_false_iff, IH. split.
    + intros [H1 H2]. constructor; assumption.
    + intros H. inversion H; subst. split; assumption.
Qed.

Lemma greedy_incl (t : Q) (l acc : list BoundingBox.t) (b : BoundingBox.t) :
  In b (greedy t l acc) -> In b acc \/ In b l.
Proof.
  revert acc. induction l as [| c l IH]; intros acc H; simpl in *; [left; exact H |].
  destruct (existsb (exceeds t c) acc); apply IH in H.
  - tauto.
  - rewrite in_app_iff in H. simpl in H. tauto.
Qed.

Lemma greedy_compatible (t : Q) (l acc : list BoundingBox.t) :
  compatible t acc -> compatible t (greedy t l acc).
Proof.
  revert acc. induction l as [| c l IH]; intros acc H; [exact H |].
  simpl.
  destruct (existsb (exceeds t c) acc) eqn:E; apply IH; [exact H |].
  apply FOP_app. repeat split.
  - exact H.
  - constructor; constructor.
  - intros a b Ha [<- | []].
    apply existsb_false_Forall in E. rewrite Forall_forall in E. apply E, Ha.
Qed.

Lemma greedy_descending (t : Q) (l acc : list BoundingBox.t) :
  descending area (acc ++ l) -> descending area (greedy t l acc).
Proof.
  revert acc. induction l as [| c l IH]; intros acc H.
  - rewrite app_nil_r in H. exact H.
  - simpl.
    destruct (existsb (exceeds t c) acc); apply IH.
    + apply FOP_app in H. destruct H as (H1 & H2 & H12).
      inversion H2; subst.
      apply FOP_app. repeat split; [assumption | assumption |].
      intros a b Ha Hb. apply H12; [exact Ha | right; exact Hb].
    + rewrite <- app_assoc. exact H.
Qed.

(** On a list with no conflict the loop keeps every box. *)
Lemma greedy_keeps_compatible (t : Q) (l acc : list BoundingBox.t) :
  compatible t (acc ++ l) -> greedy t l acc = acc ++ l.
Proof.
  revert acc. induction l as [| c l IH]; intros acc H.
  - rewrite app_nil_r. reflexivity.
  - simpl.
    assert (E : existsb (exceeds t c) acc = false).
    { apply existsb_false_Forall. rewrite Forall_forall. intros a Ha.
      apply FOP_app in H. destruct H as (_ & _ & H12).
      apply (H12 a c Ha). left. reflexivity. }
    rewrite E. rewrite IH; rewrite <- app_assoc; [reflexivity | exact H].
Qed.

Lemma iou_inline_sym (a b : BoundingBox.t) : iou_inline a b = iou_inline b a.
Proof.
  unfold iou_inline.
  rewrite (Z.max_comm (BoundingBox.x a)), (Z.max_comm (BoundingBox.y a)).
  rewrite (Z.min_comm (BoundingBox.x a + BoundingBox.width a)).
  rewrite (Z.min_comm (BoundingBox.y a + BoundingBox.height a)).
  rewrite (Z.add_comm (BoundingBox.width a * BoundingBox.height a)).
  reflexivity.
Qed.

Lemma IoU_sym (a b : BoundingBox.t) : IoU a b = IoU b a.
Proof. unfold IoU. rewrite iou_inline_sym. reflexivity. Qed.

Lemma exceeds_false_IoU (t : Q) (a b : BoundingBox.t) :
  (0 <= t)%Q -> exceeds t a b = false -> (IoU a b <= t)%Q.
Proof.
  unfold exceeds, IoU. intros Ht H.
  destruct (iou_inline a b) as [q |]; [| exact Ht].
  apply negb_false_iff, Qle_bool_iff in H. exact H.
Qed.

Lemma remove_overlapping_boxes_incl (boxes : list BoundingBox.t) (t : Q) :
  incl (remove_overlapping_boxes boxes t) boxes.
Proof.
  intros b Hb. rewrite remove_overlapping_boxes_greedy in Hb.
  apply greedy_incl in Hb. destruct Hb as [[] | Hb].
  apply sort_desc_In in Hb. exact Hb.
Qed.

Lemma remove_overlapping_boxes_compatible (boxes : list BoundingBox.t) (t : Q) :
  compatible t (remove_overlapping_boxes boxes t).
Proof.
  rewrite remove_overlapping_boxes_greedy.
  apply greedy_compatible. constructor.
Qed.

Lemma remove_overlapping_boxes_descending (boxes : list BoundingBox.t) (t : Q) :
  descending area (remove_overlapping_boxes boxes t).
Proof.
  rewrite remove_overlapping_boxes_greedy.
  apply greedy_descending. simpl. apply sort_desc_descending.
Qed.

(** The second pass returns the very list the first pass produced, for
    any threshold. *)
Lemma remove_overlapping_boxes_idempotent (boxes : list BoundingBox.t) (t : Q) :
  remove_overlapping_boxes (remove_overlapping_boxes boxes t) t
  = remove_overlapping_boxes boxes t.
Proof.
  rewrite (remove_overlapping_boxes_greedy (remove_overlapping_boxes boxes t)).
  rewrite sort_desc_fixpoint by apply remove_overlapping_boxes_descending.
  apply (greedy_keeps_compatible t (remove_overlapping_boxes boxes t) []).
  apply remove_overlapping_boxes_compatible.
Qed.

(** The suppressor does suppress: of two boxes shifted by one pixel the
    smaller-or-later one goes, the far one stays. *)
Example remove_overlapping_boxes_example :
  remove_overlapping_boxes
    [Fixture.box 1 1 10 10; Fixture.box 50 50 5 5; Fixture.box 0 0 10 11] (1 # 2)
  = [Fixture.box 0 0 10 11; Fixture.box 50 50 5 5].
Proof. vm_compute. reflexivity. Qed.

(* ================================================================= *)
(** ** Detection orchestration *)

(** With the window filter on, the model-based detector only returns
    boxes labelled ["window"]. *)
Lemma boxes_of_detections_window_label (image : Image.t) (ds : list Detection) :
  Forall (fun b => BoundingBox.label b = Some "window")
         (boxes_of_detections image true ds).
Proof.
  induction ds as [| d ds IH]; simpl; [constructor |].
  destruct (window_like image d); [constructor; [reflexivity | exact IH] | exact IH].
Qed.

(** Without the filter every detection becomes a box under the model's
    own label. *)
Lemma boxes_of_detections_native (image : Image.t) (ds : list Detection) :
  boxes_of_detections image false ds =
  map (fun d => BoundingBox.Build (det_x d) (det_y d) (det_width d) (det_height d)
                                  (Some (det_label d))) ds.
Proof.
  induction ds as [| d ds IH]; simpl; [reflexivity | rewrite IH; reflexivity].
Qed.

(** [detect_objects] never lets anything but an [HTTPException] out. *)
Lemma detect_objects_raises_http_only
  (w : World) (image : Image.t) (c : Q) (windows_only : bool) (e : exn) :
  snd (detect_objects w image c windows_only) = Raise e -> is_http e = true.
Proof.
  assert (M : forall f, model_detect w image c f = Raise e -> is_http e = true).
  { intros f. unfold model_detect.
    destruct (yolo w image c) as [results | [s d | m | m | m]];
      intros H; try discriminate; injection H as <-; reflexivity. }
  unfold detect_objects.
  destruct windows_only; [| apply M].
  destruct (detect_windows_advanced w image c); simpl; [apply M | discriminate].
Qed.

(** C6: in windows-only mode the primitive detector runs first.  Either
    it returns at least one box, and then these boxes are the result and
    no model-based detector call is made; or it returns none, and then the
    model-based detector is called with the window filter on and its
    outcome is the result. *)
Theorem detect_objects_windows_only_policy :
  forall (w : World) (image : Image.t) (confidence_threshold : Q),
    hd_error (fst (detect_objects w image confidence_threshold true))
    = Some PrimitiveDetector /\
    ((exists b bs,
         detect_windows_advanced w image confidence_threshold = b :: bs /\
         detect_objects w image confidence_threshold true
         = ([PrimitiveDetector], Ret (b :: bs)) /\
         forall f, ~ In (ModelDetector f)
                        (fst (detect_objects w image confidence_threshold true)))
     \/
     (detect_windows_advanced w image confidence_threshold = [] /\
      detect_objects w image confidence_threshold true
      = ([PrimitiveDetector; ModelDetector true],
         model_detect w image confidence_threshold true))).
Proof.
  intros w image c. unfold detect_objects.
  destruct (detect_windows_advanced w image c) as [| b bs] eqn:E.
  - split; [reflexivity |]. right. split; reflexivity.
  - split; [reflexivity |]. left. exists b, bs.
    repeat split. intros f [H | []]. discriminate.
Qed.

(** Both branches of the policy occur. *)
Example detect_objects_primitive_hit :
  detect_objects
    (Fixture.world (fun _ => Ret [Fixture.box 10 10 40 30]) Fixture.no_yolo)
    (Fixture.blank 100 100) (1 # 2) true
  = ([PrimitiveDetector], Ret [Fixture.box 10 10 40 30]).
Proof. vm_compute. reflexivity. Qed.

Example detect_objects_fallback :
  detect_objects
    (Fixture.world Fixture.no_cv2
       (fun _ _ => Ret [ {| det_x := 10; det_y := 10; det_width := 40;
                            det_height := 30; det_label := "tv" |};
                         {| det_x := 0; det_y := 0; det_width := 100;
                            det_height := 2; det_label := "bench" |} ]))
    (Fixture.blank 100 100) (1 # 2) true
  = ([PrimitiveDetector; ModelDetector true],
     Ret [BoundingBox.Build 10 10 40 30 (Some "window")]).
Proof. vm_compute. reflexivity. Qed.

(* ================================================================= *)
(** ** The crop loop *)

Lemma enumerate_from_In {A : Type} (l : list A) (start idx : Z) (a : A) :
  In (idx, a) (enumerate_from start l) -> In a l /\ start <= idx.
Proof.
  revert start. induction l as [| c l IH]; intros start H; simpl in H; [contradiction |].
  destruct H as [H | H].
  - injection H as <- <-. split; [left; reflexivity | lia].
  - apply IH in H. destruct H as [H1 H2]. split; [right; exact H1 | lia].
Qed.

Section CropLoopFacts.
Variable w : World.
Variable request : CropRequest.
Variable image_url : string.
Variable job_dir : string.
Variable image_index : Z.
Variable image : Image.t.

(** One iteration either records one error or appends one artifact
    made from the box at hand. *)
Lemma crop_step_cases (st : LoopState) (idx : Z) (bbox : BoundingBox.t) :
  (exists e,
      ls_saved (crop_step w request image_url job_dir image_index image
                          st (idx, bbox))
      = ls_saved st /\
      ls_errors (crop_step w request image_url job_dir image_index image
                           st (idx, bbox))
      = ls_errors st ++ [crop_error idx image_index e])
  \/
  (exists f,
      made_from w image_url image_index image f idx bbox /\
      ls_saved (crop_step w request image_url job_dir image_index image
                          st (idx, bbox))
      = ls_saved st ++ [f] /\
      ls_errors (crop_step w request image_url job_dir image_index image
                           st (idx, bbox))
      = ls_errors st).
Proof.
  unfold crop_step.
  destruct (crop_bounding_box w image bbox) as [cropped | e] eqn:Ec.
  - destruct (jpeg w cropped) as [img_bytes | e] eqn:Ej.
    + right. eexists. split; [| split; reflexivity].
      exists cropped. eexists. simpl.
      repeat split; try reflexivity. exact Ec.
    + left. exists e. split; reflexivity.
  - left. exists e. split; reflexivity.
Qed.

Lemma crop_fold_saved
  (entries : list (Z * BoundingBox.t)) (st : LoopState) (f : SavedFile) :
  In f (ls_saved (fold_left (crop_step w request image_url job_dir image_index image)
                            entries st)) ->
  In f (ls_saved st) \/
  exists idx bbox, In (idx, bbox) entries /\
                   made_from w image_url image_index image f idx bbox.
Proof.
  revert st. induction entries as [| [idx bbox] entries IH]; intros st H;
    cbn [fold_left] in H.
  - left. exact H.
  - apply IH in H. destruct H as [H | (i & b & Hin & Hm)].
    + destruct (crop_step_cases st idx bbox) as [(e & Es & _) | (g & Hg & Es & _)];
        rewrite Es in H.
      * left. exact H.
      * apply in_app_or in H. destruct H as [H | [<- | []]]; [left; exact H |].
        right. exists idx, bbox. split; [left; reflexivity | exact Hg].
    + right. exists i, b. split; [right; exact Hin | exact Hm].
Qed.

(** The loop only ever appends crop errors to the errors it starts
    from. *)
Lemma crop_fold_errors (entries : list (Z * BoundingBox.t)) (st : LoopState) :
  exists more,
    ls_errors (fold_left (crop_step w request image_url job_dir image_index image)
                         entries st)
    = ls_errors st ++ more /\
    Forall (fun s => exists idx e, s = crop_error idx image_index e) more.
Proof.
  revert st. induction entries as [| [idx bbox] entries IH]; intros st;
    cbn [fold_left].
  - exists []. rewrite app_nil_r. split; [reflexivity | constructor].
  - destruct (IH (crop_step w request image_url job_dir image_index image
                            st (idx, bbox))) as (more & E & F).
    rewrite E.
    destruct (crop_step_cases st idx bbox) as [(e & _ & Ee) | (g & _ & _ & Ee)];
      rewrite Ee.
    + exists (crop_error idx image_index e :: more).
      rewrite <- app_assoc. split; [reflexivity |].
      constructor; [exists idx, e; reflexivity | exact F].
    + exists more. split; [reflexivity | exact F].
Qed.

Lemma crop_loop_saved
  (errors : list string) (boxes : list BoundingBox.t) (f : SavedFile) :
  In f (ls_saved (crop_loop w request image_url job_dir image_index image
                            errors boxes)) ->
  exists idx bbox, In bbox boxes /\ 0 <= idx /\
                   made_from w image_url image_index image f idx bbox.
Proof.
  unfold crop_loop. intros H. apply crop_fold_saved in H.
  destruct H as [[] | (idx & bbox & Hin & Hm)].
  apply enumerate_from_In in Hin. destruct Hin as [Hin Hidx].
  exists idx, bbox. repeat split; assumption.
Qed.

Lemma crop_loop_errors (errors : list string) (boxes : list BoundingBox.t) :
  exists more,
    ls_errors (crop_loop w request image_url job_dir image_index image errors boxes)
    = errors ++ more /\
    Forall (fun s => exists idx e, s = crop_error idx image_index e) more.
Proof. unfold crop_loop. apply crop_fold_errors. Qed.
End CropLoopFacts.

(* ================================================================= *)
(** ** The batch processor *)

Lemma download_image_cases (w : World) (url : string) :
  (exists image, fetch w url = Ret image /\ download_image w url = Ret image)
  \/
  (exists e, fetch w url = Raise e /\
             download_image w url =
             Raise (HTTPException 400
                      (String.append "Failed to download image: " (str_exn e)))).
Proof.
  unfold download_image.
  destruct (fetch w url) as [image | e]; [left | right]; eexists; split; reflexivity.
Qed.

(** A failed download leaves [process_single_image] as the
    [HTTPException] [download_image] raised. *)
Lemma process_single_image_download_failure
  (w : World) (url : string) (request : CropRequest) (job_dir : string)
  (image_index : Z) (e : exn) :
  fetch w url = Raise e ->
  process_single_image w url request job_dir image_index
  = Raise (HTTPException 400
             (String.append "Failed to download image: " (str_exn e))).
Proof.
  intros H. unfold process_single_image, process_single_image_body, download_image.
  rewrite H. reflexivity.
Qed.

Lemma download_tagged_crop_error (idx image_index : Z) (e : exn) :
  download_tagged (crop_error idx image_index e) = false.
Proof. reflexivity. Qed.

Lemma download_tagged_no_objects (request : CropRequest) (image_index : Z) :
  download_tagged (no_objects_error request image_index) = false.
Proof. reflexivity. Qed.

Lemma download_tagged_no_boxes (image_index : Z) :
  download_tagged (no_boxes_error image_index) = false.
Proof. reflexivity. Qed.

Lemma download_tagged_process_error (idx : Z) (url : string) (e : exn) :
  download_tagged (process_error idx url e) = false.
Proof. reflexivity. Qed.

Lemma crop_errors_not_download_tagged (image_index : Z) (more : list string) :
  Forall (fun s => exists idx e, s = crop_error idx image_index e) more ->
  Forall (fun s => download_tagged s = false) more.
Proof.
  intros H. eapply Forall_impl; [| exact H].
  intros s (idx & e & ->). apply download_tagged_crop_error.
Qed.

(** What a returning call of [process_single_image] tells: the image was
    downloaded, every artifact was made from a box of the resolved list,
    and no error string reports a download. *)
Lemma process_single_image_returns
  (w : World) (url : string) (request : CropRequest) (job_dir : string)
  (image_index : Z) (saved : list SavedFile) (errs : list string) :
  process_single_image w url request job_dir image_index = Ret (saved, errs) ->
  exists image,
    fetch w url = Ret image /\
    (forall f, In f saved ->
       exists idx bbox,
         0 <= idx /\
         (In bbox (boxes_or_nil (bounding_boxes request)) \/
          exists detected,
            snd (detect_objects w image (confidence_threshold request)
                                (detect_windows_only request)) = Ret detected /\
            In bbox detected) /\
         made_from w url image_index image f idx bbox) /\
    Forall (fun s => download_tagged s = false) errs.
Proof.
  unfold process_single_image, process_single_image_body.
  destruct (download_image_cases w url) as [(image & Ef & Ed) | (e & _ & Ed)];
    rewrite Ed; [| discriminate].
  intros H. exists image. split; [exact Ef |].
  unfold resolve_boxes in H.
  destruct (use_detection request).
  - destruct (snd (detect_objects w image (confidence_threshold request)
                                  (detect_windows_only request)))
      as [detected | e] eqn:Edet.
    + destruct detected as [| b bs].
      * injection H as <- <-. split; [intros f [] |].
        constructor; [apply download_tagged_no_objects | constructor].
      * cbn [truthy negb boxes_or_nil] in H. injection H as <- <-.
        destruct (crop_loop_errors w request url job_dir image_index image [] (b :: bs))
          as (more & -> & Hm).
        split.
        -- intros f Hf. apply crop_loop_saved in Hf.
           destruct Hf as (idx & bbox & Hin & Hidx & Hmade).
           exists idx, bbox. split; [exact Hidx |]. split; [| exact Hmade].
           right. exists (b :: bs). split; [reflexivity | exact Hin].
        -- apply (crop_errors_not_download_tagged image_index). exact Hm.
    + apply detect_objects_raises_http_only in Edet.
      destruct e; try discriminate Edet. discriminate H.
  - destruct (truthy (bounding_boxes request)); cbn [negb] in H.
    + injection H as <- <-.
      destruct (crop_loop_errors w request url job_dir image_index image []
                  (boxes_or_nil (bounding_boxes request))) as (more & -> & Hm).
      split.
      * intros f Hf. apply crop_loop_saved in Hf.
        destruct Hf as (idx & bbox & Hin & Hidx & Hmade).
        exists idx, bbox. split; [exact Hidx |]. split; [left; exact Hin | exact Hmade].
      * apply (crop_errors_not_download_tagged image_index). exact Hm.
    + injection H as <- <-. split; [intros f [] |].
      constructor; [apply download_tagged_no_boxes | constructor].
Qed.

(** [process_single_image] never lets anything but an [HTTPException]
    out. *)
Lemma process_single_image_raises_http_only
  (w : World) (url : string) (request : CropRequest) (job_dir : string)
  (image_index : Z) (e : exn) :
  process_single_image w url request job_dir image_index = Raise e ->
  is_http e = true.
Proof.
  unfold process_single_image, process_single_image_body.
  destruct (download_image_cases w url) as [(image & _ & Ed) | (e' & _ & Ed)];
    rewrite Ed; [| intros H; injection H as <-; reflexivity].
  unfold resolve_boxes.
  destruct (use_detection request).
  - destruct (snd (detect_objects w image (confidence_threshold request)
                                  (detect_windows_only request)))
      as [detected | e'] eqn:Edet.
    + destruct detected; [discriminate |].
      cbn [truthy negb]. discriminate.
    + apply detect_objects_raises_http_only in Edet.
      destruct e'; try discriminate Edet.
      intros H. injection H as <-. reflexivity.
  - destruct (truthy (bounding_boxes request)); discriminate.
Qed.

(** C3, as the code has it: every artifact [process_single_image] returns
    was made from a box of the resolved list (supplied or detected) that
    [crop_bounding_box] accepted; its [bbox] entry is that box as it was
    resolved, before clamping, and its [dimensions] entry is the clamped
    width and height. *)
Theorem artifact_carries_resolved_box :
  forall (w : World) (url : string) (request : CropRequest) (job_dir : string)
         (image_index : Z) (saved : list SavedFile) (errs : list string)
         (f : SavedFile),
    process_single_image w url request job_dir image_index = Ret (saved, errs) ->
    In f saved ->
    exists image bbox cropped,
      fetch w url = Ret image /\
      (In bbox (boxes_or_nil (bounding_boxes request)) \/
       exists detected,
         snd (detect_objects w image (confidence_threshold request)
                             (detect_windows_only request)) = Ret detected /\
         In bbox detected) /\
      crop_bounding_box w image bbox = Ret cropped /\
      sf_bbox f = (BoundingBox.x bbox, BoundingBox.y bbox,
                   BoundingBox.width bbox, BoundingBox.height bbox) /\
      sf_dimensions f = (snd (fst (clamp image bbox)), snd (clamp image bbox)).
Proof.
  intros w url request job_dir image_index saved errs f H Hf.
  apply process_single_image_returns in H.
  destruct H as (image & Ef & Hsaved & _).
  destruct (Hsaved f Hf) as (idx & bbox & _ & Hres & Hmade).
  destruct Hmade as (cropped & safe & Hc & Hb & Hd & _).
  exists image, bbox, cropped.
  repeat split; try assumption.
  rewrite Hd.
  pose proof (crop_inside_image w image bbox cropped Hc) as I.
  destruct (clamp image bbox) as [[[x y] width] height]. simpl.
  destruct I as (_ & _ & _ & _ & _ & _ & -> & ->). reflexivity.
Qed.

Lemma artifact_carries_resolved_box_witness :
  exists image bbox cropped,
    fetch Fixture.bare Fixture.url_a = Ret image /\
    (In bbox (boxes_or_nil (bounding_boxes Fixture.edge_request)) \/
     exists detected,
       snd (detect_objects Fixture.bare image
              (confidence_threshold Fixture.edge_request)
              (detect_windows_only Fixture.edge_request)) = Ret detected /\
       In bbox detected) /\
    crop_bounding_box Fixture.bare image bbox = Ret cropped /\
    sf_bbox Fixture.edge_artifact
    = (BoundingBox.x bbox, BoundingBox.y bbox,
       BoundingBox.width bbox, BoundingBox.height bbox) /\
    sf_dimensions Fixture.edge_artifact
    = (snd (fst (clamp image bbox)), snd (clamp image bbox)).
Proof.
  apply (artifact_carries_resolved_box Fixture.bare Fixture.url_a
           Fixture.edge_request "/job" 0 [Fixture.edge_artifact] []
           Fixture.edge_artifact).
  - reflexivity.
  - left. reflexivity.
Defined.

(** C3, as the spec words it, fails: for a supplied box that leaves the
    image, the artifact reports the supplied box, which differs from the
    rectangle the crop was taken at. *)
Lemma artifact_box_is_not_post_clamp :
  process_single_image Fixture.bare Fixture.url_a Fixture.edge_request "/job" 0
  = Ret ([Fixture.edge_artifact], []) /\
  clamp (Fixture.blank 100 100) (Fixture.box (-5) (-5) 20 20) = (0, 0, 20, 20) /\
  sf_bbox Fixture.edge_artifact = (-5, -5, 20, 20) /\
  sf_bbox Fixture.edge_artifact
  <> clamp (Fixture.blank 100 100) (Fixture.box (-5) (-5) 20 20).
Proof.
  split; [reflexivity |]. split; [reflexivity |]. split; [reflexivity |].
  vm_compute. discriminate.
Qed.

(* ================================================================= *)
(** ** The job loop *)

Lemma enumerate_from_urls {A : Type} (l : list A) (start : Z) (a : A) :
  In a l -> exists idx, In (idx, a) (enumerate_from start l).
Proof.
  revert start. induction l as [| c l IH]; intros start H; [contradiction |].
  destruct H as [<- | H].
  - exists start. left. reflexivity.
  - destruct (IH (start + 1) H) as (idx & Hidx). exists idx. right. exact Hidx.
Qed.

Section JobLoopFacts.
Variable w : World.
Variable request : CropRequest.
Variable job_dir : string.

(** One failed download among the entries and the loop does not
    return. *)
Lemma job_loop_download_failure
  (entries : list (Z * string)) (idx : Z) (url : string)
  (saved : list SavedFile) (errs : list string) :
  In (idx, url) entries ->
  returns (fetch w url) = false ->
  returns (job_loop (process_single_image w) request job_dir entries saved errs) = false.
Proof.
  intros Hin Hf. revert saved errs.
  induction entries as [| [i u] entries IH]; intros saved errs; [contradiction |].
  cbn [job_loop].
  destruct Hin as [Heq | Hin].
  - injection Heq as -> ->.
    destruct (fetch w url) as [image | e] eqn:Ef; [discriminate |].
    rewrite (process_single_image_download_failure w url request job_dir idx e Ef).
    reflexivity.
  - destruct (process_single_image w u request job_dir i) as [[s e] | ex].
    + apply (IH Hin).
    + destruct ex; try reflexivity; apply (IH Hin).
Qed.

(** The loop itself lets nothing but an [HTTPException] out. *)
Lemma job_loop_raises_http_only
  (entries : list (Z * string)) (saved : list SavedFile) (errs : list string) (e : exn) :
  job_loop (process_single_image w) request job_dir entries saved errs = Raise e ->
  is_http e = true.
Proof.
  revert saved errs.
  induction entries as [| [i u] entries IH]; intros saved errs H; cbn [job_loop] in H;
    [discriminate |].
  destruct (process_single_image w u request job_dir i) as [[s er] | ex].
  - exact (IH _ _ H).
  - destruct ex; try exact (IH _ _ H). injection H as <-. reflexivity.
Qed.

(** What a returning loop tells: every image was downloaded, the new
    artifacts come from the entries, and no new error reports a
    download. *)
Lemma job_loop_returns_inv
  (entries : list (Z * string)) (saved : list SavedFile) (errs : list string)
  (saved' : list SavedFile) (errs' : list string) :
  job_loop (process_single_image w) request job_dir entries saved errs = Ret (saved', errs') ->
  exists more_saved more_errs,
    saved' = saved ++ more_saved /\
    errs' = errs ++ more_errs /\
    (forall idx url, In (idx, url) entries -> returns (fetch w url) = true) /\
    (forall f, In f more_saved ->
       exists idx, In (idx, sf_source_image f) entries) /\
    Forall (fun s => download_tagged s = false) more_errs.
Proof.
  revert saved errs.
  induction entries as [| [i u] entries IH]; intros saved errs H; cbn [job_loop] in H.
  - injection H as <- <-. exists [], []. rewrite !app_nil_r.
    repeat split; try constructor; intros; contradiction.
  - destruct (process_single_image w u request job_dir i) as [[s e] | ex] eqn:Ep.
    + apply IH in H. destruct H as (ms & me & -> & -> & Hf & Hs & He).
      apply process_single_image_returns in Ep.
      destruct Ep as (image & Efetch & Hmade & Hnot).
      exists (s ++ ms), (e ++ me). rewrite !app_assoc.
      split; [reflexivity |]. split; [reflexivity |]. split; [| split].
      * intros idx url [Heq | Hin]; [| exact (Hf idx url Hin)].
        injection Heq as <- <-. rewrite Efetch. reflexivity.
      * intros f Hin. apply in_app_or in Hin. destruct Hin as [Hin | Hin].
        -- destruct (Hmade f Hin) as (idx & bbox & _ & _ & Hm).
           destruct Hm as (c & sl & _ & _ & _ & -> & _).
           exists i. left. reflexivity.
        -- destruct (Hs f Hin) as (idx & Hidx). exists idx. right. exact Hidx.
      * apply Forall_app. split; assumption.
    + apply process_single_image_raises_http_only in Ep.
      destruct ex; try discriminate Ep. discriminate H.
Qed.
End JobLoopFacts.

Lemma crop_image_unfold (w : World) (request : CropRequest) (urls : list string) :
  get_image_urls request = Ret urls ->
  mkdir w (job_dir_of w) = Ret tt ->
  crop_image w request =
  match job_loop (process_single_image w) request (job_dir_of w) (enumerate urls) [] [] with
  | Raise e => Raise e
  | Ret (all_saved_files, all_errors) =>
      Ret {| status := "success";
             job_id := uuid4_hex w;
             output_dir := job_dir_of w;
             images_processed := Z.of_nat (List.length urls);
             saved_count := Z.of_nat (List.length all_saved_files);
             saved_files := all_saved_files;
             errors := all_errors |}
  end.
Proof.
  intros Hu Hm. unfold crop_image. rewrite Hu, Hm. reflexivity.
Qed.

(** C1, as the spec words it, fails: with two images of which the second
    cannot be downloaded, the request ends in an [HTTPException] with
    status 400 instead of a report with one download error. *)
Lemma one_failed_download_fails_the_request :
  crop_image Fixture.bare Fixture.mixed_request
  = Raise (HTTPException 400 "Failed to download image: connection refused").
Proof. vm_compute. reflexivity. Qed.

(** A job whose images all download does return a report. *)
Example two_downloads_complete :
  exists report,
    crop_image Fixture.bare Fixture.shared_box_request = Ret report /\
    images_processed report = 2 /\
    saved_count report = 2 /\
    errors report = [].
Proof. eexists. split; [vm_compute; reflexivity |]. repeat split. Qed.

(** C2, as the code has it.  When detection is requested, the first image
    of the job downloads, the model library cannot be imported, and the
    primitive detector is either not asked (no windows-only mode) or
    returns no box, the request ends in the [HTTPException] with status
    400 that [detect_objects] raises: no report is built, whether or not
    the request carries boxes. *)
Theorem missing_model_library_fails_the_request :
  forall (w : World) (request : CropRequest) (url : string) (rest : list string)
         (image : Image.t) (m : string),
    get_image_urls request = Ret (url :: rest) ->
    mkdir w (job_dir_of w) = Ret tt ->
    use_detection request = true ->
    fetch w url = Ret image ->
    yolo w image (confidence_threshold request) = Raise (ImportError m) ->
    (detect_windows_only request = false \/
     detect_windows_advanced w image (confidence_threshold request) = []) ->
    crop_image w request
    = Raise (HTTPException 400
               "YOLO not installed. Install with: pip install ultralytics").
Proof.
  intros w request url rest image m Hu Hm Hd Hf Hy Hp.
  rewrite (crop_image_unfold w request (url :: rest) Hu Hm).
  cbn [enumerate enumerate_from job_loop].
  assert (E : process_single_image w url request (job_dir_of w) 0
              = Raise (HTTPException 400
                         "YOLO not installed. Install with: pip install ultralytics")).
  { unfold process_single_image, process_single_image_body, download_image.
    rewrite Hf. unfold resolve_boxes. rewrite Hd.
    assert (D : snd (detect_objects w image (confidence_threshold request)
                                    (detect_windows_only request))
                = Raise (HTTPException 400
                           "YOLO not installed. Install with: pip install ultralytics")).
    { unfold detect_objects.
      destruct Hp as [Hp | Hp].
      - rewrite Hp. cbn [snd]. unfold model_detect. rewrite Hy. reflexivity.
      - destruct (detect_windows_only request).
        + rewrite Hp. cbn [snd]. unfold model_detect. rewrite Hy. reflexivity.
        + cbn [snd]. unfold model_detect. rewrite Hy. reflexivity. }
    rewrite D. reflexivity. }
  rewrite E. reflexivity.
Qed.

Lemma missing_model_library_witness :
  crop_image Fixture.bare (Fixture.detect_request true)
  = Raise (HTTPException 400
             "YOLO not installed. Install with: pip install ultralytics").
Proof.
  apply (missing_model_library_fails_the_request Fixture.bare
           (Fixture.detect_request true) Fixture.url_a [Fixture.url_b]
           (Fixture.blank 100 100) "No module named 'ultralytics'").
  - reflexivity.
  - reflexivity.
  - reflexivity.
  - reflexivity.
  - reflexivity.
  - right. reflexivity.
Defined.

(** C2, as the spec words it, fails: with no detection library installed
    and no supplied boxes, a two-image request ends in an [HTTPException]
    instead of a report with one error per image. *)
Lemma missing_detectors_give_no_report :
  crop_image Fixture.bare (Fixture.detect_request false)
  = Raise (HTTPException 400
             "YOLO not installed. Install with: pip install ultralytics") /\
  returns (crop_image Fixture.bare (Fixture.detect_request true)) = false.
Proof. split; vm_compute; reflexivity. Qed.

(* ================================================================= *)
(** ** File names *)

(** The first image of a job never gets the [img<k>_] prefix, however
    many images the job has. *)
Lemma make_filename_first_image (idx : Z) (safe_label : string) :
  make_filename 0 idx safe_label
  = String.append (Str.format_03d (idx + 1))
      (String.append "_" (String.append safe_label ".jpg")).
Proof. reflexivity. Qed.

Lemma make_filename_later_image (image_index idx : Z) (safe_label : string) :
  0 < image_index ->
  make_filename image_index idx safe_label
  = String.append "img" (String.append (Str.of_int (image_index + 1))
      (String.append "_" (String.append (Str.format_03d (idx + 1))
        (String.append "_" (String.append safe_label ".jpg"))))).
Proof.
  intros H. unfold make_filename.
  destruct (image_index >? 0) eqn:E; [reflexivity | lia].
Qed.

(** C5, evaluated: the two-image job with one shared box completes with
    two artifacts named [001_crop_1.jpg] and [img2_001_crop_1.jpg]; the
    artifact of the first image carries no image index. *)
Theorem two_image_job_filenames :
  exists report,
    crop_image Fixture.bare Fixture.shared_box_request = Ret report /\
    images_processed report = 2 /\
    map sf_image_index (saved_files report) = [1; 2] /\
    map sf_filename (saved_files report) = ["001_crop_1.jpg"; "img2_001_crop_1.jpg"].
Proof. eexists. split; [vm_compute; reflexivity |]. repeat split. Qed.

(* ================================================================= *)
(** * Further properties *)

(* ================================================================= *)
(** ** Geometry, continued *)

(** X1: a crop that [crop_bounding_box] returns is a non-empty rectangle
    inside the image, no larger than the box asked for, and its pixels
    are the pixels of the image under that rectangle. *)
Theorem crop_stays_inside_image :
  forall (w : World) (image : Image.t) (bbox : BoundingBox.t) (cropped : Image.t),
    crop_bounding_box w image bbox = Ret cropped ->
    exists x y width height,
      clamp image bbox = (x, y, width, height) /\
      0 <= x /\ 0 <= y /\ 0 < width /\ 0 < height /\
      x + width <= Image.width image /\ y + height <= Image.height image /\
      width <= BoundingBox.width bbox /\ height <= BoundingBox.height bbox /\
      Image.width cropped = width /\ Image.height cropped = height /\
      forall i j, Image.pixel cropped i j = Image.pixel image (x + i) (y + j).
Proof.
  intros w image bbox cropped H.
  pose proof (crop_bounding_box_cases w image bbox) as C.
  pose proof (clamp_fields image bbox) as F.
  destruct (clamp image bbox) as [[[x y] width] height].
  exists x, y, width, height.
  injection F as -> -> Hw Hh.
  destruct C as [(Pw & Ph & E) | (_ & E)]; rewrite E in H; [| discriminate].
  injection H as <-. cbn.
  repeat split; try lia.
Qed.

Lemma crop_stays_inside_image_witness :
  exists x y width height,
    clamp (Fixture.blank 100 100) (Fixture.box 90 (-5) 20 20) = (x, y, width, height) /\
    0 <= x /\ 0 <= y /\ 0 < width /\ 0 < height /\
    x + width <= Image.width (Fixture.blank 100 100) /\
    y + height <= Image.height (Fixture.blank 100 100) /\
    width <= BoundingBox.width (Fixture.box 90 (-5) 20 20) /\
    height <= BoundingBox.height (Fixture.box 90 (-5) 20 20) /\
    Image.width (Image.crop (Fixture.blank 100 100) (90, 0, 100, 20)) = width /\
    Image.height (Image.crop (Fixture.blank 100 100) (90, 0, 100, 20)) = height /\
    forall i j,
      Image.pixel (Image.crop (Fixture.blank 100 100) (90, 0, 100, 20)) i j
      = Image.pixel (Fixture.blank 100 100) (x + i) (y + j).
Proof.
  apply (crop_stays_inside_image Fixture.bare (Fixture.blank 100 100)
           (Fixture.box 90 (-5) 20 20)).
  reflexivity.
Defined.

(** X2: a non-empty box that already lies inside the image is cropped as
    it is given: the clamp changes nothing. *)
Theorem inside_box_is_cropped_as_given :
  forall (w : World) (image : Image.t) (bbox : BoundingBox.t),
    0 <= BoundingBox.x bbox -> 0 <= BoundingBox.y bbox ->
    0 < BoundingBox.width bbox -> 0 < BoundingBox.height bbox ->
    BoundingBox.x bbox + BoundingBox.width bbox <= Image.width image ->
    BoundingBox.y bbox + BoundingBox.height bbox <= Image.height image ->
    clamped_box image bbox = bbox /\
    crop_bounding_box w image bbox
    = Ret (Image.crop image
             (BoundingBox.x bbox, BoundingBox.y bbox,
              BoundingBox.x bbox + BoundingBox.width bbox,
              BoundingBox.y bbox + BoundingBox.height bbox)).
Proof.
  intros w image bbox Hx Hy Hw Hh Hr Hb.
  assert (F : clamp image bbox = box_fields bbox).
  { rewrite clamp_fields. unfold box_fields.
    f_equal; [f_equal; [f_equal |] |]; lia. }
  split.
  - unfold clamped_box. rewrite F. destruct bbox. reflexivity.
  - pose proof (crop_bounding_box_cases w image bbox) as C.
    rewrite F in C. unfold box_fields in C.
    destruct C as [(_ & _ & E) | (Hbad & _)]; [exact E | lia].
Qed.

Lemma inside_box_is_cropped_as_given_witness :
  clamped_box (Fixture.blank 100 100) (Fixture.box 10 10 50 50) = Fixture.box 10 10 50 50 /\
  crop_bounding_box Fixture.bare (Fixture.blank 100 100) (Fixture.box 10 10 50 50)
  = Ret (Image.crop (Fixture.blank 100 100)
           (BoundingBox.x (Fixture.box 10 10 50 50),
            BoundingBox.y (Fixture.box 10 10 50 50),
            BoundingBox.x (Fixture.box 10 10 50 50)
            + BoundingBox.width (Fixture.box 10 10 50 50),
            BoundingBox.y (Fixture.box 10 10 50 50)
            + BoundingBox.height (Fixture.box 10 10 50 50))).
Proof.
  apply (inside_box_is_cropped_as_given Fixture.bare (Fixture.blank 100 100)
           (Fixture.box 10 10 50 50)); cbn; lia.
Defined.

(** X3: read on the box itself, [crop_bounding_box] rejects a box exactly
    when its width or height is not positive or its origin, after moving
    negative coordinates to 0, lies on or beyond the right or bottom edge
    of the image. *)
Theorem crop_rejection_on_the_box :
  forall (w : World) (image : Image.t) (bbox : BoundingBox.t),
    returns (crop_bounding_box w image bbox) = false <->
    (BoundingBox.width bbox <= 0 \/ BoundingBox.height bbox <= 0 \/
     Image.width image <= Z.max 0 (BoundingBox.x bbox) \/
     Image.height image <= Z.max 0 (BoundingBox.y bbox)).
Proof.
  intros w image bbox.
  pose proof (crop_bounding_box_cases w image bbox) as C.
  rewrite clamp_fields in C.
  destruct C as [(Pw & Ph & E) | (Hbad & E)]; rewrite E; cbn.
  - split; [discriminate | lia].
  - split; [lia | reflexivity].
Qed.

(** X4: a box whose origin is left of and above the image is not trimmed
    by the part that sticks out: when its extent fits the image, the crop
    is taken from the corner of the image at the full extent asked for,
    even if the box itself does not meet the image at all. *)
Theorem outside_origin_shifts_the_box :
  forall (w : World) (image : Image.t) (bbox : BoundingBox.t),
    BoundingBox.x bbox <= 0 -> BoundingBox.y bbox <= 0 ->
    0 < BoundingBox.width bbox <= Image.width image ->
    0 < BoundingBox.height bbox <= Image.height image ->
    crop_bounding_box w image bbox
    = Ret (Image.crop image (0, 0, BoundingBox.width bbox, BoundingBox.height bbox)).
Proof.
  intros w image bbox Hx Hy Hw Hh.
  pose proof (crop_bounding_box_cases w image bbox) as C.
  rewrite clamp_fields in C.
  replace (Z.max 0 (BoundingBox.x bbox)) with 0 in C by lia.
  replace (Z.max 0 (BoundingBox.y bbox)) with 0 in C by lia.
  replace (Z.min (BoundingBox.width bbox) (Image.width image - 0))
    with (BoundingBox.width bbox) in C by lia.
  replace (Z.min (BoundingBox.height bbox) (Image.height image - 0))
    with (BoundingBox.height bbox) in C by lia.
  destruct C as [(_ & _ & E) | (Hbad & _)]; [exact E | lia].
Qed.

Lemma outside_origin_shifts_the_box_witness :
  crop_bounding_box Fixture.bare (Fixture.blank 100 100) (Fixture.box (-50) (-50) 20 20)
  = Ret (Image.crop (Fixture.blank 100 100)
           (0, 0, BoundingBox.width (Fixture.box (-50) (-50) 20 20),
            BoundingBox.height (Fixture.box (-50) (-50) 20 20))).
Proof.
  apply (outside_origin_shifts_the_box Fixture.bare (Fixture.blank 100 100)
           (Fixture.box (-50) (-50) 20 20)); cbn; lia.
Defined.

(* ================================================================= *)
(** ** Intersection over union *)

Lemma ratio_bounds (i u : Z) :
  0 < i -> i <= u -> (0 <= inject_Z i / inject_Z u)%Q /\ (inject_Z i / inject_Z u <= 1)%Q.
Proof.
  intros Hi Hu.
  destruct u as [| p | p]; try lia.
  unfold Qle, Qdiv, Qmult, Qinv, inject_Z; simpl. split; lia.
Qed.

(** When the guard of the inner loop holds, both boxes are non-empty and
    the intersection is positive and no larger than the union. *)
Lemma iou_inline_some (a b : BoundingBox.t) (q : Q) :
  iou_inline a b = Some q ->
  exists i u,
    0 < i /\ i <= u /\ 0 < area a /\ 0 < area b /\
    q = (inject_Z i / inject_Z u)%Q.
Proof.
  unfold iou_inline, area.
  set (x1 := Z.max (BoundingBox.x a) (BoundingBox.x b)).
  set (y1 := Z.max (BoundingBox.y a) (BoundingBox.y b)).
  set (x2 := Z.min (BoundingBox.x a + BoundingBox.width a)
                   (BoundingBox.x b + BoundingBox.width b)).
  set (y2 := Z.min (BoundingBox.y a + BoundingBox.height a)
                   (BoundingBox.y b + BoundingBox.height b)).
  destruct (x2 >? x1) eqn:Hx; [| discriminate].
  destruct (y2 >? y1) eqn:Hy; [| discriminate].
  cbn [andb]. intros H. injection H as <-.
  assert (Dx : 0 < x2 - x1) by lia.
  assert (Dy : 0 < y2 - y1) by lia.
  assert (Wa : x2 - x1 <= BoundingBox.width a) by (unfold x1, x2; lia).
  assert (Wb : x2 - x1 <= BoundingBox.width b) by (unfold x1, x2; lia).
  assert (Ha : y2 - y1 <= BoundingBox.height a) by (unfold y1, y2; lia).
  assert (Hb : y2 - y1 <= BoundingBox.height b) by (unfold y1, y2; lia).
  assert (Ia : (x2 - x1) * (y2 - y1) <= BoundingBox.width a * BoundingBox.height a)
    by nia.
  assert (Ib : (x2 - x1) * (y2 - y1) <= BoundingBox.width b * BoundingBox.height b)
    by nia.
  assert (Ip : 0 < (x2 - x1) * (y2 - y1)) by nia.
  exists ((x2 - x1) * (y2 - y1)),
         (BoundingBox.width a * BoundingBox.height a
          + BoundingBox.width b * BoundingBox.height b - (x2 - x1) * (y2 - y1)).
  repeat split; try lia.
  destruct (_ >? 0) eqn:E; [reflexivity | lia].
Qed.

(** X5: the quotient the suppressor compares is symmetric in its two
    boxes and always lies between 0 and 1; the branch for a union that is
    not positive is never taken. *)
Theorem IoU_symmetric_and_in_range :
  forall (a b : BoundingBox.t),
    IoU a b = IoU b a /\ (0 <= IoU a b)%Q /\ (IoU a b <= 1)%Q.
Proof.
  intros a b. split; [apply IoU_sym |].
  unfold IoU. destruct (iou_inline a b) as [q |] eqn:E.
  - apply iou_inline_some in E. destruct E as (i & u & Hi & Hu & _ & _ & ->).
    apply ratio_bounds; assumption.
  - split; discriminate.
Qed.

(** X6: a box with positive width and height has IoU 1 with itself. *)
Theorem IoU_of_a_box_with_itself :
  forall (a : BoundingBox.t),
    0 < BoundingBox.width a -> 0 < BoundingBox.height a ->
    (IoU a a == 1)%Q.
Proof.
  intros a Hw Hh. unfold IoU, iou_inline.
  rewrite !Z.max_id, !Z.min_id.
  replace (BoundingBox.x a + BoundingBox.width a - BoundingBox.x a)
    with (BoundingBox.width a) by lia.
  replace (BoundingBox.y a + BoundingBox.height a - BoundingBox.y a)
    with (BoundingBox.height a) by lia.
  destruct (BoundingBox.x a + BoundingBox.width a >? BoundingBox.x a) eqn:Gx; [| lia].
  destruct (BoundingBox.y a + BoundingBox.height a >? BoundingBox.y a) eqn:Gy; [| lia].
  cbn [andb].
  replace (BoundingBox.width a * BoundingBox.height a
           + BoundingBox.width a * BoundingBox.height a
           - BoundingBox.width a * BoundingBox.height a)
    with (BoundingBox.width a * BoundingBox.height a) by lia.
  assert (P : 0 < BoundingBox.width a * BoundingBox.height a) by nia.
  destruct (BoundingBox.width a * BoundingBox.height a) as [| p | p]; try lia.
  cbn. unfold Qeq, Qdiv, Qmult, Qinv, inject_Z. simpl. lia.
Qed.

Lemma IoU_of_a_box_with_itself_witness :
  (IoU (Fixture.box 10 10 50 50) (Fixture.box 10 10 50 50) == 1)%Q.
Proof.
  apply (IoU_of_a_box_with_itself (Fixture.box 10 10 50 50)); cbn; lia.
Defined.

(** X7: two boxes that do not meet (one ends where or before the other
    begins, horizontally or vertically) have IoU 0 and never set the
    overlap flag for one another, whatever the threshold. *)
Theorem disjoint_boxes_never_conflict :
  forall (a b : BoundingBox.t) (t : Q),
    (BoundingBox.x a + BoundingBox.width a <= BoundingBox.x b \/
     BoundingBox.x b + BoundingBox.width b <= BoundingBox.x a \/
     BoundingBox.y a + BoundingBox.height a <= BoundingBox.y b \/
     BoundingBox.y b + BoundingBox.height b <= BoundingBox.y a) ->
    IoU a b = 0%Q /\ exceeds t a b = false /\ exceeds t b a = false.
Proof.
  intros a b t H.
  assert (N : iou_inline a b = None).
  { unfold iou_inline.
    destruct (Z.min (BoundingBox.x a + BoundingBox.width a)
                    (BoundingBox.x b + BoundingBox.width b)
              >? Z.max (BoundingBox.x a) (BoundingBox.x b)) eqn:Gx;
      [| reflexivity].
    destruct (Z.min (BoundingBox.y a + BoundingBox.height a)
                    (BoundingBox.y b + BoundingBox.height b)
              >? Z.max (BoundingBox.y a) (BoundingBox.y b)) eqn:Gy;
      [| reflexivity].
    lia. }
  unfold IoU, exceeds. rewrite <- (iou_inline_sym a b), N.
  repeat split.
Qed.

Lemma disjoint_boxes_never_conflict_witness :
  IoU (Fixture.box 0 0 10 10) (Fixture.box 10 0 10 10) = 0%Q /\
  exceeds (-1 # 1) (Fixture.box 0 0 10 10) (Fixture.box 10 0 10 10) = false /\
  exceeds (-1 # 1) (Fixture.box 10 0 10 10) (Fixture.box 0 0 10 10) = false.
Proof.
  apply (disjoint_boxes_never_conflict (Fixture.box 0 0 10 10)
           (Fixture.box 10 0 10 10) (-1 # 1)).
  left. cbn. lia.
Defined.

(* ================================================================= *)
(** ** Overlap suppressor, continued *)

Lemma greedy_prefix (t : Q) (l acc : list BoundingBox.t) :
  exists rest, greedy t l acc = acc ++ rest.
Proof.
  revert acc. induction l as [| c l IH]; intros acc; simpl.
  - exists []. rewrite app_nil_r. reflexivity.
  - destruct (existsb (exceeds t c) acc).
    + apply IH.
    + destruct (IH (acc ++ [c])) as (rest & ->).
      exists (c :: rest). rewrite <- app_assoc. reflexivity.
Qed.

Lemma exceeds_true_IoU (t : Q) (a b : BoundingBox.t) :
  exceeds t a b = true -> ~ (IoU a b <= t)%Q.
Proof.
  unfold exceeds, IoU.
  destruct (iou_inline a b) as [q |]; [| discriminate].
  intros H Hle. apply Qle_bool_iff in Hle. rewrite Hle in H. discriminate.
Qed.

(** Every box of the list is kept, or a box kept before it, of no smaller
    area, sets the flag for it. *)
Lemma greedy_complete (t : Q) (l acc : list BoundingBox.t) (b : BoundingBox.t) :
  descending area (acc ++ l) ->
  In b l ->
  In b (greedy t l acc) \/
  exists a, In a (greedy t l acc) /\ area b <= area a /\ exceeds t b a = true.
Proof.
  revert acc. induction l as [| c l IH]; intros acc D Hb; [contradiction |].
  simpl. destruct Hb as [<- | Hb].
  - destruct (existsb (exceeds t c) acc) eqn:E.
    + right. apply existsb_exists in E. destruct E as (a & Ha & Ea).
      exists a. destruct (greedy_prefix t l acc) as (rest & ->).
      split; [apply in_or_app; left; exact Ha |]. split; [| exact Ea].
      apply FOP_app in D. destruct D as (_ & _ & D).
      apply (D a c Ha). left. reflexivity.
    + left. destruct (greedy_prefix t l (acc ++ [c])) as (rest & ->).
      apply in_or_app. left. apply in_or_app. right. left. reflexivity.
  - destruct (existsb (exceeds t c) acc).
    + apply IH; [| exact Hb].
      apply FOP_app in D. destruct D as (D1 & D2 & D12).
      inversion D2; subst.
      apply FOP_app. repeat split; [assumption | assumption |].
      intros a' b' Ha' Hb'. apply D12; [exact Ha' | right; exact Hb'].
    + apply IH; [| exact Hb]. rewrite <- app_assoc. exact D.
Qed.

(** X8: the output of [remove_overlapping_boxes] is ordered by area,
    largest first, and for a non-empty input it starts with a box of the
    largest area of the input: the largest box is always kept. *)
Theorem largest_box_is_kept :
  forall (boxes : list BoundingBox.t) (t : Q),
    boxes <> [] ->
    descending area (remove_overlapping_boxes boxes t) /\
    exists b rest,
      remove_overlapping_boxes boxes t = b :: rest /\
      In b boxes /\
      forall c, In c boxes -> area c <= area b.
Proof.
  intros boxes t Hne.
  split; [apply remove_overlapping_boxes_descending |].
  rewrite remove_overlapping_boxes_greedy.
  pose proof (sort_desc_descending _ area boxes) as D.
  pose proof (sort_desc_In _ area) as I.
  destruct (sort_desc area boxes) as [| b l] eqn:E.
  - destruct boxes as [| c boxes]; [contradiction |].
    assert (K : In c (sort_desc area (c :: boxes))) by (apply I; left; reflexivity).
    rewrite E in K. contradiction.
  - simpl. destruct (greedy_prefix t l [b]) as (rest & ->).
    exists b, rest. split; [reflexivity |]. split.
    + apply I. rewrite E. left. reflexivity.
    + intros c Hc. apply I in Hc. rewrite E in Hc.
      destruct Hc as [<- | Hc]; [lia |].
      inversion D as [| ? ? Hb _]; subst.
      rewrite Forall_forall in Hb. apply Hb, Hc.
Qed.

Lemma largest_box_is_kept_witness :
  descending area
    (remove_overlapping_boxes
       [Fixture.box 1 1 10 10; Fixture.box 50 50 5 5; Fixture.box 0 0 10 11] (1 # 2)) /\
  exists b rest,
    remove_overlapping_boxes
      [Fixture.box 1 1 10 10; Fixture.box 50 50 5 5; Fixture.box 0 0 10 11] (1 # 2)
    = b :: rest /\
    In b [Fixture.box 1 1 10 10; Fixture.box 50 50 5 5; Fixture.box 0 0 10 11] /\
    forall c,
      In c [Fixture.box 1 1 10 10; Fixture.box 50 50 5 5; Fixture.box 0 0 10 11] ->
      area c <= area b.
Proof.
  apply (largest_box_is_kept
           [Fixture.box 1 1 10 10; Fixture.box 50 50 5 5; Fixture.box 0 0 10 11]
           (1 # 2)).
  discriminate.
Defined.

(** X9: the suppressor only drops a box for a reason: every box of the
    input is in the output, or some box of the output, of no smaller area,
    has IoU above the threshold with it. *)
Theorem dropped_box_has_a_kept_rival :
  forall (boxes : list BoundingBox.t) (t : Q) (b : BoundingBox.t),
    In b boxes ->
    In b (remove_overlapping_boxes boxes t) \/
    exists a,
      In a (remove_overlapping_boxes boxes t) /\
      area b <= area a /\
      ~ (IoU b a <= t)%Q.
Proof.
  intros boxes t b Hb.
  rewrite remove_overlapping_boxes_greedy.
  destruct (greedy_complete t (sort_desc area boxes) [] b) as [H | (a & Ha & Hab & He)].
  - apply sort_desc_descending.
  - apply sort_desc_In. exact Hb.
  - left. exact H.
  - right. exists a. split; [exact Ha |]. split; [exact Hab |].
    apply exceeds_true_IoU. exact He.
Qed.

Lemma dropped_box_has_a_kept_rival_witness :
  In (Fixture.box 1 1 10 10)
     (remove_overlapping_boxes
        [Fixture.box 1 1 10 10; Fixture.box 50 50 5 5; Fixture.box 0 0 10 11] (1 # 2)) \/
  exists a,
    In a (remove_overlapping_boxes
            [Fixture.box 1 1 10 10; Fixture.box 50 50 5 5; Fixture.box 0 0 10 11]
            (1 # 2)) /\
    area (Fixture.box 1 1 10 10) <= area a /\
    ~ (IoU (Fixture.box 1 1 10 10) a <= 1 # 2)%Q.
Proof.
  apply (dropped_box_has_a_kept_rival
           [Fixture.box 1 1 10 10; Fixture.box 50 50 5 5; Fixture.box 0 0 10 11]
           (1 # 2) (Fixture.box 1 1 10 10)).
  left. reflexivity.
Defined.

Lemma insert_desc_Permutation {A : Type} (key : A -> Z) (a : A) (l : list A) :
  Permutation (a :: l) (insert_desc key a l).
Proof.
  induction l as [| c l IH]; simpl; [apply Permutation_refl |].
  destruct (key a <? key c); [| apply Permutation_refl].
  eapply Permutation_trans; [apply perm_swap |]. apply perm_skip, IH.
Qed.

Lemma sort_desc_Permutation {A : Type} (key : A -> Z) (l : list A) :
  Permutation l (sort_desc key l).
Proof.
  induction l as [| a l IH]; simpl; [constructor |].
  eapply Permutation_trans; [apply perm_skip, IH |]. apply insert_desc_Permutation.
Qed.

Lemma FOP_total {A : Type} (R : A -> A -> Prop) (l : list A) :
  (forall a b, In a l -> In b l -> R a b) -> ForallOrdPairs R l.
Proof.
  induction l as [| c l IH]; intros H; constructor.
  - rewrite Forall_forall. intros b Hb. apply H; [left; reflexivity | right; exact Hb].
  - apply IH. intros a b Ha Hb. apply H; right; assumption.
Qed.

(** X10: from threshold 1 on the suppressor removes nothing: its output is
    the input in stable order of descending area, a permutation of the
    input. *)
Theorem threshold_one_keeps_every_box :
  forall (boxes : list BoundingBox.t) (t : Q),
    (1 <= t)%Q ->
    remove_overlapping_boxes boxes t = sort_desc area boxes /\
    Permutation boxes (remove_overlapping_boxes boxes t) /\
    List.length (remove_overlapping_boxes boxes t) = List.length boxes.
Proof.
  intros boxes t Ht.
  assert (E : remove_overlapping_boxes boxes t = sort_desc area boxes).
  { rewrite remove_overlapping_boxes_greedy.
    apply (greedy_keeps_compatible t (sort_desc area boxes) []).
    apply FOP_total. intros a b _ _.
    unfold exceeds. destruct (iou_inline b a) as [q |] eqn:Eq; [| reflexivity].
    apply negb_false_iff, Qle_bool_iff.
    apply iou_inline_some in Eq. destruct Eq as (i & u & Hi & Hu & _ & _ & ->).
    eapply Qle_trans; [apply ratio_bounds; assumption | exact Ht]. }
  rewrite E. split; [reflexivity |]. split.
  - apply sort_desc_Permutation.
  - symmetry. apply Permutation_length, sort_desc_Permutation.
Qed.

Lemma threshold_one_keeps_every_box_witness :
  remove_overlapping_boxes
    [Fixture.box 1 1 10 10; Fixture.box 50 50 5 5; Fixture.box 0 0 10 11] 1
  = sort_desc area [Fixture.box 1 1 10 10; Fixture.box 50 50 5 5; Fixture.box 0 0 10 11] /\
  Permutation
    [Fixture.box 1 1 10 10; Fixture.box 50 50 5 5; Fixture.box 0 0 10 11]
    (remove_overlapping_boxes
       [Fixture.box 1 1 10 10; Fixture.box 50 50 5 5; Fixture.box 0 0 10 11] 1) /\
  List.length
    (remove_overlapping_boxes
       [Fixture.box 1 1 10 10; Fixture.box 50 50 5 5; Fixture.box 0 0 10 11] 1)
  = List.length [Fixture.box 1 1 10 10; Fixture.box 50 50 5 5; Fixture.box 0 0 10 11].
Proof.
  apply (threshold_one_keeps_every_box
           [Fixture.box 1 1 10 10; Fixture.box 50 50 5 5; Fixture.box 0 0 10 11] 1).
  discriminate.
Defined.

(** X11: the primitive detector returns a sub-list of the candidates of
    the OpenCV pipeline in which no two boxes have IoU above 0.5, and it
    returns the empty list whenever the pipeline fails, be it for a
    missing library or for any other exception. *)
Theorem detect_windows_advanced_is_suppressed :
  forall (w : World) (image : Image.t) (confidence_threshold : Q),
    match cv2_candidates w image with
    | Ret candidates =>
        incl (detect_windows_advanced w image confidence_threshold) candidates
    | Raise _ => detect_windows_advanced w image confidence_threshold = []
    end /\
    forall (i j : nat) (a b : BoundingBox.t),
      i <> j ->
      nth_error (detect_windows_advanced w image confidence_threshold) i = Some a ->
      nth_error (detect_windows_advanced w image confidence_threshold) j = Some b ->
      (IoU a b <= 1 # 2)%Q.
Proof.
  intros w image c. unfold detect_windows_advanced.
  destruct (cv2_candidates w image) as [candidates | e].
  - split; [apply remove_overlapping_boxes_incl |].
    intros i j a b Hij Ha Hb.
    pose proof (remove_overlapping_boxes_compatible candidates (1 # 2)) as C.
    assert (Hpos : (0 <= 1 # 2)%Q) by discriminate.
    destruct (Nat.lt_total i j) as [Hlt | [Heq | Hgt]]; [| contradiction |].
    + rewrite IoU_sym. apply exceeds_false_IoU; [exact Hpos |].
      exact (FOP_nth _ _ _ C i j a b Hlt Ha Hb).
    + apply exceeds_false_IoU; [exact Hpos |].
      exact (FOP_nth _ _ _ C j i b a Hgt Hb Ha).
  - split.
    + destruct e; reflexivity.
    + intros i j a b _ Ha. destruct e; destruct i; discriminate Ha.
Qed.

(* ================================================================= *)
(** ** Detection, continued *)

Lemma boxes_of_detections_native_box (image : Image.t) (ds : list Detection) :
  boxes_of_detections image false ds = map native_box ds.
Proof.
  induction ds as [| d ds IH]; simpl; [reflexivity | rewrite IH; reflexivity].
Qed.

(** Outside windows-only mode [detect_objects] runs the model-based
    detector alone, without the shape filter, and returns one box per
    detection, in the model's order and under the model's own labels. *)
Lemma detect_objects_native_mode :
  forall (w : World) (image : Image.t) (confidence_threshold : Q)
         (results : list Detection),
    yolo w image confidence_threshold = Ret results ->
    detect_objects w image confidence_threshold false
    = ([ModelDetector false], Ret (map native_box results)).
Proof.
  intros w image c results H.
  unfold detect_objects, model_detect. rewrite H.
  rewrite boxes_of_detections_native_box. reflexivity.
Qed.

Example detect_objects_native_mode_run :
  detect_objects DetectorFixture.model_only (Fixture.blank 100 100) (1 # 2) false
  = ([ModelDetector false], Ret (map native_box DetectorFixture.detections)).
Proof.
  apply (detect_objects_native_mode DetectorFixture.model_only
           (Fixture.blank 100 100) (1 # 2) DetectorFixture.detections).
  reflexivity.
Qed.

(** X12: [detect_objects] fails only when the model-based detector
    fails, and then with an [HTTPException]: status 400 when the model
    library cannot be imported, status 500 with the text of the exception
    otherwise.  A failure inside the primitive detector never surfaces. *)
Theorem detect_objects_failure_statuses :
  forall (w : World) (image : Image.t) (confidence_threshold : Q)
         (windows_only : bool) (e : exn),
    snd (detect_objects w image confidence_threshold windows_only) = Raise e ->
    (exists m,
        yolo w image confidence_threshold = Raise (ImportError m) /\
        e = HTTPException 400
              "YOLO not installed. Install with: pip install ultralytics")
    \/
    (exists e',
        yolo w image confidence_threshold = Raise e' /\
        (forall m, e' <> ImportError m) /\
        e = HTTPException 500
              (String.append "Object detection failed: " (str_exn e'))).
Proof.
  intros w image c windows_only e H.
  assert (M : forall f, model_detect w image c f = Raise e ->
              (exists m,
                  yolo w image c = Raise (ImportError m) /\
                  e = HTTPException 400
                        "YOLO not installed. Install with: pip install ultralytics")
              \/
              (exists e',
                  yolo w image c = Raise e' /\
                  (forall m, e' <> ImportError m) /\
                  e = HTTPException 500
                        (String.append "Object detection failed: " (str_exn e')))).
  { intros f. unfold model_detect.
    destruct (yolo w image c) as [results | [s d | m | m | m]];
      intros K; try discriminate K; injection K as <-.
    - right. eexists. split; [reflexivity |]. split; [discriminate | reflexivity].
    - left. exists m. split; reflexivity.
    - right. eexists. split; [reflexivity |]. split; [discriminate | reflexivity].
    - right. eexists. split; [reflexivity |]. split; [discriminate | reflexivity]. }
  unfold detect_objects in H.
  destruct windows_only; [| exact (M _ H)].
  destruct (detect_windows_advanced w image c); [exact (M _ H) | discriminate H].
Qed.

Lemma detect_objects_failure_statuses_witness :
  (exists m,
      yolo Fixture.bare (Fixture.blank 100 100) (1 # 2) = Raise (ImportError m) /\
      HTTPException 400 "YOLO not installed. Install with: pip install ultralytics"
      = HTTPException 400 "YOLO not installed. Install with: pip install ultralytics")
  \/
  (exists e',
      yolo Fixture.bare (Fixture.blank 100 100) (1 # 2) = Raise e' /\
      (forall m, e' <> ImportError m) /\
      HTTPException 400 "YOLO not installed. Install with: pip install ultralytics"
      = HTTPException 500 (String.append "Object detection failed: " (str_exn e'))).
Proof.
  apply (detect_objects_failure_statuses Fixture.bare (Fixture.blank 100 100)
           (1 # 2) true).
  reflexivity.
Defined.

Lemma window_like_shape (image : Image.t) (d : Detection) :
  window_like image d = true ->
  0 < det_height d /\
  3 * det_height d <= 10 * det_width d /\
  det_width d <= 3 * det_height d /\
  5 * (Image.width image * Image.height image) < 1000 * (det_width d * det_height d) /\
  10 * (det_width d * det_height d) < 9 * (Image.width image * Image.height image).
Proof.
  unfold window_like.
  set (W := Image.width image * Image.height image).
  rewrite !andb_true_iff, !negb_true_iff.
  intros (((H1 & H2) & H3) & H4).
  destruct (det_height d >? 0) eqn:Hh.
  - apply Z.gtb_lt in Hh.
    destruct (det_height d) as [| p | p] eqn:Eh; try lia.
    apply Qle_bool_iff in H1, H2.
    assert (H3' : ~ (inject_Z (det_width d * Z.pos p) <= inject_Z W * (5 # 1000))%Q).
    { intros K. apply Qle_bool_iff in K. rewrite K in H3. discriminate. }
    assert (H4' : ~ (inject_Z W * (9 # 10) <= inject_Z (det_width d * Z.pos p))%Q).
    { intros K. apply Qle_bool_iff in K. rewrite K in H4. discriminate. }
    unfold Qle, Qdiv, Qmult, Qinv, inject_Z in H1, H2, H3', H4'.
    cbn [Qnum Qden] in H1, H2, H3', H4'.
    repeat split; lia.
  - discriminate H1.
Qed.

Lemma boxes_of_detections_windows (image : Image.t) (ds : list Detection)
  (b : BoundingBox.t) :
  In b (boxes_of_detections image true ds) ->
  exists d, In d ds /\ window_like image d = true /\
            b = BoundingBox.Build (det_x d) (det_y d) (det_width d) (det_height d)
                                  (Some "window").
Proof.
  induction ds as [| d ds IH]; simpl; [contradiction |].
  destruct (window_like image d) eqn:E.
  - intros [<- | H].
    + exists d. split; [left; reflexivity |]. split; [exact E | reflexivity].
    + destruct (IH H) as (d' & Hd & Hw & Hb).
      exists d'. split; [right; exact Hd |]. split; assumption.
  - intros H. destruct (IH H) as (d' & Hd & Hw & Hb).
    exists d'. split; [right; exact Hd |]. split; assumption.
Qed.

(** X13: when windows-only detection falls back on the model, every box
    it returns is labelled ["window"] and has the window shape: positive
    height, width between 0.3 and 3 times the height, and an area above
    0.5% and below 90% of the image area. *)
Theorem fallback_boxes_are_window_shaped :
  forall (w : World) (image : Image.t) (confidence_threshold : Q)
         (boxes : list BoundingBox.t) (b : BoundingBox.t),
    detect_windows_advanced w image confidence_threshold = [] ->
    snd (detect_objects w image confidence_threshold true) = Ret boxes ->
    In b boxes ->
    BoundingBox.label b = Some "window" /\
    0 < BoundingBox.height b /\
    3 * BoundingBox.height b <= 10 * BoundingBox.width b /\
    BoundingBox.width b <= 3 * BoundingBox.height b /\
    5 * (Image.width image * Image.height image) < 1000 * area b /\
    10 * area b < 9 * (Image.width image * Image.height image).
Proof.
  intros w image c boxes b Hp Hd Hb.
  unfold detect_objects in Hd. rewrite Hp in Hd. cbn [snd] in Hd.
  unfold model_detect in Hd.
  destruct (yolo w image c) as [results | [s d | m | m | m]]; try discriminate Hd.
  injection Hd as <-.
  apply boxes_of_detections_windows in Hb.
  destruct Hb as (d & _ & Hw & ->).
  apply window_like_shape in Hw. unfold area. cbn. tauto.
Qed.

Lemma fallback_boxes_are_window_shaped_witness :
  BoundingBox.label (BoundingBox.Build 10 10 40 30 (Some "window")) = Some "window" /\
  0 < BoundingBox.height (BoundingBox.Build 10 10 40 30 (Some "window")) /\
  3 * BoundingBox.height (BoundingBox.Build 10 10 40 30 (Some "window"))
  <= 10 * BoundingBox.width (BoundingBox.Build 10 10 40 30 (Some "window")) /\
  BoundingBox.width (BoundingBox.Build 10 10 40 30 (Some "window"))
  <= 3 * BoundingBox.height (BoundingBox.Build 10 10 40 30 (Some "window")) /\
  5 * (Image.width (Fixture.blank 100 100) * Image.height (Fixture.blank 100 100))
  < 1000 * area (BoundingBox.Build 10 10 40 30 (Some "window")) /\
  10 * area (BoundingBox.Build 10 10 40 30 (Some "window"))
  < 9 * (Image.width (Fixture.blank 100 100) * Image.height (Fixture.blank 100 100)).
Proof.
  apply (fallback_boxes_are_window_shaped DetectorFixture.model_only
           (Fixture.blank 100 100) (1 # 2)
           [BoundingBox.Build 10 10 40 30 (Some "window")]
           (BoundingBox.Build 10 10 40 30 (Some "window"))).
  - reflexivity.
  - vm_compute. reflexivity.
  - left. reflexivity.
Defined.

(* ================================================================= *)
(** ** The batch processor, continued *)

Section CropLoopMore.
Variable w : World.
Variable request : CropRequest.
Variable image_url : string.
Variable job_dir : string.
Variable image_index : Z.
Variable image : Image.t.

(** One iteration, in full: what it appends and how it counts. *)
Lemma crop_step_full (st : LoopState) (idx : Z) (bbox : BoundingBox.t) :
  (exists e,
      crop_bounding_box w image bbox = Raise e /\
      crop_step w request image_url job_dir image_index image st (idx, bbox)
      = {| window_count := window_count st;
           ls_saved := ls_saved st;
           ls_errors := ls_errors st ++ [crop_error idx image_index e] |})
  \/
  (exists cropped e,
      crop_bounding_box w image bbox = Ret cropped /\
      jpeg w cropped = Raise e /\
      ls_saved (crop_step w request image_url job_dir image_index image st (idx, bbox))
      = ls_saved st /\
      ls_errors (crop_step w request image_url job_dir image_index image st (idx, bbox))
      = ls_errors st ++ [crop_error idx image_index e])
  \/
  (exists cropped img_bytes,
      crop_bounding_box w image bbox = Ret cropped /\
      jpeg w cropped = Ret img_bytes /\
      ls_saved (crop_step w request image_url job_dir image_index image st (idx, bbox))
      = ls_saved st ++
        [artifact w image_url job_dir image_index idx bbox cropped img_bytes
                  (loop_label request (window_count st) idx bbox)] /\
      ls_errors (crop_step w request image_url job_dir image_index image st (idx, bbox))
      = ls_errors st /\
      window_count (crop_step w request image_url job_dir image_index image
                              st (idx, bbox))
      = if (Str.contains "window" (Str.lower (initial_label bbox idx))
            || detect_windows_only request)%bool
        then window_count st + 1 else window_count st).
Proof.
  unfold crop_step, loop_label, artifact, sanitize.
  destruct (crop_bounding_box w image bbox) as [cropped | e] eqn:Ec.
  - destruct (jpeg w cropped) as [img_bytes | e] eqn:Ej.
    + right. right. exists cropped, img_bytes.
      split; [reflexivity |]. split; [exact Ej |].
      destruct (Str.contains "window" (Str.lower (initial_label bbox idx))
                || detect_windows_only request)%bool;
        repeat split; reflexivity.
    + right. left. exists cropped, e.
      split; [reflexivity |]. split; [exact Ej |]. split; reflexivity.
  - left. exists e. split; reflexivity.
Qed.

(** Every iteration appends exactly one entry, to the artifacts or to the
    errors. *)
Lemma crop_fold_count (entries : list (Z * BoundingBox.t)) (st : LoopState) :
  (List.length
     (ls_saved (fold_left (crop_step w request image_url job_dir image_index image)
                          entries st))
   + List.length
       (ls_errors (fold_left (crop_step w request image_url job_dir image_index image)
                             entries st))
   = List.length (ls_saved st) + List.length (ls_errors st) + List.length entries)%nat.
Proof.
  revert st. induction entries as [| [idx bbox] entries IH]; intros st;
    cbn [fold_left List.length]; [lia |].
  rewrite IH.
  destruct (crop_step_cases w request image_url job_dir image_index image st idx bbox)
    as [(e & Es & Ee) | (f & _ & Es & Ee)]; rewrite Es, Ee, length_app; simpl; lia.
Qed.

Lemma crop_fold_saved_prefix (entries : list (Z * BoundingBox.t)) (st : LoopState) :
  exists more,
    ls_saved (fold_left (crop_step w request image_url job_dir image_index image)
                        entries st)
    = ls_saved st ++ more.
Proof.
  revert st. induction entries as [| [idx bbox] entries IH]; intros st;
    cbn [fold_left].
  - exists []. rewrite app_nil_r. reflexivity.
  - destruct (IH (crop_step w request image_url job_dir image_index image
                            st (idx, bbox))) as (more & ->).
    destruct (crop_step_cases w request image_url job_dir image_index image st idx bbox)
      as [(e & Es & _) | (f & _ & Es & _)]; rewrite Es.
    + exists more. reflexivity.
    + exists (f :: more). rewrite <- app_assoc. reflexivity.
Qed.

(** Every entry leaves its trace in the result: an error string under its
    position when the crop or the encoding fails, an artifact under its
    position otherwise. *)
Lemma crop_fold_trace (entries : list (Z * BoundingBox.t)) (st : LoopState)
  (idx : Z) (bbox : BoundingBox.t) :
  In (idx, bbox) entries ->
  match crop_bounding_box w image bbox with
  | Raise e =>
      In (crop_error idx image_index e)
         (ls_errors (fold_left (crop_step w request image_url job_dir image_index image)
                               entries st))
  | Ret cropped =>
      match jpeg w cropped with
      | Raise e =>
          In (crop_error idx image_index e)
             (ls_errors (fold_left
                           (crop_step w request image_url job_dir image_index image)
                           entries st))
      | Ret img_bytes =>
          exists label,
            In (artifact w image_url job_dir image_index idx bbox cropped img_bytes label)
               (ls_saved (fold_left
                            (crop_step w request image_url job_dir image_index image)
                            entries st))
      end
  end.
Proof.
  revert st. induction entries as [| [i b] entries IH]; intros st Hin; [contradiction |].
  cbn [fold_left].
  destruct Hin as [Heq | Hin]; [| apply IH; exact Hin].
  injection Heq as -> ->.
  destruct (crop_fold_errors w request image_url job_dir image_index image entries
              (crop_step w request image_url job_dir image_index image st (idx, bbox)))
    as (more_e & -> & _).
  destruct (crop_fold_saved_prefix entries
              (crop_step w request image_url job_dir image_index image st (idx, bbox)))
    as (more_s & ->).
  destruct (crop_step_full st idx bbox)
    as [(e & Ec & Es) | [(cropped & e & Ec & Ej & _ & Ee)
                        | (cropped & img_bytes & Ec & Ej & Es & _)]].
  - rewrite Ec, Es. cbn [ls_errors].
    apply in_or_app. left. apply in_or_app. right. left. reflexivity.
  - rewrite Ec, Ej, Ee.
    apply in_or_app. left. apply in_or_app. right. left. reflexivity.
  - rewrite Ec, Ej, Es. eexists.
    apply in_or_app. left. apply in_or_app. right. left. reflexivity.
Qed.

(** Every artifact of the result is the record of an accepted, encoded
    box of the entries. *)
Lemma crop_fold_artifacts (entries : list (Z * BoundingBox.t)) (st : LoopState)
  (f : SavedFile) :
  In f (ls_saved (fold_left (crop_step w request image_url job_dir image_index image)
                            entries st)) ->
  In f (ls_saved st) \/
  exists idx bbox cropped img_bytes n,
    In (idx, bbox) entries /\
    crop_bounding_box w image bbox = Ret cropped /\
    jpeg w cropped = Ret img_bytes /\
    f = artifact w image_url job_dir image_index idx bbox cropped img_bytes
                 (loop_label request n idx bbox).
Proof.
  revert st. induction entries as [| [idx bbox] entries IH]; intros st H;
    cbn [fold_left] in H; [left; exact H |].
  apply IH in H.
  destruct H as [H | (i & b & c & y & n & Hin & Hc & Hj & Hf)].
  - destruct (crop_step_full st idx bbox)
      as [(e & _ & Es) | [(cropped & e & _ & _ & Es & _)
                          | (cropped & img_bytes & Ec & Ej & Es & _)]];
      rewrite Es in H.
    + left. exact H.
    + left. exact H.
    + apply in_app_or in H. destruct H as [H | [<- | []]]; [left; exact H |].
      right. exists idx, bbox, cropped, img_bytes, (window_count st).
      repeat split; try assumption. left. reflexivity.
  - right. exists i, b, c, y, n. repeat split; try assumption. right. exact Hin.
Qed.

(** In windows-only mode, with an encoder that does not fail, the new
    artifacts are labelled [window_<k>] with consecutive numbers. *)
Lemma crop_fold_window_labels (entries : list (Z * BoundingBox.t)) (st : LoopState) :
  detect_windows_only request = true ->
  (forall img, returns (jpeg w img) = true) ->
  exists more,
    ls_saved (fold_left (crop_step w request image_url job_dir image_index image)
                        entries st)
    = ls_saved st ++ more /\
    map sf_label more = window_labels (window_count st + 1) (List.length more).
Proof.
  intros Hw Hj. revert st.
  induction entries as [| [idx bbox] entries IH]; intros st; cbn [fold_left].
  - exists []. rewrite app_nil_r. split; reflexivity.
  - destruct (IH (crop_step w request image_url job_dir image_index image
                            st (idx, bbox))) as (more & -> & Hl).
    destruct (crop_step_full st idx bbox)
      as [(e & _ & Es) | [(cropped & e & _ & Ej & _)
                          | (cropped & img_bytes & _ & _ & Es & _ & En)]].
    + rewrite Es in *. cbn [ls_saved window_count] in *.
      exists more. split; [reflexivity | exact Hl].
    + specialize (Hj cropped). rewrite Ej in Hj. discriminate Hj.
    + rewrite Es. rewrite En in Hl. rewrite Hw, orb_true_r in Hl.
      eexists (_ :: more). rewrite <- app_assoc. split; [reflexivity |].
      cbn [map List.length window_labels]. rewrite Hl.
      unfold artifact, loop_label. rewrite Hw, orb_true_r. reflexivity.
Qed.
End CropLoopMore.

Lemma enumerate_from_nth {A : Type} (l : list A) (start : Z) (k : nat) (a : A) :
  nth_error l k = Some a -> In (start + Z.of_nat k, a) (enumerate_from start l).
Proof.
  revert start k. induction l as [| c l IH]; intros start k H.
  - destruct k; discriminate H.
  - destruct k as [| k]; simpl in H.
    + injection H as <-. left. f_equal. simpl. lia.
    + right. replace (start + Z.of_nat (S k)) with (start + 1 + Z.of_nat k) by lia.
      apply IH. exact H.
Qed.

Lemma enumerate_from_length {A : Type} (l : list A) (start : Z) :
  List.length (enumerate_from start l) = List.length l.
Proof.
  revert start. induction l as [| a l IH]; intros start; simpl;
    [reflexivity | rewrite IH; reflexivity].
Qed.

(** [process_single_image] on a downloaded image when detection is not
    requested. *)
Lemma process_single_image_supplied
  (w : World) (url : string) (request : CropRequest) (job_dir : string)
  (image_index : Z) (image : Image.t) :
  fetch w url = Ret image ->
  use_detection request = false ->
  process_single_image w url request job_dir image_index
  = if truthy (bounding_boxes request) then
      Ret (ls_saved (crop_loop w request url job_dir image_index image []
                               (boxes_or_nil (bounding_boxes request))),
           ls_errors (crop_loop w request url job_dir image_index image []
                                (boxes_or_nil (bounding_boxes request))))
    else Ret ([], [no_boxes_error image_index]).
Proof.
  intros Hf Hu.
  unfold process_single_image, process_single_image_body, download_image, resolve_boxes.
  rewrite Hf, Hu. destruct (truthy (bounding_boxes request)); reflexivity.
Qed.

(** [process_single_image] on a downloaded image when detection is
    requested and returns. *)
Lemma process_single_image_detected
  (w : World) (url : string) (request : CropRequest) (job_dir : string)
  (image_index : Z) (image : Image.t) (detected : list BoundingBox.t) :
  fetch w url = Ret image ->
  use_detection request = true ->
  snd (detect_objects w image (confidence_threshold request)
                      (detect_windows_only request)) = Ret detected ->
  process_single_image w url request job_dir image_index
  = match detected with
    | [] => Ret ([], [no_objects_error request image_index])
    | _ :: _ =>
        Ret (ls_saved (crop_loop w request url job_dir image_index image [] detected),
             ls_errors (crop_loop w request url job_dir image_index image [] detected))
    end.
Proof.
  intros Hf Hu Hd.
  unfold process_single_image, process_single_image_body, download_image, resolve_boxes.
  rewrite Hf, Hu, Hd. destruct detected; reflexivity.
Qed.

(** X14: per-box failures never abort an image.  For a downloaded image
    with a non-empty resolved list of boxes (supplied, or detected),
    [process_single_image] returns, the artifacts and the errors together
    number as many as the boxes, and every box leaves its trace under its
    own position: an error string when the crop is rejected or the
    encoding fails, an artifact otherwise. *)
Theorem every_box_is_accounted_for :
  forall (w : World) (url : string) (request : CropRequest) (job_dir : string)
         (image_index : Z) (image : Image.t) (boxes : list BoundingBox.t),
    fetch w url = Ret image ->
    boxes <> [] ->
    (use_detection request = false /\ bounding_boxes request = Some boxes \/
     use_detection request = true /\
     snd (detect_objects w image (confidence_threshold request)
                         (detect_windows_only request)) = Ret boxes) ->
    exists saved errs,
      process_single_image w url request job_dir image_index = Ret (saved, errs) /\
      (List.length saved + List.length errs = List.length boxes)%nat /\
      forall (k : nat) (bbox : BoundingBox.t),
        nth_error boxes k = Some bbox ->
        match crop_bounding_box w image bbox with
        | Raise e => In (crop_error (Z.of_nat k) image_index e) errs
        | Ret cropped =>
            match jpeg w cropped with
            | Raise e => In (crop_error (Z.of_nat k) image_index e) errs
            | Ret img_bytes =>
                exists label,
                  In (artifact w url job_dir image_index (Z.of_nat k) bbox
                               cropped img_bytes label) saved
            end
        end.
Proof.
  intros w url request job_dir image_index image boxes Hf Hne Hres.
  exists (ls_saved (crop_loop w request url job_dir image_index image [] boxes)),
         (ls_errors (crop_loop w request url job_dir image_index image [] boxes)).
  split; [| split].
  - destruct Hres as [(Hu & Hb) | (Hu & Hd)].
    + rewrite (process_single_image_supplied w url request job_dir image_index image Hf Hu).
      rewrite Hb. destruct boxes; [contradiction | reflexivity].
    + rewrite (process_single_image_detected w url request job_dir image_index image
                 boxes Hf Hu Hd).
      destruct boxes; [contradiction | reflexivity].
  - unfold crop_loop. rewrite crop_fold_count. cbn.
    unfold enumerate. rewrite enumerate_from_length. reflexivity.
  - intros k bbox Hk. unfold crop_loop.
    apply crop_fold_trace. unfold enumerate.
    apply (enumerate_from_nth boxes 0 k bbox Hk).
Qed.

Lemma every_box_is_accounted_for_witness :
  exists saved errs,
    process_single_image Fixture.bare Fixture.url_a DetectorFixture.three_box_request
      "/job" 0 = Ret (saved, errs) /\
    (List.length saved + List.length errs
     = List.length [Fixture.box 10 10 50 50; Fixture.box 200 200 5 5;
                    Fixture.box 0 0 20 20])%nat /\
    forall (k : nat) (bbox : BoundingBox.t),
      nth_error [Fixture.box 10 10 50 50; Fixture.box 200 200 5 5;
                 Fixture.box 0 0 20 20] k = Some bbox ->
      match crop_bounding_box Fixture.bare (Fixture.blank 100 100) bbox with
      | Raise e => In (crop_error (Z.of_nat k) 0 e) errs
      | Ret cropped =>
          match jpeg Fixture.bare cropped with
          | Raise e => In (crop_error (Z.of_nat k) 0 e) errs
          | Ret img_bytes =>
              exists label,
                In (artifact Fixture.bare Fixture.url_a "/job" 0 (Z.of_nat k) bbox
                             cropped img_bytes label) saved
          end
      end.
Proof.
  apply (every_box_is_accounted_for Fixture.bare Fixture.url_a
           DetectorFixture.three_box_request "/job" 0 (Fixture.blank 100 100)
           [Fixture.box 10 10 50 50; Fixture.box 200 200 5 5; Fixture.box 0 0 20 20]).
  - reflexivity.
  - discriminate.
  - left. split; reflexivity.
Defined.

(** The run behind the witness: two artifacts, and one error for the box
    at position 2. *)
Example three_boxes_one_rejected :
  option_map (fun r => (map sf_filename (fst r), snd r))
    (match process_single_image Fixture.bare Fixture.url_a
             DetectorFixture.three_box_request "/job" 0 with
     | Ret r => Some r
     | Raise _ => None
     end)
  = Some (["001_crop_1.jpg"; "003_crop_3.jpg"],
          ["Failed to crop box 2 from image 1: 400: Invalid bounding box: x=? y=? width=? height=? label=?"]).
Proof. vm_compute. reflexivity. Qed.

(** A returning call either skipped the image with one error or ran the
    crop loop over the resolved boxes. *)
Lemma process_single_image_inv
  (w : World) (url : string) (request : CropRequest) (job_dir : string)
  (image_index : Z) (saved : list SavedFile) (errs : list string) :
  process_single_image w url request job_dir image_index = Ret (saved, errs) ->
  exists image,
    fetch w url = Ret image /\
    ((saved = [] /\ exists e, errs = [e]) \/
     exists boxes,
       saved = ls_saved (crop_loop w request url job_dir image_index image [] boxes) /\
       errs = ls_errors (crop_loop w request url job_dir image_index image [] boxes)).
Proof.
  intros H.
  destruct (download_image_cases w url) as [(image & Ef & _) | (e & Ef & _)].
  2:{ rewrite (process_single_image_download_failure w url request job_dir
                 image_index e Ef) in H. discriminate H. }
  exists image. split; [exact Ef |].
  destruct (use_detection request) eqn:Hu.
  - destruct (snd (detect_objects w image (confidence_threshold request)
                                  (detect_windows_only request)))
      as [detected | e] eqn:Hd.
    + rewrite (process_single_image_detected w url request job_dir image_index image
                 detected Ef Hu Hd) in H.
      destruct detected as [| b bs]; injection H as <- <-.
      * left. split; [reflexivity | eexists; reflexivity].
      * right. exists (b :: bs). split; reflexivity.
    + exfalso.
      pose proof (detect_objects_raises_http_only w image _ _ e Hd) as Hh.
      unfold process_single_image, process_single_image_body, download_image,
        resolve_boxes in H.
      rewrite Ef, Hu, Hd in H.
      destruct e; try discriminate Hh. discriminate H.
  - rewrite (process_single_image_supplied w url request job_dir image_index image
               Ef Hu) in H.
    destruct (truthy (bounding_boxes request)); injection H as <- <-.
    + right. eexists. split; reflexivity.
    + left. split; [reflexivity | eexists; reflexivity].
Qed.

(** X15: in windows-only mode, with an encoder that does not fail, the
    artifacts of an image are labelled [window_1], [window_2], ... in
    order, whatever labels the boxes carried. *)
Theorem windows_only_labels_are_consecutive :
  forall (w : World) (url : string) (request : CropRequest) (job_dir : string)
         (image_index : Z) (saved : list SavedFile) (errs : list string),
    detect_windows_only request = true ->
    (forall img, returns (jpeg w img) = true) ->
    process_single_image w url request job_dir image_index = Ret (saved, errs) ->
    map sf_label saved = window_labels 1 (List.length saved).
Proof.
  intros w url request job_dir image_index saved errs Hw Hj H.
  apply process_single_image_inv in H.
  destruct H as (image & _ & [(-> & _) | (boxes & -> & _)]); [reflexivity |].
  unfold crop_loop.
  destruct (crop_fold_window_labels w request url job_dir image_index image
              (enumerate boxes)
              {| window_count := 0; ls_saved := []; ls_errors := [] |} Hw Hj)
    as (more & -> & Hl).
  exact Hl.
Qed.

Lemma windows_only_labels_are_consecutive_witness :
  map sf_label
    (ls_saved (crop_loop DetectorFixture.cv2_only DetectorFixture.windows_request
                 Fixture.url_a "/job" 0 (Fixture.blank 100 100) []
                 [BoundingBox.Build 0 0 10 11 (Some "window");
                  BoundingBox.Build 50 50 5 5 (Some "window")]))
  = window_labels 1
      (List.length
         (ls_saved (crop_loop DetectorFixture.cv2_only DetectorFixture.windows_request
                      Fixture.url_a "/job" 0 (Fixture.blank 100 100) []
                      [BoundingBox.Build 0 0 10 11 (Some "window");
                       BoundingBox.Build 50 50 5 5 (Some "window")]))).
Proof.
  apply (windows_only_labels_are_consecutive DetectorFixture.cv2_only Fixture.url_a
           DetectorFixture.windows_request "/job" 0 _
           (ls_errors (crop_loop DetectorFixture.cv2_only DetectorFixture.windows_request
                         Fixture.url_a "/job" 0 (Fixture.blank 100 100) []
                         [BoundingBox.Build 0 0 10 11 (Some "window");
                          BoundingBox.Build 50 50 5 5 (Some "window")]))).
  - reflexivity.
  - intros img. reflexivity.
  - vm_compute. reflexivity.
Defined.

Lemma process_single_image_ignores_boxes
  (w : World) (url : string) (request : CropRequest) (job_dir : string)
  (image_index : Z) (boxes : option (list BoundingBox.t)) :
  use_detection request = true ->
  process_single_image w url (with_boxes request boxes) job_dir image_index
  = process_single_image w url request job_dir image_index.
Proof.
  intros Hu.
  unfold process_single_image, process_single_image_body.
  destruct (download_image w url) as [image | e]; [| reflexivity].
  unfold resolve_boxes. cbn [with_boxes use_detection confidence_threshold
                             detect_windows_only bounding_boxes].
  rewrite Hu.
  destruct (snd (detect_objects w image (confidence_threshold request)
                                (detect_windows_only request)))
    as [detected | e] eqn:Hd.
  - destruct detected; reflexivity.
  - apply detect_objects_raises_http_only in Hd.
    destruct e; try discriminate Hd. reflexivity.
Qed.

Lemma job_loop_ext
  (p1 p2 : string -> CropRequest -> string -> Z -> res (list SavedFile * list string))
  (r1 r2 : CropRequest) (job_dir : string) (entries : list (Z * string))
  (saved : list SavedFile) (errs : list string) :
  (forall url idx, p1 url r1 job_dir idx = p2 url r2 job_dir idx) ->
  job_loop p1 r1 job_dir entries saved errs = job_loop p2 r2 job_dir entries saved errs.
Proof.
  intros H. revert saved errs.
  induction entries as [| [idx url] entries IH]; intros saved errs; cbn [job_loop];
    [reflexivity |].
  rewrite H.
  destruct (p2 url r2 job_dir idx) as [[s e] | ex]; [apply IH |].
  destruct ex; try apply IH. reflexivity.
Qed.

(** X16: when detection is requested, the supplied [bounding_boxes] have
    no influence on the response: replacing them by any other list, or by
    none, gives the same result. *)
Theorem detection_ignores_supplied_boxes :
  forall (w : World) (request : CropRequest) (boxes : option (list BoundingBox.t)),
    use_detection request = true ->
    crop_image w (with_boxes request boxes) = crop_image w request.
Proof.
  intros w request boxes Hu.
  unfold crop_image.
  change (get_image_urls (with_boxes request boxes)) with (get_image_urls request).
  destruct (get_image_urls request) as [urls | e]; [| reflexivity].
  destruct (mkdir w (job_dir_of w)); [| reflexivity].
  rewrite (job_loop_ext (process_single_image w) (process_single_image w)
             (with_boxes request boxes) request (job_dir_of w) (enumerate urls) [] []).
  - reflexivity.
  - intros url idx. apply process_single_image_ignores_boxes. exact Hu.
Qed.

Lemma detection_ignores_supplied_boxes_witness :
  crop_image DetectorFixture.model_only (with_boxes DetectorFixture.windows_request None)
  = crop_image DetectorFixture.model_only DetectorFixture.windows_request.
Proof.
  apply (detection_ignores_supplied_boxes DetectorFixture.model_only
           DetectorFixture.windows_request None).
  reflexivity.
Defined.

(* ================================================================= *)
(** ** The job, continued *)

Lemma no_boxes_errors_length (first : Z) (n : nat) :
  List.length (no_boxes_errors first n) = n.
Proof.
  revert first. induction n as [| n IH]; intros first; simpl;
    [reflexivity | rewrite IH; reflexivity].
Qed.

Lemma job_loop_without_boxes
  (w : World) (request : CropRequest) (job_dir : string)
  (urls : list string) (start : Z) (saved : list SavedFile) (errs : list string) :
  use_detection request = false ->
  truthy (bounding_boxes request) = false ->
  (forall url, In url urls -> returns (fetch w url) = true) ->
  job_loop (process_single_image w) request job_dir (enumerate_from start urls) saved errs
  = Ret (saved, errs ++ no_boxes_errors start (List.length urls)).
Proof.
  intros Hu Hb. revert start saved errs.
  induction urls as [| url urls IH]; intros start saved errs Hf;
    cbn [enumerate_from job_loop List.length no_boxes_errors].
  - rewrite app_nil_r. reflexivity.
  - destruct (fetch w url) as [image | e] eqn:Ef.
    2:{ specialize (Hf url (or_introl eq_refl)). rewrite Ef in Hf. discriminate Hf. }
    rewrite (process_single_image_supplied w url request job_dir start image Ef Hu).
    rewrite Hb. rewrite IH by (intros u Hin; apply Hf; right; exact Hin).
    rewrite app_nil_r, <- app_assoc. reflexivity.
Qed.

(** X17: a job without detection and without supplied boxes still returns
    a report when its images download: it holds no artifact and exactly
    one error per image, in request order, each saying that no boxes were
    provided for the image at that 1-based position. *)
Theorem job_without_boxes_reports_each_image :
  forall (w : World) (request : CropRequest) (urls : list string),
    get_image_urls request = Ret urls ->
    mkdir w (job_dir_of w) = Ret tt ->
    use_detection request = false ->
    truthy (bounding_boxes request) = false ->
    (forall url, In url urls -> returns (fetch w url) = true) ->
    exists report,
      crop_image w request = Ret report /\
      status report = "success" /\
      images_processed report = Z.of_nat (List.length urls) /\
      saved_count report = 0 /\
      saved_files report = [] /\
      errors report = no_boxes_errors 0 (List.length urls) /\
      List.length (errors report) = List.length urls.
Proof.
  intros w request urls Hg Hm Hu Hb Hf.
  rewrite (crop_image_unfold w request urls Hg Hm).
  unfold enumerate.
  rewrite (job_loop_without_boxes w request (job_dir_of w) urls 0 [] [] Hu Hb Hf).
  eexists. split; [reflexivity |]. cbn.
  repeat split. apply no_boxes_errors_length.
Qed.

Lemma job_without_boxes_reports_each_image_witness :
  exists report,
    crop_image Fixture.bare DetectorFixture.empty_request = Ret report /\
    status report = "success" /\
    images_processed report = Z.of_nat (List.length [Fixture.url_a; Fixture.url_b]) /\
    saved_count report = 0 /\
    saved_files report = [] /\
    errors report = no_boxes_errors 0 (List.length [Fixture.url_a; Fixture.url_b]) /\
    List.length (errors report) = List.length [Fixture.url_a; Fixture.url_b].
Proof.
  apply (job_without_boxes_reports_each_image Fixture.bare DetectorFixture.empty_request
           [Fixture.url_a; Fixture.url_b]).
  - reflexivity.
  - reflexivity.
  - reflexivity.
  - reflexivity.
  - intros url [<- | [<- | []]]; reflexivity.
Defined.

Example job_without_boxes_errors :
  no_boxes_errors 0 2
  = ["No bounding boxes provided for image 1 and detection not enabled";
     "No bounding boxes provided for image 2 and detection not enabled"].
Proof. vm_compute. reflexivity. Qed.

Section JobConcat.
Variable w : World.
Variable request : CropRequest.
Variable job_dir : string.

Lemma job_loop_concat_forward
  (entries : list (Z * string)) (results : list (list SavedFile * list string))
  (saved : list SavedFile) (errs : list string) :
  results_of w request job_dir entries results ->
  job_loop (process_single_image w) request job_dir entries saved errs
  = Ret (saved ++ List.concat (map fst results), errs ++ List.concat (map snd results)).
Proof.
  intros H. revert saved errs.
  induction H as [| [idx url] [s e] entries results Hp _ IH]; intros saved errs;
    cbn [job_loop map List.concat].
  - rewrite !app_nil_r. reflexivity.
  - cbn [fst snd] in Hp. rewrite Hp, IH, <- !app_assoc. reflexivity.
Qed.

Lemma job_loop_concat_backward
  (entries : list (Z * string)) (saved : list SavedFile) (errs : list string)
  (saved' : list SavedFile) (errs' : list string) :
  job_loop (process_single_image w) request job_dir entries saved errs
  = Ret (saved', errs') ->
  exists results,
    results_of w request job_dir entries results /\
    saved' = saved ++ List.concat (map fst results) /\
    errs' = errs ++ List.concat (map snd results).
Proof.
  revert saved errs.
  induction entries as [| [idx url] entries IH]; intros saved errs H;
    cbn [job_loop] in H.
  - injection H as <- <-. exists []. rewrite !app_nil_r.
    split; [constructor | split; reflexivity].
  - destruct (process_single_image w url request job_dir idx) as [[s e] | ex] eqn:Ep.
    + apply IH in H. destruct H as (results & Hr & -> & ->).
      exists ((s, e) :: results). cbn [map List.concat fst snd].
      rewrite <- !app_assoc.
      split; [constructor; [exact Ep | exact Hr] | split; reflexivity].
    + apply process_single_image_raises_http_only in Ep.
      destruct ex; try discriminate Ep. discriminate H.
Qed.
End JobConcat.

(** X18: the report of a job is the concatenation of the per-image
    results in request order.  Once the job directory exists, the job
    returns a report exactly when [process_single_image] returns for every
    image, and then the artifacts and the errors of the report are those
    of the images, in order, and [saved_count] is the number of
    artifacts. *)
Theorem job_report_concatenates_image_results :
  forall (w : World) (request : CropRequest) (urls : list string),
    get_image_urls request = Ret urls ->
    mkdir w (job_dir_of w) = Ret tt ->
    (forall results,
        results_of w request (job_dir_of w) (enumerate urls) results ->
        exists report,
          crop_image w request = Ret report /\
          saved_files report = List.concat (map fst results) /\
          errors report = List.concat (map snd results)) /\
    (forall report,
        crop_image w request = Ret report ->
        exists results,
          results_of w request (job_dir_of w) (enumerate urls) results /\
          List.length results = List.length urls /\
          saved_files report = List.concat (map fst results) /\
          errors report = List.concat (map snd results) /\
          saved_count report = Z.of_nat (List.length (List.concat (map fst results)))).
Proof.
  intros w request urls Hg Hm.
  rewrite (crop_image_unfold w request urls Hg Hm).
  split.
  - intros results Hr.
    rewrite (job_loop_concat_forward w request (job_dir_of w) (enumerate urls)
               results [] [] Hr).
    eexists. split; [reflexivity |]. split; reflexivity.
  - intros report H.
    destruct (job_loop (process_single_image w) request (job_dir_of w)
                       (enumerate urls) [] []) as [[s e] | ex] eqn:El;
      [| discriminate H].
    injection H as <-.
    apply job_loop_concat_backward in El.
    destruct El as (results & Hr & -> & ->).
    exists results. cbn. repeat split; try assumption.
    apply Forall2_length in Hr. rewrite <- Hr.
    unfold enumerate. apply enumerate_from_length.
Qed.

Lemma job_report_concatenates_image_results_witness :
  (forall results,
      results_of Fixture.bare Fixture.shared_box_request (job_dir_of Fixture.bare)
                 (enumerate [Fixture.url_a; Fixture.url_b]) results ->
      exists report,
        crop_image Fixture.bare Fixture.shared_box_request = Ret report /\
        saved_files report = List.concat (map fst results) /\
        errors report = List.concat (map snd results)) /\
  (forall report,
      crop_image Fixture.bare Fixture.shared_box_request = Ret report ->
      exists results,
        results_of Fixture.bare Fixture.shared_box_request (job_dir_of Fixture.bare)
                   (enumerate [Fixture.url_a; Fixture.url_b]) results /\
        List.length results = List.length [Fixture.url_a; Fixture.url_b] /\
        saved_files report = List.concat (map fst results) /\
        errors report = List.concat (map snd results) /\
        saved_count report = Z.of_nat (List.length (List.concat (map fst results)))).
Proof.
  apply (job_report_concatenates_image_results Fixture.bare Fixture.shared_box_request
           [Fixture.url_a; Fixture.url_b]); reflexivity.
Defined.

(** X19: [get_image_urls] prefers a non-empty [image_urls] over
    [image_url], falls back on [image_url] when the list is missing or
    empty, and never returns an empty list; when neither names an image,
    [crop_image] fails with status 400 before it touches any collaborator,
    whatever the rest of the request says. *)
Theorem image_urls_take_priority :
  forall (request : CropRequest),
    match get_image_urls request with
    | Ret urls =>
        urls <> [] /\
        (truthy (image_urls request) = true -> image_urls request = Some urls) /\
        (truthy (image_urls request) = false ->
         exists u, image_url request = Some u /\ urls = [u])
    | Raise e =>
        truthy (image_urls request) = false /\
        image_url request = None /\
        forall w,
          crop_image w request
          = Raise (HTTPException 400 "Either image_url or image_urls must be provided")
    end.
Proof.
  intros request.
  unfold crop_image, get_image_urls, truthy.
  destruct (image_urls request) as [[| u us] |].
  - destruct (image_url request) as [v |].
    + split; [discriminate |]. split; [discriminate |].
      intros _. exists v. split; reflexivity.
    + repeat split.
  - split; [discriminate |]. split; [reflexivity | discriminate].
  - destruct (image_url request) as [v |].
    + split; [discriminate |]. split; [discriminate |].
      intros _. exists v. split; reflexivity.
    + repeat split.
Qed.

Example request_without_image :
  crop_image Fixture.bare DetectorFixture.no_url_request
  = Raise (HTTPException 400 "Either image_url or image_urls must be provided").
Proof. reflexivity. Qed.

(* ================================================================= *)
(** ** File names, continued *)

Lemma all_chars_append (p : ascii -> bool) (s1 s2 : string) :
  all_chars p (String.append s1 s2) = (all_chars p s1 && all_chars p s2)%bool.
Proof.
  induction s1 as [| c s1 IH]; simpl; [reflexivity |].
  rewrite IH, andb_assoc. reflexivity.
Qed.

Lemma all_chars_impl (p q : ascii -> bool) (s : string) :
  (forall c, p c = true -> q c = true) ->
  all_chars p s = true -> all_chars q s = true.
Proof.
  intros H. induction s as [| c s IH]; simpl; [reflexivity |].
  rewrite !andb_true_iff. intros [Hc Hs]. split; [apply H, Hc | apply IH, Hs].
Qed.

Lemma digit_is_safe (c : ascii) : is_digit c = true -> safe_char c = true.
Proof.
  unfold is_digit, safe_char, Str.isalnum. intros ->. reflexivity.
Qed.

Lemma safe_is_no_separator (c : ascii) :
  safe_char c = true -> negb (Ascii.eqb c "/") = true.
Proof.
  destruct (Ascii.eqb c "/") eqn:E; [| reflexivity].
  apply Ascii.eqb_eq in E. subst c. discriminate.
Qed.

Lemma uint_digits (d : Decimal.uint) :
  all_chars is_digit (NilEmpty.string_of_uint d) = true.
Proof. induction d; simpl; try rewrite IHd; reflexivity. Qed.

Lemma of_int_digits (n : Z) :
  0 <= n -> all_chars is_digit (Str.of_int n) = true.
Proof.
  intros Hn. unfold Str.of_int.
  destruct n as [| p | p]; [reflexivity | | lia].
  cbn [Z.to_int NilZero.string_of_int]. unfold NilZero.string_of_uint.
  destruct (Pos.to_uint p) eqn:E; try reflexivity; rewrite <- E; apply uint_digits.
Qed.

Lemma of_int_safe (n : Z) : all_chars safe_char (Str.of_int n) = true.
Proof.
  destruct (Z.neg_nonneg_cases n) as [Hn | Hn].
  - destruct n as [| p | p]; try lia.
    unfold Str.of_int. cbn [Z.to_int NilZero.string_of_int all_chars].
    apply andb_true_iff. split; [reflexivity |].
    apply (all_chars_impl is_digit); [apply digit_is_safe |].
    exact (of_int_digits (Z.pos p) (Pos2Z.is_nonneg p)).
  - apply (all_chars_impl is_digit); [apply digit_is_safe | apply of_int_digits, Hn].
Qed.

Lemma zeros_digits (k : nat) : all_chars is_digit (Str.zeros k) = true.
Proof. induction k as [| k IH]; simpl; [reflexivity | exact IH]. Qed.

Lemma zfill_digits (k : nat) (s : string) :
  all_chars is_digit s = true -> all_chars is_digit (Str.zfill k s) = true.
Proof.
  intros H. unfold Str.zfill. rewrite all_chars_append, zeros_digits, H. reflexivity.
Qed.

Lemma format_03d_digits (n : Z) :
  0 <= n -> all_chars is_digit (Str.format_03d n) = true.
Proof.
  intros Hn. unfold Str.format_03d.
  destruct (n <? 0) eqn:E; [lia |].
  apply zfill_digits, of_int_digits, Hn.
Qed.

Lemma format_03d_safe (n : Z) : all_chars safe_char (Str.format_03d n) = true.
Proof.
  unfold Str.format_03d. destruct (n <? 0) eqn:E.
  - cbn [all_chars]. apply andb_true_iff. split; [reflexivity |].
    apply (all_chars_impl is_digit); [apply digit_is_safe |].
    apply zfill_digits, of_int_digits. lia.
  - apply (all_chars_impl is_digit); [apply digit_is_safe |].
    apply zfill_digits, of_int_digits. lia.
Qed.

Lemma sanitize_char_safe (c : ascii) : safe_char (sanitize_char c) = true.
Proof.
  unfold sanitize_char, safe_char.
  destruct (Str.isalnum c || Ascii.eqb c "-" || Ascii.eqb c "_")%bool eqn:E.
  - rewrite E. reflexivity.
  - reflexivity.
Qed.

Lemma sanitize_safe (label : string) : all_chars safe_char (sanitize label) = true.
Proof.
  unfold sanitize. induction label as [| c s IH]; simpl; [reflexivity |].
  rewrite sanitize_char_safe, IH. reflexivity.
Qed.

Lemma make_filename_safe (image_index idx : Z) (label : string) :
  all_chars safe_char (make_filename image_index idx (sanitize label)) = true.
Proof.
  unfold make_filename.
  destruct (image_index >? 0);
    rewrite ?all_chars_append, ?of_int_safe, ?format_03d_safe, ?sanitize_safe;
    reflexivity.
Qed.

(** X20: sanitising a label is idempotent, keeps its length, leaves a
    label of letters, digits, [-] and [_] as it is, and yields only such
    characters. *)
Theorem sanitize_is_a_projection :
  forall (label : string),
    sanitize (sanitize label) = sanitize label /\
    String.length (sanitize label) = String.length label /\
    all_chars (fun c => (Str.isalnum c || Ascii.eqb c "-" || Ascii.eqb c "_")%bool)
              (sanitize label) = true /\
    (all_chars (fun c => (Str.isalnum c || Ascii.eqb c "-" || Ascii.eqb c "_")%bool)
               label = true ->
     sanitize label = label).
Proof.
  intros label. unfold sanitize.
  induction label as [| c s (I1 & I2 & I3 & I4)]; simpl.
  - repeat split.
  - assert (K : (Str.isalnum (sanitize_char c) || Ascii.eqb (sanitize_char c) "-"
                 || Ascii.eqb (sanitize_char c) "_")%bool = true).
    { unfold sanitize_char.
      destruct (Str.isalnum c || Ascii.eqb c "-" || Ascii.eqb c "_")%bool eqn:E;
        [exact E | reflexivity]. }
    split; [| split; [| split]].
    + rewrite I1. f_equal. unfold sanitize_char at 1. rewrite K. reflexivity.
    + rewrite I2. reflexivity.
    + rewrite K, I3. reflexivity.
    + rewrite andb_true_iff. intros [Hc Hs].
      rewrite (I4 Hs). unfold sanitize_char. rewrite Hc. reflexivity.
Qed.

Lemma decode_zeros (k : nat) (s : string) :
  decode_digits (String.append (Str.zeros k) s) = decode_digits s.
Proof.
  unfold decode_digits. induction k as [| k IH]; simpl; [reflexivity |].
  destruct (NilEmpty.uint_of_string (String.append (Str.zeros k) s)) as [d |];
    destruct (NilEmpty.uint_of_string s) as [d' |]; simpl in *;
    try discriminate IH; [| reflexivity].
  injection IH as IH. f_equal. unfold Z.of_uint in *. simpl. exact IH.
Qed.

(** Reading the decimal digits of a number that is not negative gives the
    number back. *)
Lemma decode_of_int (n : Z) : 0 <= n -> decode_digits (Str.of_int n) = Some n.
Proof.
  intros Hn. unfold decode_digits, Str.of_int.
  destruct n as [| p | p]; [reflexivity | | lia].
  pose proof (DecimalZ.of_to (Z.pos p)) as R.
  cbn [Z.to_int Z.of_int] in R.
  cbn [Z.to_int NilZero.string_of_int]. unfold NilZero.string_of_uint.
  destruct (Pos.to_uint p) eqn:E;
    try (rewrite <- E, NilEmpty.usu; cbn [option_map]; rewrite E, R; reflexivity).
  cbn in R. discriminate R.
Qed.

Lemma decode_format_03d (n : Z) : 0 <= n -> decode_digits (Str.format_03d n) = Some n.
Proof.
  intros Hn. unfold Str.format_03d.
  destruct (n <? 0) eqn:E; [lia |].
  unfold Str.zfill. rewrite decode_zeros. apply decode_of_int, Hn.
Qed.

(** A run of digits followed by an underscore can be read off a string in
    one way only. *)
Lemma digits_then_underscore (d1 d2 r1 r2 : string) :
  all_chars is_digit d1 = true ->
  all_chars is_digit d2 = true ->
  String.append d1 (String "_" r1) = String.append d2 (String "_" r2) ->
  d1 = d2 /\ r1 = r2.
Proof.
  revert d2. induction d1 as [| c d1 IH]; intros d2 H1 H2 H.
  - destruct d2 as [| c2 d2]; simpl in H.
    + injection H as ->. split; reflexivity.
    + injection H as <- _. simpl in H2. discriminate H2.
  - destruct d2 as [| c2 d2]; simpl in H.
    + injection H as -> _. simpl in H1. discriminate H1.
    + injection H as -> H. simpl in H1, H2.
      apply andb_true_iff in H1, H2.
      destruct (IH d2 (proj2 H1) (proj2 H2) H) as [-> ->]. split; reflexivity.
Qed.

Lemma format_03d_head (n : Z) :
  0 <= n -> exists c rest, Str.format_03d n = String c rest /\ is_digit c = true.
Proof.
  intros Hn. pose proof (format_03d_digits n Hn) as D.
  pose proof (decode_format_03d n Hn) as R.
  destruct (Str.format_03d n) as [| c rest] eqn:E.
  - cbn in R. injection R as <-. vm_compute in E. discriminate E.
  - exists c, rest. simpl in D. apply andb_true_iff in D. split; [reflexivity | tauto].
Qed.

(** A file name determines the image and the box it was made for: two
    file names built for different pairs of image index and box position
    differ, whatever the labels. *)
Lemma make_filename_inj :
  forall (i1 j1 i2 j2 : Z) (s1 s2 : string),
    0 <= i1 -> 0 <= j1 -> 0 <= i2 -> 0 <= j2 ->
    make_filename i1 j1 s1 = make_filename i2 j2 s2 ->
    i1 = i2 /\ j1 = j2.
Proof.
  intros i1 j1 i2 j2 s1 s2 Hi1 Hj1 Hi2 Hj2 H.
  assert (J : forall r1 r2,
             String.append (Str.format_03d (j1 + 1)) (String "_" r1)
             = String.append (Str.format_03d (j2 + 1)) (String "_" r2) ->
             j1 = j2).
  { intros r1 r2 K.
    apply digits_then_underscore in K; try (apply format_03d_digits; lia).
    destruct K as [K _].
    pose proof (decode_format_03d (j1 + 1) ltac:(lia)) as D1.
    pose proof (decode_format_03d (j2 + 1) ltac:(lia)) as D2.
    rewrite K, D2 in D1. injection D1 as D1. lia. }
  unfold make_filename in H.
  destruct (i1 >? 0) eqn:E1; destruct (i2 >? 0) eqn:E2.
  - cbn [String.append] in H. injection H as H.
    apply digits_then_underscore in H; try (apply of_int_digits; lia).
    destruct H as [Hi Hr].
    pose proof (decode_of_int (i1 + 1) ltac:(lia)) as D1.
    pose proof (decode_of_int (i2 + 1) ltac:(lia)) as D2.
    rewrite Hi, D2 in D1. injection D1 as D1.
    split; [lia | exact (J _ _ Hr)].
  - exfalso.
    destruct (format_03d_head (j2 + 1) ltac:(lia)) as (c & rest & Ef & Hd).
    rewrite Ef in H. cbn [String.append] in H. injection H as <- _.
    discriminate Hd.
  - exfalso.
    destruct (format_03d_head (j1 + 1) ltac:(lia)) as (c & rest & Ef & Hd).
    rewrite Ef in H. cbn [String.append] in H. injection H as -> _.
    discriminate Hd.
  - cbn [String.append] in H. split; [lia | exact (J _ _ H)].
Qed.

Section CropLoopNames.
Variable w : World.
Variable request : CropRequest.
Variable image_url : string.
Variable job_dir : string.
Variable image_index : Z.
Variable image : Image.t.
Hypothesis image_index_nonneg : 0 <= image_index.

(** The artifacts a run of the loop adds carry file names of box
    positions from [start] on, no two of them the same. *)
Lemma crop_fold_names (boxes : list BoundingBox.t) (start : Z) (st : LoopState) :
  0 <= start ->
  exists more,
    ls_saved (fold_left (crop_step w request image_url job_dir image_index image)
                        (enumerate_from start boxes) st)
    = ls_saved st ++ more /\
    Forall (fun f => exists idx label,
                start <= idx /\ sf_filename f = make_filename image_index idx label)
           more /\
    distinct_filenames more.
Proof.
  revert start st. induction boxes as [| bbox boxes IH]; intros start st Hs;
    cbn [enumerate_from fold_left].
  - exists []. rewrite app_nil_r. repeat split; constructor.
  - destruct (IH (start + 1)
                 (crop_step w request image_url job_dir image_index image
                            st (start, bbox)) ltac:(lia))
      as (more & -> & Hf & Hd).
    assert (Hf' : Forall (fun f => exists idx label,
                              start <= idx /\
                              sf_filename f = make_filename image_index idx label) more).
    { eapply Forall_impl; [| exact Hf].
      intros f (idx & label & Hi & Hn). exists idx, label. split; [lia | exact Hn]. }
    destruct (crop_step_full w request image_url job_dir image_index image st start bbox)
      as [(e & _ & Es) | [(cropped & e & _ & _ & Es & _)
                          | (cropped & img_bytes & _ & _ & Es & _)]];
      rewrite Es.
    + exists more. cbn [ls_saved]. repeat split; assumption.
    + exists more. repeat split; assumption.
    + eexists (_ :: more). rewrite <- app_assoc. split; [reflexivity |]. split.
      * constructor; [| exact Hf'].
        eexists start, _. split; [lia | reflexivity].
      * constructor; [| exact Hd].
        rewrite Forall_forall in *. intros g Hg.
        destruct (Hf g Hg) as (idx & label & Hi & Hn).
        cbn [artifact sf_filename]. rewrite Hn. intros K.
        apply make_filename_inj in K; lia.
Qed.
End CropLoopNames.

Lemma FOP_map {A B : Type} (f : A -> B) (R : B -> B -> Prop) (l : list A) :
  ForallOrdPairs (fun a b => R (f a) (f b)) l -> ForallOrdPairs R (map f l).
Proof.
  induction 1 as [| a l Ha _ IH]; simpl; constructor; [| exact IH].
  rewrite Forall_forall in *. intros b Hb.
  apply in_map_iff in Hb. destruct Hb as (x & <- & Hx). apply Ha, Hx.
Qed.

(** The artifacts a run of the job loop adds carry file names of image
    indices from [start] on, no two of them the same. *)
Lemma job_loop_names
  (w : World) (request : CropRequest) (job_dir : string)
  (urls : list string) (start : Z) (saved : list SavedFile) (errs : list string)
  (saved' : list SavedFile) (errs' : list string) :
  0 <= start ->
  job_loop (process_single_image w) request job_dir (enumerate_from start urls) saved errs
  = Ret (saved', errs') ->
  exists more,
    saved' = saved ++ more /\
    Forall (fun f => exists i idx label,
                start <= i /\ 0 <= idx /\ sf_filename f = make_filename i idx label)
           more /\
    distinct_filenames more.
Proof.
  revert start saved errs.
  induction urls as [| url urls IH]; intros start saved errs Hs H;
    cbn [enumerate_from job_loop] in H.
  - injection H as <- <-. exists []. rewrite app_nil_r. repeat split; constructor.
  - destruct (process_single_image w url request job_dir start) as [[s e] | ex] eqn:Ep.
    2:{ apply process_single_image_raises_http_only in Ep.
        destruct ex; try discriminate Ep. discriminate H. }
    apply IH in H; [| lia]. destruct H as (more & -> & Hf & Hd).
    assert (S : Forall (fun f => exists idx label,
                            0 <= idx /\ sf_filename f = make_filename start idx label) s
                /\ distinct_filenames s).
    { apply process_single_image_inv in Ep.
      destruct Ep as (image & _ & [(-> & _) | (boxes & -> & _)]).
      - split; constructor.
      - unfold crop_loop, enumerate.
        destruct (crop_fold_names w request url job_dir start image Hs boxes 0
                    {| window_count := 0; ls_saved := []; ls_errors := [] |}
                    ltac:(lia)) as (m & -> & Hm & Hdm).
        split; assumption. }
    destruct S as [Sf Sd].
    exists (s ++ more). rewrite app_assoc. split; [reflexivity |]. split.
    + apply Forall_app. split.
      * eapply Forall_impl; [| exact Sf].
        intros f (idx & label & Hi & Hn). exists start, idx, label.
        repeat split; [lia | exact Hi | exact Hn].
      * eapply Forall_impl; [| exact Hf].
        intros f (i & idx & label & Hi & Hx & Hn). exists i, idx, label.
        repeat split; [lia | exact Hx | exact Hn].
    + apply FOP_app. repeat split; [exact Sd | exact Hd |].
      intros f g Hfin Hgin.
      rewrite Forall_forall in Sf, Hf.
      destruct (Sf f Hfin) as (idx & label & Hi & Hn).
      destruct (Hf g Hgin) as (i' & idx' & label' & Hi' & Hx' & Hn').
      rewrite Hn, Hn'. intros K. apply make_filename_inj in K; lia.
Qed.

(** X21: no two artifacts of a report share a file name: the box position
    tells the artifacts of one image apart and the image index those of
    different images, so the local copies of a job never overwrite one
    another. *)
Theorem job_filenames_are_distinct :
  forall (w : World) (request : CropRequest) (report : JobReport),
    crop_image w request = Ret report ->
    distinct_filenames (saved_files report) /\
    NoDup (map sf_filename (saved_files report)).
Proof.
  intros w request report H.
  assert (D : distinct_filenames (saved_files report)).
  { unfold crop_image in H.
    destruct (get_image_urls request) as [urls | e]; [| destruct e; discriminate H].
    destruct (mkdir w (job_dir_of w)); [| discriminate H].
    destruct (job_loop (process_single_image w) request (job_dir_of w)
                       (enumerate urls) [] []) as [[s e] | ex] eqn:El;
      [| discriminate H].
    injection H as <-. cbn [saved_files].
    apply job_loop_names in El; [| lia].
    destruct El as (more & -> & _ & Hd). exact Hd. }
  split; [exact D |].
  apply NoDup_iff_ForallOrdPairs, FOP_map. exact D.
Qed.

Lemma job_filenames_are_distinct_witness :
  distinct_filenames
    [ {| sf_url := "data:image/jpeg;base64,JFIF";
         sf_path := "/srv/cropped_images/20240101_000000_0f3c/001_crop_1.jpg";
         sf_filename := "001_crop_1.jpg";
         sf_label := "crop_1";
         sf_source_image := Fixture.url_a;
         sf_image_index := 1;
         sf_dimensions := (50, 50);
         sf_bbox := (10, 10, 50, 50) |};
      {| sf_url := "data:image/jpeg;base64,JFIF";
         sf_path := "/srv/cropped_images/20240101_000000_0f3c/img2_001_crop_1.jpg";
         sf_filename := "img2_001_crop_1.jpg";
         sf_label := "crop_1";
         sf_source_image := Fixture.url_b;
         sf_image_index := 2;
         sf_dimensions := (50, 50);
         sf_bbox := (10, 10, 50, 50) |} ] /\
  NoDup ["001_crop_1.jpg"; "img2_001_crop_1.jpg"].
Proof.
  apply (job_filenames_are_distinct Fixture.bare Fixture.shared_box_request
           {| status := "success";
              job_id := "0f3c";
              output_dir := "/srv/cropped_images/20240101_000000_0f3c";
              images_processed := 2;
              saved_count := 2;
              saved_files :=
                [ {| sf_url := "data:image/jpeg;base64,JFIF";
                     sf_path := "/srv/cropped_images/20240101_000000_0f3c/001_crop_1.jpg";
                     sf_filename := "001_crop_1.jpg";
                     sf_label := "crop_1";
                     sf_source_image := Fixture.url_a;
                     sf_image_index := 1;
                     sf_dimensions := (50, 50);
                     sf_bbox := (10, 10, 50, 50) |};
                  {| sf_url := "data:image/jpeg;base64,JFIF";
                     sf_path :=
                       "/srv/cropped_images/20240101_000000_0f3c/img2_001_crop_1.jpg";
                     sf_filename := "img2_001_crop_1.jpg";
                     sf_label := "crop_1";
                     sf_source_image := Fixture.url_b;
                     sf_image_index := 2;
                     sf_dimensions := (50, 50);
                     sf_bbox := (10, 10, 50, 50) |} ];
              errors := [] |}).
  vm_compute. reflexivity.
Defined.

Lemma enumerate_from_bound {A : Type} (l : list A) (start idx : Z) (a : A) :
  In (idx, a) (enumerate_from start l) ->
  start <= idx < start + Z.of_nat (List.length l) /\ In a l.
Proof.
  revert start. induction l as [| c l IH]; intros start H; simpl in H; [contradiction |].
  destruct H as [H | H].
  - injection H as <- <-. cbn [List.length]. split; [lia | left; reflexivity].
  - apply IH in H. cbn [List.length]. split; [lia | right; tauto].
Qed.

Lemma results_of_In
  (w : World) (request : CropRequest) (job_dir : string)
  (entries : list (Z * string)) (results : list (list SavedFile * list string))
  (f : SavedFile) :
  results_of w request job_dir entries results ->
  In f (List.concat (map fst results)) ->
  exists idx url saved errs,
    In (idx, url) entries /\
    process_single_image w url request job_dir idx = Ret (saved, errs) /\
    In f saved.
Proof.
  induction 1 as [| [idx url] [s e] entries results Hp _ IH]; cbn [map List.concat];
    [contradiction |].
  intros H. apply in_app_or in H. destruct H as [H | H].
  - exists idx, url, s, e. split; [left; reflexivity |]. split; [exact Hp | exact H].
  - destruct (IH H) as (i & u & s' & e' & Hin & Hp' & Hf).
    exists i, u, s', e'. split; [right; exact Hin |]. split; assumption.
Qed.

(** Every artifact of a report is the record the crop loop builds for an
    accepted and encoded box of a downloaded image of the job. *)
Lemma job_artifact_inv
  (w : World) (request : CropRequest) (urls : list string) (report : JobReport)
  (f : SavedFile) :
  get_image_urls request = Ret urls ->
  crop_image w request = Ret report ->
  In f (saved_files report) ->
  output_dir report = job_dir_of w /\
  images_processed report = Z.of_nat (List.length urls) /\
  exists url image_index image idx bbox cropped img_bytes label,
    In url urls /\
    0 <= image_index < Z.of_nat (List.length urls) /\
    0 <= idx /\
    fetch w url = Ret image /\
    crop_bounding_box w image bbox = Ret cropped /\
    jpeg w cropped = Ret img_bytes /\
    f = artifact w url (job_dir_of w) image_index idx bbox cropped img_bytes label.
Proof.
  intros Hg H Hf.
  unfold crop_image in H. rewrite Hg in H.
  destruct (mkdir w (job_dir_of w)); [| discriminate H].
  destruct (job_loop (process_single_image w) request (job_dir_of w)
                     (enumerate urls) [] []) as [[s e] | ex] eqn:El;
    [| discriminate H].
  injection H as <-. cbn [output_dir images_processed saved_files] in *.
  split; [reflexivity |]. split; [reflexivity |].
  apply job_loop_concat_backward in El.
  destruct El as (results & Hr & -> & _). cbn [app] in Hf.
  destruct (results_of_In w request (job_dir_of w) _ _ f Hr Hf)
    as (ii & url & saved & errs & Hin & Hp & Hfs).
  apply enumerate_from_bound in Hin. destruct Hin as [Hii Hurl].
  apply process_single_image_inv in Hp.
  destruct Hp as (image & Ef & [(-> & _) | (boxes & -> & _)]); [contradiction |].
  unfold crop_loop in Hfs. apply crop_fold_artifacts in Hfs.
  destruct Hfs as [[] | (idx & bbox & cropped & img_bytes & n & Hin & Hc & Hj & ->)].
  apply enumerate_from_In in Hin.
  exists url, ii, image, idx, bbox, cropped, img_bytes,
         (loop_label request n idx bbox).
  repeat split; try assumption; try lia.
Qed.

(** X22: the local copy of every artifact of a report lies directly in
    the job directory: its path is the directory of the report, a slash
    and its file name, and the file name consists of letters, digits, [-],
    [_] and [.] only, so it holds no path separator whatever the label of
    the box was.  Its image index is a 1-based position in the job. *)
Theorem artifacts_stay_in_the_job_directory :
  forall (w : World) (request : CropRequest) (urls : list string)
         (report : JobReport) (f : SavedFile),
    get_image_urls request = Ret urls ->
    crop_image w request = Ret report ->
    In f (saved_files report) ->
    sf_path f = String.append (output_dir report) (String.append "/" (sf_filename f)) /\
    all_chars safe_char (sf_filename f) = true /\
    all_chars (fun c => negb (Ascii.eqb c "/")) (sf_filename f) = true /\
    1 <= sf_image_index f <= images_processed report /\
    In (sf_source_image f) urls.
Proof.
  intros w request urls report f Hg H Hf.
  destruct (job_artifact_inv w request urls report f Hg H Hf)
    as (-> & -> & url & ii & image & idx & bbox & cropped & img_bytes & label
        & Hurl & Hii & _ & _ & _ & _ & ->).
  cbn [artifact sf_path sf_filename sf_image_index sf_source_image].
  pose proof (make_filename_safe ii idx label) as S.
  repeat split; try assumption; try lia.
  apply (all_chars_impl safe_char); [apply safe_is_no_separator | exact S].
Qed.

Lemma artifacts_stay_in_the_job_directory_witness :
  sf_path DetectorFixture.edge_job_artifact
  = String.append (output_dir DetectorFixture.edge_report)
      (String.append "/" (sf_filename DetectorFixture.edge_job_artifact)) /\
  all_chars safe_char (sf_filename DetectorFixture.edge_job_artifact) = true /\
  all_chars (fun c => negb (Ascii.eqb c "/"))
            (sf_filename DetectorFixture.edge_job_artifact) = true /\
  1 <= sf_image_index DetectorFixture.edge_job_artifact
    <= images_processed DetectorFixture.edge_report /\
  In (sf_source_image DetectorFixture.edge_job_artifact) [Fixture.url_a].
Proof.
  apply (artifacts_stay_in_the_job_directory Fixture.bare Fixture.edge_request
           [Fixture.url_a] DetectorFixture.edge_report
           DetectorFixture.edge_job_artifact).
  - reflexivity.
  - vm_compute. reflexivity.
  - left. reflexivity.
Defined.

(** X23: the reference of every artifact of a report is what
    [upload_to_cloud_storage] returns for the encoded crop under the
    artifact's file name: the URL of ImgBB when that store yields one,
    else the URL of Cloudinary when that store yields one, else the
    inline data URL of the encoded bytes; the dimensions are those of the
    crop. *)
Theorem artifact_reference_follows_store_order :
  forall (w : World) (request : CropRequest) (urls : list string)
         (report : JobReport) (f : SavedFile),
    get_image_urls request = Ret urls ->
    crop_image w request = Ret report ->
    In f (saved_files report) ->
    exists image bbox cropped img_bytes,
      fetch w (sf_source_image f) = Ret image /\
      crop_bounding_box w image bbox = Ret cropped /\
      jpeg w cropped = Ret img_bytes /\
      sf_dimensions f = (Image.width cropped, Image.height cropped) /\
      match imgbb w img_bytes (sf_filename f) with
      | Some url => sf_url f = url
      | None =>
          match cloudinary w img_bytes (sf_filename f) with
          | Some url => sf_url f = url
          | None =>
              sf_url f
              = String.append "data:image/jpeg;base64," (b64encode w img_bytes)
          end
      end.
Proof.
  intros w request urls report f Hg H Hf.
  destruct (job_artifact_inv w request urls report f Hg H Hf)
    as (_ & _ & url & ii & image & idx & bbox & cropped & img_bytes & label
        & _ & _ & _ & Ef & Hc & Hj & ->).
  exists image, bbox, cropped, img_bytes.
  cbn [artifact sf_source_image sf_dimensions sf_url sf_filename].
  repeat split; try assumption.
  unfold upload_to_cloud_storage.
  destruct (imgbb w img_bytes (make_filename ii idx (sanitize label)));
    [reflexivity |].
  destruct (cloudinary w img_bytes (make_filename ii idx (sanitize label)));
    reflexivity.
Qed.

Lemma artifact_reference_follows_store_order_witness :
  exists image bbox cropped img_bytes,
    fetch Fixture.bare (sf_source_image DetectorFixture.edge_job_artifact) = Ret image /\
    crop_bounding_box Fixture.bare image bbox = Ret cropped /\
    jpeg Fixture.bare cropped = Ret img_bytes /\
    sf_dimensions DetectorFixture.edge_job_artifact
    = (Image.width cropped, Image.height cropped) /\
    match imgbb Fixture.bare img_bytes (sf_filename DetectorFixture.edge_job_artifact) with
    | Some url => sf_url DetectorFixture.edge_job_artifact = url
    | None =>
        match cloudinary Fixture.bare img_bytes
                         (sf_filename DetectorFixture.edge_job_artifact) with
        | Some url => sf_url DetectorFixture.edge_job_artifact = url
        | None =>
            sf_url DetectorFixture.edge_job_artifact
            = String.append "data:image/jpeg;base64," (b64encode Fixture.bare img_bytes)
        end
    end.
Proof.
  apply (artifact_reference_follows_store_order Fixture.bare Fixture.edge_request
           [Fixture.url_a] DetectorFixture.edge_report
           DetectorFixture.edge_job_artifact).
  - reflexivity.
  - vm_compute. reflexivity.
  - left. reflexivity.
Defined.

(* ================================================================= *)
(** ** The gateway function *)

(** X24: every response of [handler] carries the header
    [Access-Control-Allow-Origin: *], whichever path produced it:
    preflight, rejection, failure or the answer of the API. *)
Theorem every_response_allows_any_origin :
  forall (env : Gateway.Env) (req : Gateway.Request),
    In ("Access-Control-Allow-Origin", "*")
       (Gateway.headers (snd (Gateway.handler env req))).
Proof.
  intros env req. unfold Gateway.handler.
  destruct (String.eqb (Gateway.method req) "OPTIONS"); [left; reflexivity |].
  destruct (Gateway.parse_body env (Gateway.body req)) as [data | e];
    [| right; left; reflexivity].
  destruct (Gateway.contains_key "image_url" data) as [[|] | e];
    try (right; left; reflexivity).
  destruct (Gateway.build_payload data) as [payload | e];
    [| right; left; reflexivity].
  destruct (Gateway.post env _ payload) as [[status_code text] | e];
    right; left; reflexivity.
Qed.

(** X25: a body without the key [image_url] is rejected by the gateway
    itself with status 400, without any call of the API; this is the case
    for a missing body and for an empty [bytes] body, which are never
    parsed, and for any JSON object that lacks the key. *)
Theorem missing_image_url_is_rejected_locally :
  forall (env : Gateway.Env) (req : Gateway.Request),
    String.eqb (Gateway.method req) "OPTIONS" = false ->
    (Gateway.body req = Gateway.BodyNone \/
     Gateway.body req = Gateway.BodyBytes "" \/
     exists d, Gateway.parse_body env (Gateway.body req) = Ret (Gateway.JDict d) /\
               Gateway.lookup "image_url" d = None) ->
    Gateway.handler env req
    = ([], {| Gateway.statusCode := 400;
              Gateway.headers := Gateway.json_headers;
              Gateway.response_body :=
                Gateway.dumps_error env "image_url is required" |}).
Proof.
  intros env req Hm Hb. unfold Gateway.handler. rewrite Hm.
  assert (P : exists d, Gateway.parse_body env (Gateway.body req)
                        = Ret (Gateway.JDict d) /\
                        Gateway.lookup "image_url" d = None).
  { destruct Hb as [Hb | [Hb | Hb]]; [| | exact Hb];
      rewrite Hb; exists []; split; reflexivity. }
  destruct P as (d & -> & Hl). cbn [Gateway.contains_key]. rewrite Hl. reflexivity.
Qed.

Lemma missing_image_url_is_rejected_locally_witness :
  Gateway.handler GatewayFixture.env
    {| Gateway.method := "POST"; Gateway.body := Gateway.BodyBytes "" |}
  = ([], {| Gateway.statusCode := 400;
            Gateway.headers := Gateway.json_headers;
            Gateway.response_body :=
              Gateway.dumps_error GatewayFixture.env "image_url is required" |}).
Proof.
  apply (missing_image_url_is_rejected_locally GatewayFixture.env
           {| Gateway.method := "POST"; Gateway.body := Gateway.BodyBytes "" |}).
  - reflexivity.
  - right. left. reflexivity.
Defined.

Lemma build_payload_dict (d : list (string * Gateway.JSON)) (v : Gateway.JSON) :
  Gateway.lookup "image_url" d = Some v ->
  Gateway.build_payload (Gateway.JDict d)
  = Ret {| Gateway.p_image_url := v;
           Gateway.p_use_detection :=
             match Gateway.lookup "use_detection" d with
             | Some x => x | None => Gateway.JBool true end;
           Gateway.p_detect_windows_only :=
             match Gateway.lookup "detect_windows_only" d with
             | Some x => x | None => Gateway.JBool true end;
           Gateway.p_confidence_threshold :=
             match Gateway.lookup "confidence_threshold" d with
             | Some x => x | None => Gateway.JFloat (3 # 10) end;
           Gateway.p_clear_previous :=
             match Gateway.lookup "clear_previous" d with
             | Some x => x | None => Gateway.JBool true end |}.
Proof.
  intros H. unfold Gateway.build_payload, Gateway.subscript, Gateway.get.
  rewrite H.
  destruct (Gateway.lookup "use_detection" d);
    destruct (Gateway.lookup "detect_windows_only" d);
    destruct (Gateway.lookup "confidence_threshold" d);
    destruct (Gateway.lookup "clear_previous" d); reflexivity.
Qed.

(** X26: for a JSON object with the key [image_url] the gateway posts
    exactly one payload to [<PYTHON_API_URL>/crop-image]: the image URL as
    given and the four options as given or, where absent, with the
    defaults [use_detection = true], [detect_windows_only = true],
    [confidence_threshold = 0.3], [clear_previous = true]; the status code
    and the text of the API's answer are returned unchanged. *)
Theorem gateway_forwards_with_defaults :
  forall (env : Gateway.Env) (req : Gateway.Request)
         (d : list (string * Gateway.JSON)) (v : Gateway.JSON)
         (status_code : Z) (text : string),
    String.eqb (Gateway.method req) "OPTIONS" = false ->
    Gateway.parse_body env (Gateway.body req) = Ret (Gateway.JDict d) ->
    Gateway.lookup "image_url" d = Some v ->
    Gateway.post env (String.append (Gateway.PYTHON_API_URL env) "/crop-image")
      {| Gateway.p_image_url := v;
         Gateway.p_use_detection :=
           match Gateway.lookup "use_detection" d with
           | Some x => x | None => Gateway.JBool true end;
         Gateway.p_detect_windows_only :=
           match Gateway.lookup "detect_windows_only" d with
           | Some x => x | None => Gateway.JBool true end;
         Gateway.p_confidence_threshold :=
           match Gateway.lookup "confidence_threshold" d with
           | Some x => x | None => Gateway.JFloat (3 # 10) end;
         Gateway.p_clear_previous :=
           match Gateway.lookup "clear_previous" d with
           | Some x => x | None => Gateway.JBool true end |}
    = Ret (status_code, text) ->
    Gateway.handler env req
    = ([ {| Gateway.p_image_url := v;
            Gateway.p_use_detection :=
              match Gateway.lookup "use_detection" d with
              | Some x => x | None => Gateway.JBool true end;
            Gateway.p_detect_windows_only :=
              match Gateway.lookup "detect_windows_only" d with
              | Some x => x | None => Gateway.JBool true end;
            Gateway.p_confidence_threshold :=
              match Gateway.lookup "confidence_threshold" d with
              | Some x => x | None => Gateway.JFloat (3 # 10) end;
            Gateway.p_clear_previous :=
              match Gateway.lookup "clear_previous" d with
              | Some x => x | None => Gateway.JBool true end |} ],
       {| Gateway.statusCode := status_code;
          Gateway.headers := Gateway.json_headers;
          Gateway.response_body := text |}).
Proof.
  intros env req d v status_code text Hm Hp Hl Hpost.
  unfold Gateway.handler. rewrite Hm, Hp.
  cbn [Gateway.contains_key]. rewrite Hl.
  rewrite (build_payload_dict d v Hl), Hpost. reflexivity.
Qed.

Lemma gateway_forwards_with_defaults_witness :
  Gateway.handler GatewayFixture.env
    {| Gateway.method := "POST";
       Gateway.body := Gateway.BodyStr GatewayFixture.body_with_url |}
  = ([ {| Gateway.p_image_url := Gateway.JStr "http://h/a.jpg";
          Gateway.p_use_detection := Gateway.JBool true;
          Gateway.p_detect_windows_only := Gateway.JBool true;
          Gateway.p_confidence_threshold := Gateway.JFloat (3 # 10);
          Gateway.p_clear_previous := Gateway.JBool true |} ],
     {| Gateway.statusCode := 200;
        Gateway.headers := Gateway.json_headers;
        Gateway.response_body := "{status: success}" |}).
Proof.
  apply (gateway_forwards_with_defaults GatewayFixture.env
           {| Gateway.method := "POST";
              Gateway.body := Gateway.BodyStr GatewayFixture.body_with_url |}
           [("image_url", Gateway.JStr "http://h/a.jpg");
            ("bounding_boxes", Gateway.JList [])]
           (Gateway.JStr "http://h/a.jpg") 200 "{status: success}");
    reflexivity.
Defined.

(** X27: the gateway reads five keys of the body and no other: two
    requests whose bodies are JSON objects that agree on [image_url],
    [use_detection], [detect_windows_only], [confidence_threshold] and
    [clear_previous] get the same payload posted and the same response,
    so a list of images or of bounding boxes in the body is dropped. *)
Theorem gateway_drops_other_keys :
  forall (env : Gateway.Env) (req1 req2 : Gateway.Request)
         (d1 d2 : list (string * Gateway.JSON)),
    Gateway.method req1 = Gateway.method req2 ->
    Gateway.parse_body env (Gateway.body req1) = Ret (Gateway.JDict d1) ->
    Gateway.parse_body env (Gateway.body req2) = Ret (Gateway.JDict d2) ->
    (forall k, In k Gateway.forwarded_keys -> Gateway.lookup k d1 = Gateway.lookup k d2) ->
    Gateway.handler env req1 = Gateway.handler env req2.
Proof.
  intros env req1 req2 d1 d2 Hm H1 H2 Hk.
  unfold Gateway.handler. rewrite Hm, H1, H2.
  destruct (String.eqb (Gateway.method req2) "OPTIONS"); [reflexivity |].
  cbn [Gateway.contains_key].
  assert (K : forall k, In k Gateway.forwarded_keys ->
                        Gateway.lookup k d1 = Gateway.lookup k d2) by exact Hk.
  pose proof (K "image_url" ltac:(cbn; tauto)) as K1.
  pose proof (K "use_detection" ltac:(cbn; tauto)) as K2.
  pose proof (K "detect_windows_only" ltac:(cbn; tauto)) as K3.
  pose proof (K "confidence_threshold" ltac:(cbn; tauto)) as K4.
  pose proof (K "clear_previous" ltac:(cbn; tauto)) as K5.
  destruct (Gateway.lookup "image_url" d2) as [v |] eqn:Hl; rewrite K1;
    [| reflexivity].
  rewrite (build_payload_dict d1 v K1), (build_payload_dict d2 v Hl).
  rewrite K2, K3, K4, K5. reflexivity.
Qed.

Lemma gateway_drops_other_keys_witness :
  Gateway.handler GatewayFixture.env
    {| Gateway.method := "POST";
       Gateway.body := Gateway.BodyStr GatewayFixture.body_with_url |}
  = Gateway.handler GatewayFixture.env
      {| Gateway.method := "POST";
         Gateway.body := Gateway.BodyBytes GatewayFixture.body_url_only |}.
Proof.
  apply (gateway_drops_other_keys GatewayFixture.env
           {| Gateway.method := "POST";
              Gateway.body := Gateway.BodyStr GatewayFixture.body_with_url |}
           {| Gateway.method := "POST";
              Gateway.body := Gateway.BodyBytes GatewayFixture.body_url_only |}
           [("image_url", Gateway.JStr "http://h/a.jpg");
            ("bounding_boxes", Gateway.JList [])]
           [("image_url", Gateway.JStr "http://h/a.jpg")]).
  - reflexivity.
  - reflexivity.
  - reflexivity.
  - intros k [<- | [<- | [<- | [<- | [<- | []]]]]]; reflexivity.
Defined.

(** X28: a body that parses to JSON but not to an object never reaches
    the API: the gateway answers 400 or 500 itself.  A list or a string is
    searched for ["image_url"] and, if it holds it, fails on the
    subscript; a number, a boolean or [null] fails on the membership
    test. *)
Theorem non_object_body_never_reaches_the_api :
  forall (env : Gateway.Env) (req : Gateway.Request) (data : Gateway.JSON),
    String.eqb (Gateway.method req) "OPTIONS" = false ->
    Gateway.parse_body env (Gateway.body req) = Ret data ->
    (forall d, data <> Gateway.JDict d) ->
    fst (Gateway.handler env req) = [] /\
    (Gateway.statusCode (snd (Gateway.handler env req)) = 400 \/
     Gateway.statusCode (snd (Gateway.handler env req)) = 500).
Proof.
  intros env req data Hm Hp Hd. unfold Gateway.handler. rewrite Hm, Hp.
  destruct data as [| b | n | q | s | l | d];
    cbn [Gateway.contains_key]; try (split; [reflexivity | right; reflexivity]).
  - destruct (Str.contains "image_url" s);
      split; try reflexivity; [right | left]; reflexivity.
  - destruct (existsb _ l);
      split; try reflexivity; [right | left]; reflexivity.
  - exfalso. apply (Hd d). reflexivity.
Qed.

Lemma non_object_body_never_reaches_the_api_witness :
  fst (Gateway.handler GatewayFixture.list_env GatewayFixture.list_request) = [] /\
  (Gateway.statusCode
     (snd (Gateway.handler GatewayFixture.list_env GatewayFixture.list_request)) = 400 \/
   Gateway.statusCode
     (snd (Gateway.handler GatewayFixture.list_env GatewayFixture.list_request)) = 500).
Proof.
  apply (non_object_body_never_reaches_the_api GatewayFixture.list_env
           GatewayFixture.list_request (Gateway.JList [Gateway.JStr "image_url"])).
  - reflexivity.
  - reflexivity.
  - discriminate.
Defined.

(** The list that holds the key fails on the subscript. *)
Example list_body_fails_on_subscript :
  snd (Gateway.handler GatewayFixture.list_env GatewayFixture.list_request)
  = {| Gateway.statusCode := 500;
       Gateway.headers := Gateway.json_headers;
       Gateway.response_body :=
         "{error: list indices must be integers or slices, not str}" |}.
Proof. vm_compute. reflexivity. Qed.

(** X29: what [handler] can answer.  It posts to the API at most once.
    Its response is the preflight answer (status 200, empty body, nothing
    parsed or posted), or the local rejection with status 400, or the
    status 500 with the text of an exception raised while parsing,
    building the payload or posting, or else the status code and text of
    the API's answer, unchanged. *)
Theorem gateway_outcomes :
  forall (env : Gateway.Env) (req : Gateway.Request),
    (String.eqb (Gateway.method req) "OPTIONS" = true /\
     Gateway.handler env req
     = ([], {| Gateway.statusCode := 200;
               Gateway.headers := Gateway.preflight_headers;
               Gateway.response_body := "" |}))
    \/
    (Gateway.handler env req
     = ([], {| Gateway.statusCode := 400;
               Gateway.headers := Gateway.json_headers;
               Gateway.response_body :=
                 Gateway.dumps_error env "image_url is required" |}))
    \/
    (exists e,
        snd (Gateway.handler env req) = Gateway.server_error env e /\
        (fst (Gateway.handler env req) = [] \/
         exists payload,
           fst (Gateway.handler env req) = [payload] /\
           Gateway.post env (String.append (Gateway.PYTHON_API_URL env) "/crop-image")
                        payload = Raise e))
    \/
    (exists payload status_code text,
        Gateway.post env (String.append (Gateway.PYTHON_API_URL env) "/crop-image")
                     payload = Ret (status_code, text) /\
        Gateway.handler env req
        = ([payload], {| Gateway.statusCode := status_code;
                         Gateway.headers := Gateway.json_headers;
                         Gateway.response_body := text |})).
Proof.
  intros env req. unfold Gateway.handler.
  destruct (String.eqb (Gateway.method req) "OPTIONS");
    [left; split; reflexivity |].
  destruct (Gateway.parse_body env (Gateway.body req)) as [data | e].
  2:{ right. right. left. exists e. split; [reflexivity | left; reflexivity]. }
  destruct (Gateway.contains_key "image_url" data) as [[|] | e].
  - destruct (Gateway.build_payload data) as [payload | e].
    + destruct (Gateway.post env (String.append (Gateway.PYTHON_API_URL env)
                                                "/crop-image") payload)
        as [[status_code text] | e] eqn:Ep.
      * right. right. right. exists payload, status_code, text.
        split; [exact Ep | reflexivity].
      * right. right. left. exists e. split; [reflexivity |].
        right. exists payload. split; [reflexivity | exact Ep].
    + right. right. left. exists e. split; [reflexivity | left; reflexivity].
  - right. left. reflexivity.
  - right. right. left. exists e. split; [reflexivity | left; reflexivity].
Qed.

(* ================================================================= *)
(** * The suppressor over doubles, and requests that fail *)

(* ================================================================= *)
(** ** Rounding to a double *)

Lemma round_half_even_exact (c d : Z) : 0 < d -> round_half_even (c * d) d = c.
Proof.
  intros Hd. unfold round_half_even.
  rewrite Z.div_mul, Z.mod_mul by lia.
  destruct (2 * 0 <? d) eqn:E; [reflexivity | lia].
Qed.

Lemma round_half_even_le (n d c : Z) :
  0 < d -> n <= c * d -> round_half_even n d <= c.
Proof.
  intros Hd Hn. unfold round_half_even.
  pose proof (Z.div_mod n d ltac:(lia)) as E.
  pose proof (Z.mod_pos_bound n d Hd) as B.
  assert (Q1 : n / d <= c) by nia.
  assert (Q2 : 0 < n mod d -> n / d + 1 <= c) by nia.
  destruct (2 * (n mod d) <? d) eqn:E1; [exact Q1 |].
  destruct (d <? 2 * (n mod d)) eqn:E2; [apply Q2; lia |].
  destruct (Z.even (n / d)); [exact Q1 | apply Q2; lia].
Qed.

Lemma round_half_even_ge (n d c : Z) :
  0 < d -> c * d <= n -> c <= round_half_even n d.
Proof.
  intros Hd Hn. unfold round_half_even.
  pose proof (Z.div_mod n d ltac:(lia)) as E.
  pose proof (Z.mod_pos_bound n d Hd) as B.
  assert (Q1 : c <= n / d) by nia.
  destruct (2 * (n mod d) <? d); [exact Q1 |].
  destruct (d <? 2 * (n mod d)); [lia |].
  destruct (Z.even (n / d)); lia.
Qed.

(** Above the midpoint the quotient goes up. *)
Lemma round_half_even_above_half (n d c : Z) :
  0 < d -> (2 * c + 1) * d < 2 * n -> c + 1 <= round_half_even n d.
Proof.
  intros Hd Hn. unfold round_half_even.
  pose proof (Z.div_mod n d ltac:(lia)) as E.
  pose proof (Z.mod_pos_bound n d Hd) as B.
  assert (Q1 : c <= n / d) by nia.
  assert (Q2 : n / d <= c -> d < 2 * (n mod d)) by nia.
  destruct (2 * (n mod d) <? d) eqn:E1; [lia |].
  destruct (d <? 2 * (n mod d)) eqn:E2; [lia |].
  destruct (Z.even (n / d)); lia.
Qed.

(** The binade of a quotient that is at most 1. *)
Lemma binade_spec (n d : Z) :
  0 < n -> n <= d ->
  binade n d <= 0 /\
  d <= n * 2 ^ (- binade n d) /\ n * 2 ^ (- binade n d) < 2 * d.
Proof.
  intros Hn Hd. unfold binade.
  pose proof (Z.log2_spec n Hn) as [A1 A2].
  pose proof (Z.log2_spec d ltac:(lia)) as [B1 B2].
  pose proof (Z.log2_le_mono n d Hd) as L.
  pose proof (Z.log2_nonneg n) as N0.
  set (a := Z.log2 n) in *. set (b := Z.log2 d) in *.
  replace (Z.max 0 (- (a - b))) with (b - a) by lia.
  replace (Z.max 0 (a - b)) with 0 by lia.
  rewrite Z.pow_0_r, Z.mul_1_r.
  rewrite !Z.pow_succ_r in * by lia.
  assert (P : 2 ^ b = 2 ^ a * 2 ^ (b - a)).
  { rewrite <- Z.pow_add_r by lia. f_equal; lia. }
  assert (Pp : 0 < 2 ^ (b - a)) by (apply Z.pow_pos_nonneg; lia).
  destruct (n * 2 ^ (b - a) <? d) eqn:E.
  - apply Z.ltb_lt in E.
    replace (- (a - b - 1)) with (Z.succ (b - a)) by lia.
    rewrite Z.pow_succ_r by lia.
    split; [lia |]. split; nia.
  - apply Z.ltb_ge in E.
    replace (- (a - b)) with (b - a) by lia.
    split; [lia |]. split; nia.
Qed.

(** At one half a quotient with a denominator below [2^53] and its
    double compare alike. *)
Lemma true_divide_half (n d : Z) :
  0 < n -> n <= d -> d < 2 ^ 53 ->
  Qle_bool (true_divide n d) (1 # 2) = (2 * n <=? d).
Proof.
  intros Hn Hd Hb. unfold true_divide.
  destruct (n =? 0) eqn:E0; [lia |]. clear E0.
  destruct (binade_spec n d Hn Hd) as (He & Hlo & Hhi).
  set (e := binade n d) in *. clearbody e.
  assert (Hs : 0 < 2 ^ (- e)) by (apply Z.pow_pos_nonneg; lia).
  assert (He' : - 53 <= e).
  { destruct (Z.le_gt_cases (- 53) e) as [H | H]; [exact H | exfalso].
    assert (2 ^ 54 <= 2 ^ (- e)) by (apply Z.pow_le_mono_r; lia).
    change (2 ^ 53) with 9007199254740992 in Hb.
    change (2 ^ 54) with 18014398509481984 in H0. nia. }
  replace (Z.max (e - 52) (-1074)) with (e - 52) by lia.
  replace (Z.max 0 (- (e - 52))) with (52 - e) by lia.
  replace (Z.max 0 (e - 52)) with 0 by lia.
  rewrite Z.pow_0_r, !Z.mul_1_r.
  assert (Hp : 2 ^ (52 - e) = 2 ^ 52 * 2 ^ (- e)).
  { rewrite <- Z.pow_add_r by lia. f_equal; lia. }
  assert (Hpp : 0 < 2 ^ (52 - e)) by (apply Z.pow_pos_nonneg; lia).
  unfold Qle_bool. cbn [Qnum Qden].
  rewrite Z2Pos.id by exact Hpp.
  rewrite Z.mul_1_l.
  change (2 ^ 53) with 9007199254740992 in Hb.
  change (2 ^ 52) with 4503599627370496 in Hp.
  set (m := round_half_even (n * 2 ^ (52 - e)) d).
  destruct (Z.eq_dec e 0) as [E | E];
    [| destruct (Z.eq_dec e (- 1)) as [E1 | E1]].
  - (* the quotient is 1 *)
    subst e. change (2 ^ (- 0)) with 1 in Hp, Hlo.
    assert (M : 4503599627370496 <= m).
    { apply round_half_even_ge; [lia |]. rewrite Hp. nia. }
    rewrite Hp.
    destruct (m * 2 <=? 4503599627370496 * 1) eqn:L;
      destruct (2 * n <=? d) eqn:R; try reflexivity; lia.
  - (* the quotient lies in [1/2, 1) *)
    subst e. change (2 ^ (- -1)) with 2 in Hp, Hlo, Hhi.
    rewrite Hp.
    destruct (2 * n <=? d) eqn:R.
    + apply Z.leb_le in R.
      assert (M : m = 4503599627370496).
      { unfold m. rewrite Hp.
        replace (n * (4503599627370496 * 2)) with (4503599627370496 * d) by lia.
        apply round_half_even_exact. lia. }
      rewrite M. reflexivity.
    + apply Z.leb_gt in R.
      assert (M : 4503599627370496 + 1 <= m).
      { apply round_half_even_above_half; [lia |]. rewrite Hp. nia. }
      apply Z.leb_gt. lia.
  - (* the quotient lies below 1/2 *)
    assert (He2 : e <= - 2) by lia.
    assert (S4 : 2 ^ 2 <= 2 ^ (- e)) by (apply Z.pow_le_mono_r; lia).
    change (2 ^ 2) with 4 in S4.
    assert (R : 2 * n <= d) by nia.
    assert (Hq : 2 ^ (52 - e) = 2 * 2 ^ (51 - e)).
    { rewrite <- Z.pow_succ_r by lia. f_equal. lia. }
    assert (M : m <= 2 ^ (51 - e)).
    { apply round_half_even_le; [lia |]. rewrite Hq.
      assert (0 < 2 ^ (51 - e)) by (apply Z.pow_pos_nonneg; lia). nia. }
    rewrite (proj2 (Z.leb_le (2 * n) d) R).
    apply Z.leb_le. lia.
Qed.

(* ================================================================= *)
(** ** The suppressor over doubles *)

Section SuppressFacts.
Variable conflict : BoundingBox.t -> BoundingBox.t -> bool.

Lemma existsb_conflict_false (b : BoundingBox.t) (acc : list BoundingBox.t) :
  existsb (conflict b) acc = false <->
  Forall (fun a => conflict b a = false) acc.
Proof.
  induction acc as [| a acc IH]; simpl.
  - split; [constructor | reflexivity].
  - rewrite orb_false_iff, IH. split.
    + intros [H1 H2]. constructor; assumption.
    + intros H. inversion H; subst. split; assumption.
Qed.

Lemma suppress_incl (l acc : list BoundingBox.t) (b : BoundingBox.t) :
  In b (suppress conflict l acc) -> In b acc \/ In b l.
Proof.
  revert acc. induction l as [| c l IH]; intros acc H; simpl in *; [left; exact H |].
  destruct (existsb (conflict c) acc); apply IH in H.
  - tauto.
  - rewrite in_app_iff in H. simpl in H. tauto.
Qed.

Lemma suppress_conflict_free (l acc : list BoundingBox.t) :
  conflict_free conflict acc -> conflict_free conflict (suppress conflict l acc).
Proof.
  unfold conflict_free.
  revert acc. induction l as [| c l IH]; intros acc H; [exact H |].
  simpl.
  destruct (existsb (conflict c) acc) eqn:E; apply IH; [exact H |].
  apply FOP_app. repeat split.
  - exact H.
  - constructor; constructor.
  - intros a b Ha [<- | []].
    apply existsb_conflict_false in E. rewrite Forall_forall in E. apply E, Ha.
Qed.

Lemma suppress_descending (l acc : list BoundingBox.t) :
  descending area (acc ++ l) -> descending area (suppress conflict l acc).
Proof.
  unfold descending.
  revert acc. induction l as [| c l IH]; intros acc H.
  - rewrite app_nil_r in H. exact H.
  - simpl.
    destruct (existsb (conflict c) acc); apply IH.
    + apply FOP_app in H. destruct H as (H1 & H2 & H12).
      inversion H2; subst.
      apply FOP_app. repeat split; [assumption | assumption |].
      intros a b Ha Hb. apply H12; [exact Ha | right; exact Hb].
    + rewrite <- app_assoc. exact H.
Qed.

(** On a list with no conflict the loop keeps every box. *)
Lemma suppress_keeps_conflict_free (l acc : list BoundingBox.t) :
  conflict_free conflict (acc ++ l) -> suppress conflict l acc = acc ++ l.
Proof.
  unfold conflict_free.
  revert acc. induction l as [| c l IH]; intros acc H.
  - rewrite app_nil_r. reflexivity.
  - simpl.
    assert (E : existsb (conflict c) acc = false).
    { apply existsb_conflict_false. rewrite Forall_forall. intros a Ha.
      apply FOP_app in H. destruct H as (_ & _ & H12).
      apply (H12 a c Ha). left. reflexivity. }
    rewrite E. rewrite IH; rewrite <- app_assoc; [reflexivity | exact H].
Qed.
End SuppressFacts.

(** Two tests that agree on the boxes of a list suppress alike. *)
Lemma suppress_ext
  (c1 c2 : BoundingBox.t -> BoundingBox.t -> bool) (P : BoundingBox.t -> Prop) :
  (forall a b, P a -> P b -> c1 a b = c2 a b) ->
  forall l acc, Forall P l -> Forall P acc ->
                suppress c1 l acc = suppress c2 l acc.
Proof.
  intros Hc. induction l as [| b l IH]; intros acc Hl Hacc; [reflexivity |].
  inversion Hl as [| ? ? Hb Hl']; subst. simpl.
  assert (E : existsb (c1 b) acc = existsb (c2 b) acc).
  { clear - Hc Hb Hacc. induction Hacc as [| a acc Ha _ IHa]; simpl; [reflexivity |].
    rewrite IHa, (Hc b a Hb Ha). reflexivity. }
  rewrite E. destruct (existsb (c2 b) acc); apply IH; try assumption.
  apply Forall_app. split; [assumption | constructor; [assumption | constructor]].
Qed.

Lemma greedy_suppress (t : Q) (l acc : list BoundingBox.t) :
  greedy t l acc = suppress (exceeds t) l acc.
Proof.
  revert acc. induction l as [| b l IH]; intros acc; simpl; [reflexivity | apply IH].
Qed.

Lemma fold_keep_step_binary64 (t : Q) (l acc : list BoundingBox.t) :
  fold_left (keep_step_binary64 t) (map (fun box => (box, area box)) l) acc
  = suppress (exceeds_binary64 t) l acc.
Proof.
  revert acc. induction l as [| b l IH]; intros acc; simpl; [reflexivity |].
  apply IH.
Qed.

Lemma remove_overlapping_boxes_binary64_suppress
  (boxes : list BoundingBox.t) (t : Q) :
  remove_overlapping_boxes_binary64 boxes t
  = suppress (exceeds_binary64 t) (sort_desc area boxes) [].
Proof.
  destruct boxes as [| b boxes]; [reflexivity |].
  unfold remove_overlapping_boxes_binary64.
  rewrite sort_decorated. apply fold_keep_step_binary64.
Qed.

Lemma remove_overlapping_boxes_binary64_incl (boxes : list BoundingBox.t) (t : Q) :
  incl (remove_overlapping_boxes_binary64 boxes t) boxes.
Proof.
  intros b Hb. rewrite remove_overlapping_boxes_binary64_suppress in Hb.
  apply suppress_incl in Hb. destruct Hb as [[] | Hb].
  apply sort_desc_In in Hb. exact Hb.
Qed.

Lemma remove_overlapping_boxes_binary64_conflict_free
  (boxes : list BoundingBox.t) (t : Q) :
  conflict_free (exceeds_binary64 t) (remove_overlapping_boxes_binary64 boxes t).
Proof.
  rewrite remove_overlapping_boxes_binary64_suppress.
  apply suppress_conflict_free. constructor.
Qed.

Lemma remove_overlapping_boxes_binary64_descending
  (boxes : list BoundingBox.t) (t : Q) :
  descending area (remove_overlapping_boxes_binary64 boxes t).
Proof.
  rewrite remove_overlapping_boxes_binary64_suppress.
  apply suppress_descending. simpl. apply sort_desc_descending.
Qed.

Lemma remove_overlapping_boxes_binary64_idempotent
  (boxes : list BoundingBox.t) (t : Q) :
  remove_overlapping_boxes_binary64 (remove_overlapping_boxes_binary64 boxes t) t
  = remove_overlapping_boxes_binary64 boxes t.
Proof.
  rewrite (remove_overlapping_boxes_binary64_suppress
             (remove_overlapping_boxes_binary64 boxes t)).
  rewrite sort_desc_fixpoint by apply remove_overlapping_boxes_binary64_descending.
  apply (suppress_keeps_conflict_free (exceeds_binary64 t)
           (remove_overlapping_boxes_binary64 boxes t) []).
  apply remove_overlapping_boxes_binary64_conflict_free.
Qed.

Lemma iou_inline_binary64_sym (a b : BoundingBox.t) :
  iou_inline_binary64 a b = iou_inline_binary64 b a.
Proof.
  unfold iou_inline_binary64.
  rewrite (Z.max_comm (BoundingBox.x a)), (Z.max_comm (BoundingBox.y a)).
  rewrite (Z.min_comm (BoundingBox.x a + BoundingBox.width a)).
  rewrite (Z.min_comm (BoundingBox.y a + BoundingBox.height a)).
  rewrite (Z.add_comm (BoundingBox.width a * BoundingBox.height a)).
  reflexivity.
Qed.

Lemma exceeds_binary64_sym (t : Q) (a b : BoundingBox.t) :
  exceeds_binary64 t a b = exceeds_binary64 t b a.
Proof. unfold exceeds_binary64. rewrite iou_inline_binary64_sym. reflexivity. Qed.

Lemma exceeds_binary64_false (t : Q) (a b : BoundingBox.t) :
  (0 <= t)%Q -> exceeds_binary64 t a b = false -> (IoU_binary64 a b <= t)%Q.
Proof.
  unfold exceeds_binary64, IoU_binary64. intros Ht H.
  destruct (iou_inline_binary64 a b) as [q |]; [| exact Ht].
  apply negb_false_iff, Qle_bool_iff in H. exact H.
Qed.

Lemma exact_half (i u : Z) :
  0 < u -> Qle_bool (inject_Z i / inject_Z u) (1 # 2) = (2 * i <=? u).
Proof.
  intros Hu. destruct u as [| p | p]; try lia.
  unfold Qle_bool, Qdiv, Qmult, Qinv, inject_Z. cbn [Qnum Qden].
  f_equal; lia.
Qed.

(** At the threshold 0.5 the test on the double and the test on the
    exact quotient agree for boxes of area below [2^52]. *)
Lemma exceeds_binary64_half (a b : BoundingBox.t) :
  area a < 2 ^ 52 -> area b < 2 ^ 52 ->
  exceeds_binary64 (1 # 2) a b = exceeds (1 # 2) a b.
Proof.
  unfold exceeds_binary64, exceeds, iou_inline_binary64, iou_inline, area.
  set (x1 := Z.max (BoundingBox.x a) (BoundingBox.x b)).
  set (y1 := Z.max (BoundingBox.y a) (BoundingBox.y b)).
  set (x2 := Z.min (BoundingBox.x a + BoundingBox.width a)
                   (BoundingBox.x b + BoundingBox.width b)).
  set (y2 := Z.min (BoundingBox.y a + BoundingBox.height a)
                   (BoundingBox.y b + BoundingBox.height b)).
  intros Aa Ab.
  destruct (x2 >? x1) eqn:Hx; [| reflexivity].
  destruct (y2 >? y1) eqn:Hy; [| reflexivity].
  cbn [andb].
  assert (Dx : 0 < x2 - x1) by lia.
  assert (Dy : 0 < y2 - y1) by lia.
  assert (Wa : x2 - x1 <= BoundingBox.width a) by (unfold x1, x2; lia).
  assert (Wb : x2 - x1 <= BoundingBox.width b) by (unfold x1, x2; lia).
  assert (Ha : y2 - y1 <= BoundingBox.height a) by (unfold y1, y2; lia).
  assert (Hb : y2 - y1 <= BoundingBox.height b) by (unfold y1, y2; lia).
  assert (Ia : (x2 - x1) * (y2 - y1) <= BoundingBox.width a * BoundingBox.height a)
    by nia.
  assert (Ib : (x2 - x1) * (y2 - y1) <= BoundingBox.width b * BoundingBox.height b)
    by nia.
  assert (Ip : 0 < (x2 - x1) * (y2 - y1)) by nia.
  set (i := (x2 - x1) * (y2 - y1)) in *.
  set (u := BoundingBox.width a * BoundingBox.height a
            + BoundingBox.width b * BoundingBox.height b - i).
  assert (Hu : i <= u) by (unfold u; lia).
  assert (Hu53 : u < 2 ^ 53).
  { change (2 ^ 52) with 4503599627370496 in Aa, Ab.
    change (2 ^ 53) with 9007199254740992. unfold u. lia. }
  destruct (u >? 0) eqn:E; [| lia].
  rewrite true_divide_half, exact_half by lia. reflexivity.
Qed.

Lemma remove_overlapping_boxes_binary64_half (boxes : list BoundingBox.t) :
  (forall b, In b boxes -> area b < 2 ^ 52) ->
  remove_overlapping_boxes_binary64 boxes (1 # 2)
  = remove_overlapping_boxes boxes (1 # 2).
Proof.
  intros H.
  rewrite remove_overlapping_boxes_binary64_suppress, remove_overlapping_boxes_greedy,
    greedy_suppress.
  apply (suppress_ext _ _ (fun b => area b < 2 ^ 52)).
  - intros a b. apply exceeds_binary64_half.
  - apply Forall_forall. intros b Hb. apply H. apply sort_desc_In in Hb. exact Hb.
  - constructor.
Qed.

(** C7, as the code has it.  For every list of boxes and every
    threshold the output of [remove_overlapping_boxes] is a subset of its
    input and a second pass over the output returns the same list.  The
    bound is on the number the code compares: under a threshold that is
    not negative, any two boxes at different positions of the output have
    a quotient of intersection and union, rounded to a double, of at most
    the threshold.  At the default threshold 0.5 and for boxes of area
    below [2^52] rounding cannot cross the threshold, and the exact IoU
    is at most 0.5. *)
Theorem suppressor_bounds_the_rounded_quotient :
  forall (boxes : list BoundingBox.t) (t : Q),
    incl (remove_overlapping_boxes_binary64 boxes t) boxes /\
    remove_overlapping_boxes_binary64 (remove_overlapping_boxes_binary64 boxes t) t
    = remove_overlapping_boxes_binary64 boxes t /\
    ((0 <= t)%Q ->
     forall (i j : nat) (a b : BoundingBox.t),
       i <> j ->
       nth_error (remove_overlapping_boxes_binary64 boxes t) i = Some a ->
       nth_error (remove_overlapping_boxes_binary64 boxes t) j = Some b ->
       (IoU_binary64 a b <= t)%Q) /\
    ((forall b, In b boxes -> area b < 2 ^ 52) ->
     forall (i j : nat) (a b : BoundingBox.t),
       i <> j ->
       nth_error (remove_overlapping_boxes_binary64 boxes (1 # 2)) i = Some a ->
       nth_error (remove_overlapping_boxes_binary64 boxes (1 # 2)) j = Some b ->
       (IoU a b <= 1 # 2)%Q).
Proof.
  intros boxes t.
  split; [apply remove_overlapping_boxes_binary64_incl |].
  split; [apply remove_overlapping_boxes_binary64_idempotent |].
  split.
  - intros Ht i j a b Hij Ha Hb.
    pose proof (remove_overlapping_boxes_binary64_conflict_free boxes t) as C.
    unfold conflict_free in C.
    destruct (Nat.lt_total i j) as [Hlt | [Heq | Hgt]]; [| contradiction |].
    + apply exceeds_binary64_false; [exact Ht |].
      rewrite exceeds_binary64_sym.
      exact (FOP_nth _ _ _ C i j a b Hlt Ha Hb).
    + apply exceeds_binary64_false; [exact Ht |].
      exact (FOP_nth _ _ _ C j i b a Hgt Hb Ha).
  - intros Hs i j a b Hij.
    rewrite (remove_overlapping_boxes_binary64_half boxes Hs).
    intros Ha Hb.
    pose proof (remove_overlapping_boxes_compatible boxes (1 # 2)) as C.
    destruct (Nat.lt_total i j) as [Hlt | [Heq | Hgt]]; [| contradiction |].
    + rewrite IoU_sym. apply exceeds_false_IoU; [discriminate |].
      exact (FOP_nth _ _ _ C i j a b Hlt Ha Hb).
    + apply exceeds_false_IoU; [discriminate |].
      exact (FOP_nth _ _ _ C j i b a Hgt Hb Ha).
Qed.

Lemma suppressor_bounds_the_rounded_quotient_witness :
  incl (remove_overlapping_boxes_binary64
          [Fixture.box 1 1 10 10; Fixture.box 50 50 5 5; Fixture.box 0 0 10 11] (1 # 2))
       [Fixture.box 1 1 10 10; Fixture.box 50 50 5 5; Fixture.box 0 0 10 11] /\
  remove_overlapping_boxes_binary64
    (remove_overlapping_boxes_binary64
       [Fixture.box 1 1 10 10; Fixture.box 50 50 5 5; Fixture.box 0 0 10 11] (1 # 2))
    (1 # 2)
  = remove_overlapping_boxes_binary64
      [Fixture.box 1 1 10 10; Fixture.box 50 50 5 5; Fixture.box 0 0 10 11] (1 # 2) /\
  (forall (i j : nat) (a b : BoundingBox.t),
      i <> j ->
      nth_error (remove_overlapping_boxes_binary64
          [Fixture.box 1 1 10 10; Fixture.box 50 50 5 5; Fixture.box 0 0 10 11] (1 # 2)) i
      = Some a ->
      nth_error (remove_overlapping_boxes_binary64
          [Fixture.box 1 1 10 10; Fixture.box 50 50 5 5; Fixture.box 0 0 10 11] (1 # 2)) j
      = Some b ->
      (IoU_binary64 a b <= 1 # 2)%Q) /\
  (forall (i j : nat) (a b : BoundingBox.t),
      i <> j ->
      nth_error (remove_overlapping_boxes_binary64
          [Fixture.box 1 1 10 10; Fixture.box 50 50 5 5; Fixture.box 0 0 10 11] (1 # 2)) i
      = Some a ->
      nth_error (remove_overlapping_boxes_binary64
          [Fixture.box 1 1 10 10; Fixture.box 50 50 5 5; Fixture.box 0 0 10 11] (1 # 2)) j
      = Some b ->
      (IoU a b <= 1 # 2)%Q).
Proof.
  destruct (suppressor_bounds_the_rounded_quotient
              [Fixture.box 1 1 10 10; Fixture.box 50 50 5 5; Fixture.box 0 0 10 11]
              (1 # 2)) as (H1 & H2 & H3 & H4).
  split; [exact H1 |]. split; [exact H2 |]. split.
  - apply H3. discriminate.
  - apply H4. intros b [<- | [<- | [<- | []]]]; reflexivity.
Defined.

(** C7, as the spec words it, fails: under the threshold
    0.3333333333333333 the boxes (0,0,10,10) and (5,0,10,10) are both
    kept, since their quotient 50/150 rounds to the threshold itself;
    their IoU, one third, is above the threshold. *)
Lemma suppressor_keeps_a_pair_above_the_threshold :
  remove_overlapping_boxes_binary64
    [Fixture.box 0 0 10 10; Fixture.box 5 0 10 10] one_third_binary64
  = [Fixture.box 0 0 10 10; Fixture.box 5 0 10 10] /\
  (IoU (Fixture.box 0 0 10 10) (Fixture.box 5 0 10 10) == 1 # 3)%Q /\
  (one_third_binary64 < IoU (Fixture.box 0 0 10 10) (Fixture.box 5 0 10 10))%Q /\
  ~ (forall (boxes : list BoundingBox.t) (t : Q) (i j : nat) (a b : BoundingBox.t),
        (0 <= t)%Q ->
        i <> j ->
        nth_error (remove_overlapping_boxes_binary64 boxes t) i = Some a ->
        nth_error (remove_overlapping_boxes_binary64 boxes t) j = Some b ->
        (IoU a b <= t)%Q).
Proof.
  split; [vm_compute; reflexivity |].
  split; [vm_compute; reflexivity |].
  split; [vm_compute; reflexivity |].
  intros H.
  specialize (H [Fixture.box 0 0 10 10; Fixture.box 5 0 10 10] one_third_binary64
                0%nat 1%nat (Fixture.box 0 0 10 10) (Fixture.box 5 0 10 10)).
  assert (K : (IoU (Fixture.box 0 0 10 10) (Fixture.box 5 0 10 10)
               <= one_third_binary64)%Q).
  { apply H; [discriminate | discriminate | vm_compute; reflexivity
              | vm_compute; reflexivity]. }
  vm_compute in K. apply K. reflexivity.
Qed.

(** X30: at the threshold of the one call site, 0.5, rounding the
    quotients to doubles changes nothing for boxes of area below [2^52]:
    the suppressor over doubles and the suppressor over exact quotients
    return the same list, as the two tests of a pair of boxes are
    the same. *)
Theorem rounding_is_harmless_at_the_default_threshold :
  forall (boxes : list BoundingBox.t),
    (forall b, In b boxes -> area b < 2 ^ 52) ->
    remove_overlapping_boxes_binary64 boxes (1 # 2)
    = remove_overlapping_boxes boxes (1 # 2) /\
    (forall a b, In a boxes -> In b boxes ->
                 exceeds_binary64 (1 # 2) a b = exceeds (1 # 2) a b).
Proof.
  intros boxes H. split.
  - apply remove_overlapping_boxes_binary64_half, H.
  - intros a b Ha Hb. apply exceeds_binary64_half; apply H; assumption.
Qed.

Lemma rounding_is_harmless_witness :
  remove_overlapping_boxes_binary64
    [Fixture.box 1 1 10 10; Fixture.box 50 50 5 5; Fixture.box 0 0 10 11] (1 # 2)
  = remove_overlapping_boxes
      [Fixture.box 1 1 10 10; Fixture.box 50 50 5 5; Fixture.box 0 0 10 11] (1 # 2) /\
  (forall a b,
      In a [Fixture.box 1 1 10 10; Fixture.box 50 50 5 5; Fixture.box 0 0 10 11] ->
      In b [Fixture.box 1 1 10 10; Fixture.box 50 50 5 5; Fixture.box 0 0 10 11] ->
      exceeds_binary64 (1 # 2) a b = exceeds (1 # 2) a b).
Proof.
  apply (rounding_is_harmless_at_the_default_threshold
           [Fixture.box 1 1 10 10; Fixture.box 50 50 5 5; Fixture.box 0 0 10 11]).
  intros b [<- | [<- | [<- | []]]]; reflexivity.
Defined.

(** Away from one half the two readings part: the double of 50/150 is
    the threshold 0.3333333333333333 itself. *)
Example rounding_matters_at_one_third :
  remove_overlapping_boxes_binary64
    [Fixture.box 0 0 10 10; Fixture.box 5 0 10 10] one_third_binary64
  = [Fixture.box 0 0 10 10; Fixture.box 5 0 10 10] /\
  remove_overlapping_boxes
    [Fixture.box 0 0 10 10; Fixture.box 5 0 10 10] one_third_binary64
  = [Fixture.box 0 0 10 10] /\
  true_divide 50 150 = one_third_binary64.
Proof. repeat split; vm_compute; reflexivity. Qed.

(* ================================================================= *)
(** ** Requests that fail *)



(** What [detect_objects] raises, [process_single_image] raises. *)
Lemma process_single_image_detection_failure
  (w : World) (url : string) (request : CropRequest) (job_dir : string)
  (image_index : Z) (image : Image.t) (ex : exn) :
  fetch w url = Ret image ->
  use_detection request = true ->
  snd (detect_objects w image (confidence_threshold request)
                      (detect_windows_only request)) = Raise ex ->
  process_single_image w url request job_dir image_index = Raise ex.
Proof.
  intros Hf Hu Hd.
  pose proof (detect_objects_raises_http_only w image _ _ ex Hd) as Hh.
  unfold process_single_image, process_single_image_body, download_image, resolve_boxes.
  rewrite Hf, Hu, Hd.
  destruct ex; try discriminate Hh. reflexivity.
Qed.

(** A downloaded image fails [process_single_image] through detection
    only. *)
Lemma process_single_image_raise_inv
  (w : World) (url : string) (request : CropRequest) (job_dir : string)
  (image_index : Z) (image : Image.t) (ex : exn) :
  fetch w url = Ret image ->
  process_single_image w url request job_dir image_index = Raise ex ->
  use_detection request = true /\
  snd (detect_objects w image (confidence_threshold request)
                      (detect_windows_only request)) = Raise ex.
Proof.
  intros Hf H.
  destruct (use_detection request) eqn:Hu.
  - split; [reflexivity |].
    destruct (snd (detect_objects w image (confidence_threshold request)
                                  (detect_windows_only request)))
      as [detected | ex'] eqn:Hd.
    + rewrite (process_single_image_detected w url request job_dir image_index
                 image detected Hf Hu Hd) in H.
      destruct detected; discriminate H.
    + rewrite (process_single_image_detection_failure w url request job_dir
                 image_index image ex' Hf Hu Hd) in H.
      injection H as <-. reflexivity.
  - rewrite (process_single_image_supplied w url request job_dir image_index
               image Hf Hu) in H.
    destruct (truthy (bounding_boxes request)); discriminate H.
Qed.

(** The string the handler at lines 369-370 would write carries the
    tag. *)
Lemma detection_tagged_detection_error (image_index : Z) (e : exn) :
  detection_tagged (detection_error image_index e) = true.
Proof.
  unfold detection_tagged, detection_error. cbn.
  destruct (index_str image_index); reflexivity.
Qed.




(** The first image whose download fails ends the loop with the
    exception of [download_image], unless the detection of an earlier
    image ended it before. *)
Lemma job_loop_first_download_failure
  (w : World) (request : CropRequest) (job_dir : string)
  (pre : list string) (url : string) (post : list string) (e : exn) :
  (forall u, In u pre -> returns (fetch w u) = true) ->
  fetch w url = Raise e ->
  forall (start : Z) (saved : list SavedFile) (errs : list string),
    job_loop (process_single_image w) request job_dir
             (enumerate_from start (pre ++ url :: post)) saved errs
    = Raise (HTTPException 400
               (String.append "Failed to download image: " (str_exn e)))
    \/
    (use_detection request = true /\
     exists u image ex,
       In u pre /\ fetch w u = Ret image /\
       snd (detect_objects w image (confidence_threshold request)
                           (detect_windows_only request)) = Raise ex /\
       job_loop (process_single_image w) request job_dir
                (enumerate_from start (pre ++ url :: post)) saved errs
       = Raise ex).
Proof.
  intros Hpre Hf.
  induction pre as [| u pre IH]; intros start saved errs;
    cbn [app enumerate_from job_loop].
  - left.
    rewrite (process_single_image_download_failure w url request job_dir start e Hf).
    reflexivity.
  - destruct (fetch w u) as [image | e'] eqn:Hu.
    2:{ specialize (Hpre u (or_introl eq_refl)). rewrite Hu in Hpre.
        discriminate Hpre. }
    destruct (process_single_image w u request job_dir start) as [[s er] | ex] eqn:Ep.
    + destruct (IH (fun v Hv => Hpre v (or_intror Hv)) (start + 1)
                  (saved ++ s) (errs ++ er))
        as [L | (Hd & v & image' & ex & Hin & Hv & Hdet & L)].
      * left. exact L.
      * right. split; [exact Hd |].
        exists v, image', ex.
        split; [right; exact Hin |]. split; [exact Hv |]. split; [exact Hdet | exact L].
    + destruct (process_single_image_raise_inv w u request job_dir start image ex
                  Hu Ep) as [Hd Hdet].
      pose proof (detect_objects_raises_http_only w image _ _ ex Hdet) as Hh.
      right. split; [exact Hd |].
      exists u, image, ex.
      split; [left; reflexivity |]. split; [exact Hu |]. split; [exact Hdet |].
      destruct ex; try discriminate Hh. reflexivity.
Qed.




(** C1, as the code has it.  A job whose URL list holds an image that
    fails to download does not return a report.  Once the job directory
    exists, the request ends at the first such image in the exception
    [download_image] raises for it, the [HTTPException] with status 400
    and the detail ["Failed to download image: <e>"]; only when detection
    is requested can the request end before, in the [HTTPException] that
    [detect_objects] raised on an earlier, downloaded image.  Nothing
    but an [HTTPException] leaves the request once the job directory
    exists.  A job that does return a report downloaded every image; the
    report counts all N images, holds no download-tagged error, and every
    artifact names a downloaded image of the job as its source. *)
Theorem download_failure_aborts_job :
  forall (w : World) (request : CropRequest) (urls : list string),
    get_image_urls request = Ret urls ->
    (forall url, In url urls -> returns (fetch w url) = false ->
                 returns (crop_image w request) = false) /\
    (forall (pre : list string) (url : string) (post : list string) (e : exn),
        urls = pre ++ url :: post ->
        (forall u, In u pre -> returns (fetch w u) = true) ->
        fetch w url = Raise e ->
        mkdir w (job_dir_of w) = Ret tt ->
        crop_image w request
        = Raise (HTTPException 400
                   (String.append "Failed to download image: " (str_exn e)))
        \/
        (use_detection request = true /\
         exists u image ex,
           In u pre /\ fetch w u = Ret image /\
           snd (detect_objects w image (confidence_threshold request)
                               (detect_windows_only request)) = Raise ex /\
           crop_image w request = Raise ex)) /\
    (forall e, mkdir w (job_dir_of w) = Ret tt ->
               crop_image w request = Raise e -> is_http e = true) /\
    (forall report, crop_image w request = Ret report ->
       status report = "success" /\
       images_processed report = Z.of_nat (List.length urls) /\
       saved_count report = Z.of_nat (List.length (saved_files report)) /\
       (forall url, In url urls -> returns (fetch w url) = true) /\
       Forall (fun s => download_tagged s = false) (errors report) /\
       (forall f, In f (saved_files report) ->
          In (sf_source_image f) urls /\
          returns (fetch w (sf_source_image f)) = true)).
Proof.
  intros w request urls Hu.
  split; [| split].
  - intros url Hin Hf.
    unfold crop_image. rewrite Hu.
    destruct (mkdir w (job_dir_of w)) as [[] | em]; [| reflexivity].
    destruct (enumerate_from_urls urls 0 url Hin) as (idx & Hidx).
    pose proof (job_loop_download_failure w request (job_dir_of w)
                  (enumerate urls) idx url [] [] Hidx Hf) as K.
    destruct (job_loop (process_single_image w) request (job_dir_of w)
                       (enumerate urls) [] []) as [[s e] | ex];
      [discriminate K | reflexivity].
  - intros pre url post e Hurls Hpre Hf Hm.
    rewrite (crop_image_unfold w request urls Hu Hm).
    subst urls. unfold enumerate.
    destruct (job_loop_first_download_failure w request (job_dir_of w)
                pre url post e Hpre Hf 0 [] [])
      as [L | (Hd & u & image & ex & Hin & Hfu & Hdet & L)].
    + left. rewrite L. reflexivity.
    + right. split; [exact Hd |]. exists u, image, ex.
      split; [exact Hin |]. split; [exact Hfu |]. split; [exact Hdet |].
      rewrite L. reflexivity.
  - unfold crop_image. rewrite Hu.
    destruct (mkdir w (job_dir_of w)) as [[] | em]; [| split; discriminate].
    split.
    + intros e _ H.
      destruct (job_loop (process_single_image w) request (job_dir_of w)
                         (enumerate urls) [] []) as [[s er] | ex] eqn:El;
        [discriminate H |].
      injection H as <-.
      exact (job_loop_raises_http_only w request (job_dir_of w) _ _ _ _ El).
    + intros report H.
      destruct (job_loop (process_single_image w) request (job_dir_of w)
                         (enumerate urls) [] []) as [[s e] | ex] eqn:El;
        [| discriminate H].
      injection H as <-. cbn.
      apply job_loop_returns_inv in El.
      destruct El as (ms & me & -> & -> & Hf & Hs & He). cbn.
      assert (Hall : forall url, In url urls -> returns (fetch w url) = true).
      { intros url Hin.
        destruct (enumerate_from_urls urls 0 url Hin) as (idx & Hidx).
        exact (Hf idx url Hidx). }
      repeat split; try assumption.
      * destruct (Hs f H) as (idx & Hidx).
        apply enumerate_from_In in Hidx. tauto.
      * apply Hall. destruct (Hs f H) as (idx & Hidx).
        apply enumerate_from_In in Hidx. tauto.
Qed.

Lemma download_failure_aborts_job_witness :
  (forall url, In url [Fixture.url_a; Fixture.url_bad] ->
               returns (fetch Fixture.bare url) = false ->
               returns (crop_image Fixture.bare Fixture.mixed_request) = false) /\
  (forall (pre : list string) (url : string) (post : list string) (e : exn),
      [Fixture.url_a; Fixture.url_bad] = pre ++ url :: post ->
      (forall u, In u pre -> returns (fetch Fixture.bare u) = true) ->
      fetch Fixture.bare url = Raise e ->
      mkdir Fixture.bare (job_dir_of Fixture.bare) = Ret tt ->
      crop_image Fixture.bare Fixture.mixed_request
      = Raise (HTTPException 400
                 (String.append "Failed to download image: " (str_exn e)))
      \/
      (use_detection Fixture.mixed_request = true /\
       exists u image ex,
         In u pre /\ fetch Fixture.bare u = Ret image /\
         snd (detect_objects Fixture.bare image
                (confidence_threshold Fixture.mixed_request)
                (detect_windows_only Fixture.mixed_request)) = Raise ex /\
         crop_image Fixture.bare Fixture.mixed_request = Raise ex)) /\
  (forall e, mkdir Fixture.bare (job_dir_of Fixture.bare) = Ret tt ->
             crop_image Fixture.bare Fixture.mixed_request = Raise e ->
             is_http e = true) /\
  (forall report, crop_image Fixture.bare Fixture.mixed_request = Ret report ->
     status report = "success" /\
     images_processed report = Z.of_nat (List.length [Fixture.url_a; Fixture.url_bad]) /\
     saved_count report = Z.of_nat (List.length (saved_files report)) /\
     (forall url, In url [Fixture.url_a; Fixture.url_bad] ->
                  returns (fetch Fixture.bare url) = true) /\
     Forall (fun s => download_tagged s = false) (errors report) /\
     (forall f, In f (saved_files report) ->
        In (sf_source_image f) [Fixture.url_a; Fixture.url_bad] /\
        returns (fetch Fixture.bare (sf_source_image f)) = true)).
Proof.
  apply (download_failure_aborts_job Fixture.bare Fixture.mixed_request
           [Fixture.url_a; Fixture.url_bad]).
  reflexivity.
Defined.

(** The first of the two outcomes on a job: the second image of two
    fails to download. *)
Example first_failed_download_names_its_exception :
  crop_image Fixture.bare Fixture.mixed_request
  = Raise (HTTPException 400
             (String.append "Failed to download image: "
                (str_exn (OtherException "connection refused")))) /\
  [Fixture.url_a; Fixture.url_bad] = [Fixture.url_a] ++ Fixture.url_bad :: [] /\
  fetch Fixture.bare Fixture.url_bad = Raise (OtherException "connection refused").
Proof. repeat split; vm_compute; reflexivity. Qed.
